(** * Verification of the mistral-ocr command line tool

    A shallow embedding of [src/mistral_ocr/main.py]: validation of the
    command line, submission of the input to the OCR service, resolution
    of image references (inline data URIs or extracted files), assembly of
    the Markdown / HTML / JSON artefact and its delivery; and of the
    function [process_file] of the web front end, [src/mistral_ocr/web.py].

    Conventions of the embedding.
    - A Python [str] is a [string]; its characters are the code points
      0..255.  A Python [bytes] is a [list byte].
    - A value obtained from [json.loads] is a [json]; numbers are integers
      (the OCR schema has no fractional field).
    - A Python [dict] is an association list in insertion order.
    - A computation that may raise returns a [result]; one that also acts
      on the outside world is a function of the monad [M] below.
    - The service client, the local files and the terminal are the
      [environment] and the [state] of a run; the parameter [client] of
      the Python functions is therefore not repeated.
    - Diagnostics (loguru records, progress messages on stderr) are not
      modelled, and with them the parameter [silent]: no function of the
      program reads them back.
    - The modules [re], [base64], [json] and [pathlib] are modelled as of
      Python 3.12, the version the program asks for. *)

From Stdlib Require Import String Ascii List ZArith NArith Bool Lia Arith.
From Stdlib Require Import DecimalString.
From Stdlib.Strings Require Import Byte.
Import ListNotations.
Open Scope string_scope.

Set Implicit Arguments.
Set Warnings "-register-all".

(** ** Exceptions and results *)

(** The exception classes the program can meet.  Only the class of an
    error raised by the interpreter or by a module of the standard library
    is kept; the errors of the service client and of [click] carry their
    message. *)
Inductive exn : Type :=
| TypeError
| AttributeError
| IndexError
| KeyError
| ValueError
| BinasciiError                 (* binascii.Error *)
| ReError                       (* re.error *)
| OSError
| SDKError (msg : string)       (* any error raised by the service client *)
| ClickException (msg : string)
| ClickWrapped (cause : exn).   (* ClickException(f"Error: {str(cause)}") *)

Inductive result (A : Type) : Type :=
| Ok (a : A)
| Raise (e : exn).

Arguments Ok {A} a.
Arguments Raise {A} e.

Definition rbind {A B} (r : result A) (k : A -> result B) : result B :=
  match r with
  | Ok a => k a
  | Raise e => Raise e
  end.

Declare Scope result_scope.
Delimit Scope result_scope with result.
Notation "x <- r ;; k" := (rbind r (fun x => k))
  (at level 61, r at next level, right associativity) : result_scope.

(** ** Python strings *)

Module Str.

Definition newline : ascii := "010"%char.
Definition backslash : ascii := "092"%char.
Definition dquote : ascii := "034"%char.

Definition chr (c : ascii) : string := String c EmptyString.

(** [s.startswith(p)] *)
Fixpoint startswith (s p : string) {struct p} : bool :=
  match p with
  | EmptyString => true
  | String a p' =>
      match s with
      | EmptyString => false
      | String b s' => Ascii.eqb a b && startswith s' p'
      end
  end.

(** [sub in s] *)
Fixpoint contains (sub s : string) : bool :=
  if startswith s sub then true
  else match s with
       | EmptyString => false
       | String _ s' => contains sub s'
       end.

(** [c in s] for a single character *)
Fixpoint mem (c : ascii) (s : string) : bool :=
  match s with
  | EmptyString => false
  | String d s' => Ascii.eqb d c || mem c s'
  end.

(** [s[n:]] *)
Fixpoint drop (n : nat) (s : string) : string :=
  match n, s with
  | O, _ => s
  | S _, EmptyString => EmptyString
  | S n', String _ s' => drop n' s'
  end.

(** [s.split(sep)] for a one-character separator *)
Fixpoint split (sep : ascii) (s : string) : list string :=
  match s with
  | EmptyString => [EmptyString]
  | String c s' =>
      if Ascii.eqb c sep then EmptyString :: split sep s'
      else match split sep s' with
           | [] => [chr c]
           | x :: xs => String c x :: xs
           end
  end.

(** [s.split(sep, 1)] for a one-character separator *)
Fixpoint split_once (sep : ascii) (s : string) : list string :=
  match s with
  | EmptyString => [EmptyString]
  | String c s' =>
      if Ascii.eqb c sep then [EmptyString; s']
      else match split_once sep s' with
           | [] => [chr c]
           | x :: xs => String c x :: xs
           end
  end.

(** [l[-1]] of a list of strings known to be non-empty *)
Definition last_item (l : list string) : string := last l EmptyString.

(** [str.lower] on the code points 0..255: A-Z, and the upper-case
    letters of Latin-1 (U+00C0..U+00DE but the sign U+00D7). *)
Definition lower_char (c : ascii) : ascii :=
  let n := nat_of_ascii c in
  if (((65 <=? n) && (n <=? 90))
      || ((192 <=? n) && (n <=? 222) && negb (n =? 215)))%nat
  then ascii_of_nat (n + 32) else c.

Fixpoint lower (s : string) : string :=
  match s with
  | EmptyString => EmptyString
  | String c s' => String (lower_char c) (lower s')
  end.

(** [sep.join(l)] *)
Definition join (sep : string) (l : list string) : string := String.concat sep l.

(** [s.rfind(".")]: the index of the last dot *)
Fixpoint rfind_dot_from (i : nat) (s : string) (found : option nat) : option nat :=
  match s with
  | EmptyString => found
  | String c s' =>
      rfind_dot_from (S i) s' (if Ascii.eqb c "."%char then Some i else found)
  end.

Definition rfind_dot (s : string) : option nat := rfind_dot_from 0 s None.

(** [s[:n]] *)
Fixpoint take (n : nat) (s : string) : string :=
  match n, s with
  | O, _ => EmptyString
  | S _, EmptyString => EmptyString
  | S n', String c s' => String c (take n' s')
  end.

End Str.

(** ** JSON values and the Python operations the program applies to them *)

Inductive json : Type :=
| JNull
| JBool (b : bool)
| JInt (z : Z)
| JStr (s : string)
| JList (items : list json)
| JDict (fields : list (string * json)).

Module Py.

(** Lookup in a [dict] whose keys are strings. *)
Fixpoint lookup (key : string) (kvs : list (string * json)) : option json :=
  match kvs with
  | [] => None
  | (k, v) :: rest => if String.eqb k key then Some v else lookup key rest
  end.

(** [d.get(key, default)]: only a dict has the method. *)
Definition get (d : json) (key : string) (default : json) : result json :=
  match d with
  | JDict kvs =>
      match lookup key kvs with
      | Some v => Ok v
      | None => Ok default
      end
  | _ => Raise AttributeError
  end.

(** [for x in v]: the items a [for] loop visits. *)
Definition iter (v : json) : result (list json) :=
  match v with
  | JList l => Ok l
  | JDict kvs => Ok (map (fun kv => JStr (fst kv)) kvs)
  | JStr s => Ok (map (fun c => JStr (Str.chr c)) (list_ascii_of_string s))
  | _ => Raise TypeError
  end.

Definition is_str (key : string) (v : json) : bool :=
  match v with
  | JStr s => String.eqb s key
  | _ => false
  end.

(** [key in v] for a string [key] *)
Definition contains (key : string) (v : json) : result bool :=
  match v with
  | JDict kvs =>
      Ok (match lookup key kvs with Some _ => true | None => false end)
  | JList l => Ok (existsb (is_str key) l)
  | JStr s => Ok (Str.contains key s)
  | _ => Raise TypeError
  end.

(** [v[key]] for a string [key] *)
Definition getitem (v : json) (key : string) : result json :=
  match v with
  | JDict kvs =>
      match lookup key kvs with
      | Some x => Ok x
      | None => Raise KeyError
      end
  | _ => Raise TypeError
  end.

(** Keys of a Python dict: hashable values, compared with [==]
    ([True == 1] and [False == 0]). *)
Definition hashable (k : json) : bool :=
  match k with
  | JList _ | JDict _ => false
  | _ => true
  end.

Definition key_eqb (a b : json) : bool :=
  match a, b with
  | JNull, JNull => true
  | JBool x, JBool y => Bool.eqb x y
  | JBool x, JInt z | JInt z, JBool x => Z.eqb z (if x then 1 else 0)
  | JInt x, JInt y => Z.eqb x y
  | JStr x, JStr y => String.eqb x y
  | _, _ => false
  end.

(** A dict with arbitrary hashable keys, in insertion order. *)
Definition dict : Type := list (json * json).

(** [d[k] = v] on a dict whose keys are hashable: an existing key keeps
    its place (and its key object), a new one goes last. *)
Fixpoint set_item (d : dict) (k v : json) : dict :=
  match d with
  | [] => [(k, v)]
  | (k', v') :: rest =>
      if key_eqb k' k then (k', v) :: rest else (k', v') :: set_item rest k v
  end.

Definition setitem (d : dict) (k v : json) : result dict :=
  if hashable k then Ok (set_item d k v) else Raise TypeError.

Fixpoint dict_get (d : dict) (k : json) : option json :=
  match d with
  | [] => None
  | (k', v') :: rest => if key_eqb k' k then Some v' else dict_get rest k
  end.

End Py.

(** ** [json.dumps(value, indent=4)] *)

Module JsonDump.

Definition hex_digit (n : N) : ascii :=
  match String.get (N.to_nat n) "0123456789abcdef" with
  | Some c => c
  | None => "0"%char
  end.

(** ["\\u{0:04x}".format(n)] for a code point below 256 *)
Definition u_escape (n : N) : string :=
  String Str.backslash
    ("u00" ++ Str.chr (hex_digit (N.shiftr n 4)) ++ Str.chr (hex_digit (N.land n 15))).

(** One character of [py_encode_basestring_ascii] ([ensure_ascii] is on). *)
Definition escape_char (c : ascii) : string :=
  let n := N_of_ascii c in
  if Ascii.eqb c Str.dquote then String Str.backslash (Str.chr Str.dquote)
  else if Ascii.eqb c Str.backslash then String Str.backslash (Str.chr Str.backslash)
  else if (n =? 8)%N then String Str.backslash "b"
  else if (n =? 12)%N then String Str.backslash "f"
  else if (n =? 10)%N then String Str.backslash "n"
  else if (n =? 13)%N then String Str.backslash "r"
  else if (n =? 9)%N then String Str.backslash "t"
  else if ((n <? 32) || (126 <? n))%N then u_escape n
  else Str.chr c.

Fixpoint escape (s : string) : string :=
  match s with
  | EmptyString => EmptyString
  | String c s' => escape_char c ++ escape s'
  end.

Definition encode_string (s : string) : string :=
  String Str.dquote (escape s ++ Str.chr Str.dquote).

Fixpoint spaces (n : nat) : string :=
  match n with
  | O => EmptyString
  | S n' => String " "%char (spaces n')
  end.

(** ['\n' + _indent * _current_indent_level] *)
Definition newline_indent (indent level : nat) : string :=
  String Str.newline (spaces (indent * level)).

Fixpoint encode (indent level : nat) (v : json) : string :=
  match v with
  | JNull => "null"
  | JBool true => "true"
  | JBool false => "false"
  | JInt z => NilZero.string_of_int (Z.to_int z)
  | JStr s => encode_string s
  | JList [] => "[]"
  | JList l =>
      let nl := newline_indent indent (S level) in
      "[" ++ nl
          ++ String.concat ("," ++ nl) (map (encode indent (S level)) l)
          ++ newline_indent indent level ++ "]"
  | JDict [] => "{}"
  | JDict kvs =>
      let nl := newline_indent indent (S level) in
      "{" ++ nl
          ++ String.concat ("," ++ nl)
               (map (fun kv => let '(k, x) := kv in
                               encode_string k ++ ": " ++ encode indent (S level) x)
                    kvs)
          ++ newline_indent indent level ++ "}"
  end.

Definition dumps (v : json) (indent : nat) : string := encode indent 0 v.

End JsonDump.

(** ** [base64.b64encode] and [base64.b64decode] *)

Module Base64.

Definition alphabet : string :=
  "ABCDEFGHIJKLMNOPQRSTUVWXYZabcdefghijklmnopqrstuvwxyz0123456789+/".

Definition pad : ascii := "="%char.

(** [table_b2a_base64]: the character of a 6-bit value *)
Definition b2a_char (n : N) : ascii :=
  match String.get (N.to_nat n) alphabet with
  | Some c => c
  | None => pad
  end.

Fixpoint index_from (i : N) (c : ascii) (s : string) : option N :=
  match s with
  | EmptyString => None
  | String d s' => if Ascii.eqb d c then Some i else index_from (N.succ i) c s'
  end.

(** [table_a2b_base64]: the 6-bit value of a character of the alphabet,
    [None] for every other character *)
Definition a2b_char (c : ascii) : option N := index_from 0 c alphabet.

Definition byte_of_N (n : N) : byte :=
  match Byte.of_N (N.land n 255) with
  | Some b => b
  | None => x00
  end.

(** The four 6-bit values of a group of three bytes. *)
Definition sextet0 (n0 : N) : N := N.shiftr n0 2.
Definition sextet1 (n0 n1 : N) : N :=
  N.lor (N.shiftl (N.land n0 3) 4) (N.shiftr n1 4).
Definition sextet2 (n1 n2 : N) : N :=
  N.lor (N.shiftl (N.land n1 15) 2) (N.shiftr n2 6).
Definition sextet3 (n2 : N) : N := N.land n2 63.

(** [binascii.b2a_base64(data, newline=False)], three bytes at a time;
    an incomplete last group is filled with zero bits and padded. *)
Fixpoint b2a_base64 (data : list byte) : string :=
  match data with
  | [] => EmptyString
  | [b0] =>
      let n0 := Byte.to_N b0 in
      String (b2a_char (sextet0 n0))
        (String (b2a_char (sextet1 n0 0))
           (String pad (String pad EmptyString)))
  | [b0; b1] =>
      let n0 := Byte.to_N b0 in
      let n1 := Byte.to_N b1 in
      String (b2a_char (sextet0 n0))
        (String (b2a_char (sextet1 n0 n1))
           (String (b2a_char (sextet2 n1 0))
              (String pad EmptyString)))
  | b0 :: b1 :: b2 :: rest =>
      let n0 := Byte.to_N b0 in
      let n1 := Byte.to_N b1 in
      let n2 := Byte.to_N b2 in
      String (b2a_char (sextet0 n0))
        (String (b2a_char (sextet1 n0 n1))
           (String (b2a_char (sextet2 n1 n2))
              (String (b2a_char (sextet3 n2))
                 (b2a_base64 rest))))
  end.

(** [base64.b64encode(data).decode()] *)
Definition b64encode (data : list byte) : string := b2a_base64 data.

(** The loop of [binascii.a2b_base64] in its default, non-strict mode:
    [quad_pos] counts the characters of the current group of four,
    [leftchar] holds the bits not yet written, [pads] the padding
    characters seen in a row.  Characters outside the alphabet are
    skipped; a complete padding ends the decoding. *)
Fixpoint a2b_loop (quad_pos : nat) (leftchar : N) (pads : nat)
         (data : string) : result (list byte) :=
  match data with
  | EmptyString =>
      match quad_pos with
      | O => Ok []
      | _ => Raise BinasciiError
      end
  | String this data' =>
      if Ascii.eqb this pad then
        if (2 <=? quad_pos)%nat then
          if (4 <=? quad_pos + S pads)%nat then Ok []
          else a2b_loop quad_pos leftchar (S pads) data'
        else a2b_loop quad_pos leftchar pads data'
      else
        match a2b_char this with
        | None => a2b_loop quad_pos leftchar pads data'
        | Some this_ch =>
            match quad_pos with
            | 0 => a2b_loop 1 this_ch 0 data'
            | 1 =>
                match a2b_loop 2 (N.land this_ch 15) 0 data' with
                | Ok out =>
                    Ok (byte_of_N (N.lor (N.shiftl leftchar 2) (N.shiftr this_ch 4)) :: out)
                | Raise e => Raise e
                end
            | 2 =>
                match a2b_loop 3 (N.land this_ch 3) 0 data' with
                | Ok out =>
                    Ok (byte_of_N (N.lor (N.shiftl leftchar 4) (N.shiftr this_ch 2)) :: out)
                | Raise e => Raise e
                end
            | _ =>
                match a2b_loop 0 0 0 data' with
                | Ok out =>
                    Ok (byte_of_N (N.lor (N.shiftl leftchar 6) this_ch) :: out)
                | Raise e => Raise e
                end
            end
        end
  end.

Fixpoint isascii (s : string) : bool :=
  match s with
  | EmptyString => true
  | String c s' => (N_of_ascii c <? 128)%N && isascii s'
  end.

(** [base64.b64decode(s)] for a [str] argument: the text is first
    encoded as ASCII, which a character above 127 refuses. *)
Definition b64decode (s : string) : result (list byte) :=
  if isascii s then a2b_loop 0 0 0 s else Raise ValueError.

End Base64.

(** ** The regular-expression substitution of [generate_output_content]

    [re.sub(r"!\[(.*?)\]\(" + re.escape(img_id) + r"\)", repl, text)].
    The pattern is fixed up to the identifier, which [re.escape] makes a
    literal: an opening [![], a lazy group of characters other than the
    line feed, and the literal closing [](img_id)].  The replacement is a
    template in which a backslash introduces an escape. *)

Module Re.

(** *** Replacement templates ([re._parser.parse_template]) *)

Inductive titem : Type :=
| TChar (c : ascii)        (* a literal character *)
| TGroup (index : nat).    (* the text of a group, 0 for the whole match *)

(** Where the parser stands: in the template text, or inside the name of
    [\g<name>] with the characters of the name read so far. *)
Inductive tmode : Type :=
| TText
| TName (name : string).

Definition digit_value (c : ascii) : option nat :=
  let n := nat_of_ascii c in
  if ((48 <=? n) && (n <=? 57))%nat then Some (n - 48) else None.

Definition octal_value (c : ascii) : option nat :=
  let n := nat_of_ascii c in
  if ((48 <=? n) && (n <=? 55))%nat then Some (n - 48) else None.

Definition is_ascii_letter (c : ascii) : bool :=
  let n := nat_of_ascii c in
  (((65 <=? n) && (n <=? 90)) || ((97 <=? n) && (n <=? 122)))%nat.

(** [name.isdecimal() and name.isascii()], with [int(name)] *)
Fixpoint decimal_from (acc : nat) (name : string) : option nat :=
  match name with
  | EmptyString => Some acc
  | String c rest =>
      match digit_value c with
      | Some d => decimal_from (10 * acc + d) rest
      | None => None
      end
  end.

Definition decimal (name : string) : option nat :=
  match name with
  | EmptyString => None
  | _ => decimal_from 0 name
  end.

(** [name.isidentifier()] on the code points 0..255: a letter or an
    underscore, then letters, digits, underscores and the middle dot. *)
Definition is_letter (c : ascii) : bool :=
  let n := nat_of_ascii c in
  (((65 <=? n) && (n <=? 90)) || (n =? 95) || ((97 <=? n) && (n <=? 122))
   || (n =? 170) || (n =? 181) || (n =? 186)
   || ((192 <=? n) && (n <=? 214)) || ((216 <=? n) && (n <=? 246))
   || (248 <=? n))%nat.

Definition is_letter_or_digit (c : ascii) : bool :=
  let n := nat_of_ascii c in
  (is_letter c || ((48 <=? n) && (n <=? 57)) || (n =? 183))%nat.

Fixpoint all_chars (f : ascii -> bool) (s : string) : bool :=
  match s with
  | EmptyString => true
  | String c rest => f c && all_chars f rest
  end.

Definition isidentifier (name : string) : bool :=
  match name with
  | EmptyString => false
  | String c rest => is_letter c && all_chars is_letter_or_digit rest
  end.

(** [ESCAPES]: the one-letter escapes and the doubled backslash *)
Definition simple_escape (c : ascii) : option ascii :=
  if Ascii.eqb c "a" then Some (ascii_of_nat 7)
  else if Ascii.eqb c "b" then Some (ascii_of_nat 8)
  else if Ascii.eqb c "f" then Some (ascii_of_nat 12)
  else if Ascii.eqb c "n" then Some (ascii_of_nat 10)
  else if Ascii.eqb c "r" then Some (ascii_of_nat 13)
  else if Ascii.eqb c "t" then Some (ascii_of_nat 9)
  else if Ascii.eqb c "v" then Some (ascii_of_nat 11)
  else if Ascii.eqb c Str.backslash then Some Str.backslash
  else None.

Definition add_item (i : titem) (r : result (list titem)) : result (list titem) :=
  match r with
  | Ok l => Ok (i :: l)
  | Raise e => Raise e
  end.

(** [addgroup]: a reference to a group the pattern does not have is an
    error. *)
Definition add_group (groups index : nat) (r : result (list titem))
  : result (list titem) :=
  if (index <=? groups)%nat then add_item (TGroup index) r else Raise ReError.

(** The parser, as of Python 3.12.  A malformed template is a
    [re.error]; a well-formed [\g<name>] whose name is an identifier is an
    [IndexError], the pattern having no named group. *)
Fixpoint parse (groups : nat) (m : tmode) (s : string) {struct s}
  : result (list titem) :=
  match m with
  | TName name =>
      match s with
      | EmptyString => Raise ReError              (* unterminated name *)
      | String c s1 =>
          if Ascii.eqb c ">" then
            match name with
            | EmptyString => Raise ReError        (* missing group name *)
            | _ =>
                match decimal name with
                | Some index => add_group groups index (parse groups TText s1)
                | None =>
                    if isidentifier name then Raise IndexError  (* unknown group name *)
                    else Raise ReError            (* bad character in group name *)
                end
            end
          else if Ascii.eqb c Str.backslash then
            (* an escape inside the name: the name is no number and no
               identifier, whatever follows *)
            Raise ReError
          else parse groups (TName (name ++ Str.chr c)) s1
      end
  | TText =>
      match s with
      | EmptyString => Ok []
      | String c s1 =>
          if negb (Ascii.eqb c Str.backslash) then add_item (TChar c) (parse groups TText s1)
          else
            match s1 with
            | EmptyString => Raise ReError        (* bad escape (end of pattern) *)
            | String e s2 =>
                if Ascii.eqb e "g" then
                  match s2 with
                  | String lt s3 =>
                      if Ascii.eqb lt "<" then parse groups (TName EmptyString) s3
                      else Raise ReError          (* missing < *)
                  | EmptyString => Raise ReError
                  end
                else if Ascii.eqb e "0" then
                  (* \0, \0o, \0oo: an octal escape of up to three digits *)
                  match s2 with
                  | String o1 s3 =>
                      match octal_value o1 with
                      | Some v1 =>
                          match s3 with
                          | String o2 s4 =>
                              match octal_value o2 with
                              | Some v2 =>
                                  add_item (TChar (ascii_of_nat (8 * v1 + v2)))
                                           (parse groups TText s4)
                              | None =>
                                  add_item (TChar (ascii_of_nat v1)) (parse groups TText s3)
                              end
                          | EmptyString =>
                              add_item (TChar (ascii_of_nat v1)) (parse groups TText s3)
                          end
                      | None => add_item (TChar (ascii_of_nat 0)) (parse groups TText s2)
                      end
                  | EmptyString => add_item (TChar (ascii_of_nat 0)) (parse groups TText s2)
                  end
                else
                  match digit_value e with
                  | Some d1 =>
                      (* \d, \dd: a group; \ooo: an octal escape *)
                      match s2 with
                      | String e2 s3 =>
                          match digit_value e2 with
                          | Some d2 =>
                              match s3 with
                              | String e3 s4 =>
                                  match octal_value e, octal_value e2, octal_value e3 with
                                  | Some o1, Some o2, Some o3 =>
                                      let v := 64 * o1 + 8 * o2 + o3 in
                                      if (255 <? v)%nat then Raise ReError
                                      else add_item (TChar (ascii_of_nat v))
                                                    (parse groups TText s4)
                                  | _, _, _ =>
                                      add_group groups (10 * d1 + d2) (parse groups TText s3)
                                  end
                              | EmptyString =>
                                  add_group groups (10 * d1 + d2) (parse groups TText s3)
                              end
                          | None => add_group groups d1 (parse groups TText s2)
                          end
                      | EmptyString => add_group groups d1 (parse groups TText s2)
                      end
                  | None =>
                      match simple_escape e with
                      | Some x => add_item (TChar x) (parse groups TText s2)
                      | None =>
                          if is_ascii_letter e then Raise ReError   (* bad escape *)
                          else add_item (TChar c)
                                        (add_item (TChar e) (parse groups TText s2))
                      end
                  end
            end
      end
  end.

Definition parse_template (groups : nat) (repl : string) : result (list titem) :=
  parse groups TText repl.

(** The text a template stands for, given the whole match and group 1. *)
Fixpoint expand (tpl : list titem) (whole group1 : string) : string :=
  match tpl with
  | [] => EmptyString
  | TChar c :: rest => String c (expand rest whole group1)
  | TGroup O :: rest => whole ++ expand rest whole group1
  | TGroup (S _) :: rest => group1 ++ expand rest whole group1
  end.

(** *** Matching *)

(** The literal end of the pattern: [](img_id)]. *)
Definition link_tail (img_id : string) : string := "](" ++ img_id ++ ")".

(** The lazy group [(.*?)] followed by the literal [tail]: the shortest
    run of characters other than the line feed after which [tail]
    stands.  Returns the group and what follows the match. *)
Fixpoint lazy_group (tail s : string) : option (string * string) :=
  if Str.startswith s tail then Some (EmptyString, Str.drop (String.length tail) s)
  else
    match s with
    | EmptyString => None
    | String c s' =>
        if Ascii.eqb c Str.newline then None
        else
          match lazy_group tail s' with
          | Some (g, rest) => Some (String c g, rest)
          | None => None
          end
    end.

(** A match of the whole pattern at the head of [s]. *)
Definition match_image (img_id s : string) : option (string * string) :=
  match s with
  | String c (String d s') =>
      if Ascii.eqb c "!" && Ascii.eqb d "[" then lazy_group (link_tail img_id) s'
      else None
  | _ => None
  end.

(** *** Substitution *)

(** The scan of [re.sub]: the leftmost match is replaced, the scan goes
    on after it; where no match starts, one character is copied.  A match
    is never empty, so [fuel] need not exceed the length of the text. *)
Fixpoint sub_scan (fuel : nat) (img_id : string) (tpl : list titem) (s : string)
  : string :=
  match fuel with
  | O => s
  | S fuel' =>
      match s with
      | EmptyString => EmptyString
      | String c s' =>
          match match_image img_id s with
          | Some (alt, rest) =>
              expand tpl ("![" ++ alt ++ link_tail img_id) alt
                     ++ sub_scan fuel' img_id tpl rest
          | None => String c (sub_scan fuel' img_id tpl s')
          end
      end
  end.

(** [re.sub(pattern_of img_id, repl, text)].  The template is compiled
    before the scan: an ill-formed one is an error even when nothing
    matches. *)
Definition sub (img_id repl text : string) : result string :=
  match parse_template 1 repl with
  | Ok tpl => Ok (sub_scan (String.length text) img_id tpl text)
  | Raise e => Raise e
  end.

End Re.

(** ** Paths ([pathlib]) *)

(** A path as [pathlib] keeps it: whether it is anchored at the root, and
    its components, without the empty ones and the single dots.  (The
    POSIX special case of exactly two leading slashes is read as one.) *)
Record path : Type := { absolute : bool; parts : list string }.

Module Path.

Definition keep_part (s : string) : bool :=
  negb (String.eqb s EmptyString || String.eqb s ".").

(** [Path(s)] *)
Definition of_string (s : string) : path :=
  {| absolute := Str.startswith s "/";
     parts := filter keep_part (Str.split "/" s) |}.

(** [p / s]: an absolute right operand replaces the left one. *)
Definition div (p : path) (s : string) : path :=
  let q := of_string s in
  if absolute q then q
  else {| absolute := absolute p; parts := parts p ++ parts q |}.

(** [p.name] *)
Definition name (p : path) : string := last (parts p) EmptyString.

(** [p.parent], for a path with at least one component *)
Definition parent (p : path) : path :=
  {| absolute := absolute p; parts := removelast (parts p) |}.

(** The index at which the suffix of a file name starts: the last dot,
    unless it is the first or the last character. *)
Definition suffix_index (n : string) : option nat :=
  match Str.rfind_dot n with
  | Some i => if ((0 <? i) && (i <? String.length n - 1))%nat then Some i else None
  | None => None
  end.

(** [p.suffix] *)
Definition suffix (p : path) : string :=
  match suffix_index (name p) with
  | Some i => Str.drop i (name p)
  | None => EmptyString
  end.

(** [p.stem] *)
Definition stem (p : path) : string :=
  match suffix_index (name p) with
  | Some i => Str.take i (name p)
  | None => name p
  end.

Definition eqb (p q : path) : bool :=
  Bool.eqb (absolute p) (absolute q)
  && if list_eq_dec string_dec (parts p) (parts q) then true else false.

End Path.

(** ** The outside world *)

(** What a file holds: the bytes written through [open(p, "wb")], or the
    text written by [write_text]. *)
Inductive content : Type :=
| Bytes (data : list byte)
| Text (s : string).

Inductive document : Type :=
| ImageURLChunk (image_url : string)
| DocumentURLChunk (document_url : string).

(** The object returned by [client.files.upload]. *)
Record uploaded : Type := { id : string }.

(** The calls the program makes to the outside, in the order made. *)
Inductive event : Type :=
| NewClient (api_key : string)
| ReadBytes (p : path)
| FilesUpload (file_name : string) (data : list byte) (purpose : string)
| FilesGetSignedUrl (file_id : string) (expiry : nat)
| OcrProcess (doc : document) (model : string) (include_image_base64 : bool)
| FilesDelete (file_id : string)
| Mkdir (p : path)
| OpenWrite (p : path)
| FileWrite (p : path) (c : content)
| Echo (msg : string).

(** How the outside answers during one run: the local files that can be
    read, the answers of the OCR service, and whether a directory can be
    made and a file opened for writing. *)
Record environment : Type := {
  env_read_bytes : path -> result (list byte);
  env_upload : string -> list byte -> result uploaded;
  env_signed_url : string -> result string;
  env_ocr : document -> string -> bool -> result json;
  env_delete : string -> result unit;
  env_mkdir : path -> result unit;
  env_open : path -> result unit
}.

(** The state a run threads: the files written, the calls made, and the
    variable [uploaded_file] of [ocr_pdf], which its [try] body assigns
    and its [finally] block reads. *)
Record state : Type := {
  fs : list (path * content);
  trace : list event;
  uploaded_file : option uploaded
}.

Definition initial : state := {| fs := []; trace := []; uploaded_file := None |}.

(** The content of a file: the last one written. *)
Fixpoint fs_lookup (files : list (path * content)) (p : path) : option content :=
  match files with
  | [] => None
  | (q, c) :: rest => if Path.eqb q p then Some c else fs_lookup rest p
  end.

(** ** The monad of effectful computations *)

Definition M (A : Type) : Type := state -> result A * state.

Definition ret {A} (a : A) : M A := fun st => (Ok a, st).

Definition raise {A} (e : exn) : M A := fun st => (Raise e, st).

Definition lift {A} (r : result A) : M A := fun st => (r, st).

Definition bind {A B} (m : M A) (k : A -> M B) : M B :=
  fun st =>
    match m st with
    | (Ok a, st') => k a st'
    | (Raise e, st') => (Raise e, st')
    end.

(** [try: body  except Exception as e: handler e] *)
Definition try_except {A} (body : M A) (handler : exn -> M A) : M A :=
  fun st =>
    match body st with
    | (Ok a, st') => (Ok a, st')
    | (Raise e, st') => handler e st'
    end.

(** [try: body  finally: final]: the final block runs on both exits; an
    exception it raises replaces the outcome of the body. *)
Definition try_finally {A} (body : M A) (final : M unit) : M A :=
  fun st =>
    match body st with
    | (r, st') =>
        match final st' with
        | (Ok _, st'') => (r, st'')
        | (Raise e, st'') => (Raise e, st'')
        end
    end.

Declare Scope monad_scope.
Delimit Scope monad_scope with monad.
Notation "x <- m ;; k" := (bind m (fun x => k))
  (at level 61, m at next level, right associativity) : monad_scope.
Notation "m ;; k" := (bind m (fun _ => k))
  (at level 61, right associativity) : monad_scope.

Definition emit (e : event) : M unit :=
  fun st => (Ok tt, {| fs := fs st; trace := trace st ++ [e];
                       uploaded_file := uploaded_file st |}).

Definition set_file (p : path) (c : content) : M unit :=
  fun st => (Ok tt, {| fs := (p, c) :: fs st; trace := trace st;
                       uploaded_file := uploaded_file st |}).

Definition set_uploaded_file (u : option uploaded) : M unit :=
  fun st => (Ok tt, {| fs := fs st; trace := trace st; uploaded_file := u |}).

Definition get_uploaded_file : M (option uploaded) :=
  fun st => (Ok (uploaded_file st), st).

Section Calls.

Variable env : environment.

Local Open Scope monad_scope.

(** [Mistral(api_key=...)] *)
Definition new_client (api_key : string) : M unit := emit (NewClient api_key).

(** [p.read_bytes()] *)
Definition read_bytes (p : path) : M (list byte) :=
  emit (ReadBytes p) ;; lift (env_read_bytes env p).

(** [client.files.upload(file={...}, purpose=...)] *)
Definition files_upload (file_name : string) (data : list byte) (purpose : string)
  : M uploaded :=
  emit (FilesUpload file_name data purpose) ;; lift (env_upload env file_name data).

(** [client.files.get_signed_url(file_id=..., expiry=...)] *)
Definition files_get_signed_url (file_id : string) (expiry : nat) : M string :=
  emit (FilesGetSignedUrl file_id expiry) ;; lift (env_signed_url env file_id).

(** [client.ocr.process(document=..., model=..., include_image_base64=...)],
    the response already in the form [json.loads(response.model_dump_json())]
    gives it *)
Definition ocr_process (doc : document) (model : string) (include_image_base64 : bool)
  : M json :=
  emit (OcrProcess doc model include_image_base64) ;;
  lift (env_ocr env doc model include_image_base64).

(** [client.files.delete(file_id=...)] *)
Definition files_delete (file_id : string) : M unit :=
  emit (FilesDelete file_id) ;; lift (env_delete env file_id).

(** [p.mkdir(parents=True, exist_ok=True)] *)
Definition mkdir (p : path) : M unit :=
  emit (Mkdir p) ;; lift (env_mkdir env p).

(** [open(p, "wb")]: the file is created or emptied *)
Definition open_wb (p : path) : M unit :=
  emit (OpenWrite p) ;; lift (env_open env p) ;; set_file p (Bytes []).

(** [f.write(data)] on a file opened by [open_wb] *)
Definition file_write (p : path) (data : list byte) : M unit :=
  emit (FileWrite p (Bytes data)) ;; set_file p (Bytes data).

(** [p.write_text(s)] *)
Definition write_text (p : path) (s : string) : M unit :=
  emit (OpenWrite p) ;; lift (env_open env p) ;;
  emit (FileWrite p (Text s)) ;; set_file p (Text s).

(** [click.echo(s)] *)
Definition echo (s : string) : M unit := emit (Echo s).

End Calls.

(** ** The program: [src/mistral_ocr/main.py] *)

(** Truth value of an option of the command line that holds a string:
    [None] and the empty string are false. *)
Definition truthy (o : option string) : bool :=
  match o with
  | Some s => negb (String.eqb s EmptyString)
  | None => false
  end.

Definition string_of (o : option string) : string :=
  match o with
  | Some s => s
  | None => EmptyString
  end.

(** [validate_options] *)
Definition validate_options (api_key output output_dir : option string)
           (json_ extract_images inline_images : bool) : result unit :=
  if negb (truthy api_key) then
    Raise (ClickException
             "No API key provided and MISTRAL_API_KEY environment variable not set.")
  else if truthy output && truthy output_dir then
    Raise (ClickException "Cannot specify both --output and --output-dir")
  else if json_ && truthy output_dir then
    Raise (ClickException "JSON output is not supported with --output-dir")
  else if extract_images && negb (truthy output_dir) then
    Raise (ClickException "--extract-images requires --output-dir")
  else if inline_images && extract_images then
    Raise (ClickException "Cannot specify both --inline-images and --extract-images")
  else Ok tt.

(** [value.startswith(p)]: only a string has the method. *)
Definition py_startswith (value : json) (p : string) : result bool :=
  match value with
  | JStr s => Ok (Str.startswith s p)
  | _ => Raise AttributeError
  end.

(** [value.split(".")[-1].lower()] *)
Definition py_extension (value : json) : result string :=
  match value with
  | JStr s => Ok (Str.lower (Str.last_item (Str.split "." s)))
  | _ => Raise AttributeError
  end.

(** [image_data.split(",", 1)[1]] *)
Definition after_first_comma (s : string) : result string :=
  match nth_error (Str.split_once "," s) 1 with
  | Some x => Ok x
  | None => Raise IndexError
  end.

(** [image_dir / image_filename]: the right operand must be a string. *)
Definition py_path_div (image_dir : path) (image_filename : json) : result path :=
  match image_filename with
  | JStr s => Ok (Path.div image_dir s)
  | _ => Raise TypeError
  end.

(** The test ["id" in img and "image_base64" in img], the second
    membership evaluated only when the first holds. *)
Definition has_id_and_data (img : json) : result bool :=
  (has_id <- Py.contains "id" img ;;
   if has_id then Py.contains "image_base64" img else Ok false)%result.

Section Program.

Variable env : environment.

(** [markdown.Markdown(extensions=["tables"]).convert], the renderer of
    the [markdown] package. *)
Variable md_convert : string -> string.

Local Open Scope monad_scope.

(** [process_image] *)
Definition process_image (image_path : path) (model : string)
           (include_images : bool) : M json :=
  try_except
    (data <- read_bytes env image_path ;;
     let encoded := Base64.b64encode data in
     let base64_data_url := "data:image/jpeg;base64," ++ encoded in
     ocr_process env (ImageURLChunk base64_data_url) model include_images)
    (fun e => raise e).

(** [process_pdf] *)
Definition process_pdf (pdf_path : path) (model : string)
           (include_images : bool) : M (json * uploaded) :=
  try_except
    (data <- read_bytes env pdf_path ;;
     uploaded_file <- files_upload env (Path.stem pdf_path) data "ocr" ;;
     try_except
       (signed_url <- files_get_signed_url env (id uploaded_file) 1 ;;
        response <- ocr_process env (DocumentURLChunk signed_url) model include_images ;;
        ret (response, uploaded_file))
       (fun e =>
          (* [if uploaded_file:] holds, the object is not empty *)
          files_delete env (id uploaded_file) ;;
          raise e))
    (fun e => raise e).

(** The body of the inner loop of [extract_images_to_dir]: one entry of
    a page's [images], with the map and the count built so far. *)
Definition extract_image (image_dir : path) (acc : Py.dict * nat) (img : json)
  : M (Py.dict * nat) :=
  both <- lift (has_id_and_data img) ;;
  if both : bool then
    image_data <- lift (Py.getitem img "image_base64") ;;
    is_uri <- lift (py_startswith image_data "data:image/") ;;
    image_data <- lift (match image_data with
                        | JStr s => if is_uri : bool then after_first_comma s else Ok s
                        | _ => Raise AttributeError
                        end) ;;
    image_filename <- lift (Py.getitem img "id") ;;
    image_path <- lift (py_path_div image_dir image_filename) ;;
    open_wb env image_path ;;
    decoded <- lift (Base64.b64decode image_data) ;;
    file_write image_path decoded ;;
    image_map <- lift (Py.setitem (fst acc) image_filename image_filename) ;;
    ret (image_map, S (snd acc))
  else ret acc.

Fixpoint extract_image_list (image_dir : path) (acc : Py.dict * nat) (imgs : list json)
  : M (Py.dict * nat) :=
  match imgs with
  | [] => ret acc
  | img :: rest =>
      acc' <- extract_image image_dir acc img ;;
      extract_image_list image_dir acc' rest
  end.

Fixpoint extract_page_list (image_dir : path) (acc : Py.dict * nat) (pages : list json)
  : M (Py.dict * nat) :=
  match pages with
  | [] => ret acc
  | page :: rest =>
      images <- lift (Py.get page "images" (JList [])) ;;
      imgs <- lift (Py.iter images) ;;
      acc' <- extract_image_list image_dir acc imgs ;;
      extract_page_list image_dir acc' rest
  end.

(** [extract_images_to_dir]: the image map, and the count of images the
    function reports. *)
Definition extract_images_to_dir (response_dict : json) (output_dir : string)
  : M (Py.dict * nat) :=
  let image_dir := Path.of_string output_dir in
  try_except
    (pages <- lift (Py.get response_dict "pages" (JList [])) ;;
     page_list <- lift (Py.iter pages) ;;
     extract_page_list image_dir ([], 0) page_list)
    (fun e => raise e).

Local Open Scope result_scope.

(** The data URI of an image in inline mode: the body of the [if] of
    [create_inline_image_map]. *)
Definition inline_data (image_id image_data : json) : result json :=
  starts <- py_startswith image_data "data:" ;;
  if negb starts then
    has_dot <- Py.contains "." image_id ;;
    ext <- (if has_dot : bool then py_extension image_id else Ok "jpeg") ;;
    let mime_type := "image/" ++ ext in
    match image_data with
    | JStr s => Ok (JStr ("data:" ++ mime_type ++ ";base64," ++ s))
    | _ => Raise AttributeError
    end
  else Ok image_data.

Definition inline_image (image_map : Py.dict) (img : json) : result Py.dict :=
  both <- has_id_and_data img ;;
  if both : bool then
    image_id <- Py.getitem img "id" ;;
    image_data <- Py.getitem img "image_base64" ;;
    image_data <- inline_data image_id image_data ;;
    Py.setitem image_map image_id image_data
  else Ok image_map.

Fixpoint inline_image_list (image_map : Py.dict) (imgs : list json) : result Py.dict :=
  match imgs with
  | [] => Ok image_map
  | img :: rest =>
      image_map' <- inline_image image_map img ;;
      inline_image_list image_map' rest
  end.

Fixpoint inline_page_list (image_map : Py.dict) (pages : list json) : result Py.dict :=
  match pages with
  | [] => Ok image_map
  | page :: rest =>
      images <- Py.get page "images" (JList []) ;;
      imgs <- Py.iter images ;;
      image_map' <- inline_image_list image_map imgs ;;
      inline_page_list image_map' rest
  end.

(** [create_inline_image_map] *)
Definition create_inline_image_map (response_dict : json) : result Py.dict :=
  pages <- Py.get response_dict "pages" (JList []) ;;
  page_list <- Py.iter pages ;;
  inline_page_list [] page_list.

(** The list comprehension over the pages: the [markdown] field of each
    page, the empty string for a page without one. *)
Fixpoint page_fragments (pages : list json) : result (list json) :=
  match pages with
  | [] => Ok []
  | page :: rest =>
      fragment <- Py.get page "markdown" (JStr EmptyString) ;;
      fragments <- page_fragments rest ;;
      Ok (fragment :: fragments)
  end.

Definition markdown_contents (response_dict : json) : result (list json) :=
  pages <- Py.get response_dict "pages" (JList []) ;;
  page_list <- Py.iter pages ;;
  page_fragments page_list.

(** The items of a list that [str.join] accepts: strings only. *)
Fixpoint str_items (l : list json) : result (list string) :=
  match l with
  | [] => Ok []
  | JStr s :: rest => items <- str_items rest ;; Ok (s :: items)
  | _ :: _ => Raise TypeError
  end.

(** ["\n\n".join(markdown_contents)] *)
Definition blank_line : string := String Str.newline (Str.chr Str.newline).

Definition join_fragments (fragments : list json) : result string :=
  items <- str_items fragments ;;
  Ok (Str.join blank_line items).

(** The replacement template [r"![\1](" + img_src + r")"]. *)
Definition replacement (img_src : string) : string :=
  "![" ++ String Str.backslash "1" ++ "](" ++ img_src ++ ")".

(** One round of the loop over [image_map.items()]: [re.escape] and the
    concatenations want strings. *)
Definition substitute (markdown_text : string) (entry : json * json)
  : result string :=
  match entry with
  | (JStr img_id, JStr img_src) => Re.sub img_id (replacement img_src) markdown_text
  | (_, _) => Raise TypeError
  end.

Fixpoint substitute_all (markdown_text : string) (image_map : Py.dict)
  : result string :=
  match image_map with
  | [] => Ok markdown_text
  | entry :: rest =>
      markdown_text' <- substitute markdown_text entry ;;
      substitute_all markdown_text' rest
  end.

(** [generate_html_content] *)
Definition html_head : string :=
  "<!DOCTYPE html>
<html>
<head>
    <meta charset=" ++ Str.chr Str.dquote ++ "UTF-8" ++ Str.chr Str.dquote ++ ">
    <meta name=" ++ Str.chr Str.dquote ++ "viewport" ++ Str.chr Str.dquote
    ++ " content=" ++ Str.chr Str.dquote
    ++ "width=device-width, initial-scale=1.0" ++ Str.chr Str.dquote ++ ">
    <title>OCR Result</title>
    <style>
        body { 
            font-family: Arial, sans-serif;
            line-height: 1.6;
            margin: 0 auto;
            max-width: 800px;
            padding: 20px;
        }
        img { max-width: 100%; height: auto; }
        h1, h2, h3 { margin-top: 1.5em; }
        p { margin: 1em 0; }
    </style>
</head>
<body>
".

Definition html_foot : string :=
  "
</body>
</html>".

Definition generate_html_content (markdown_text : string) : string :=
  let html_content := md_convert markdown_text in
  html_head ++ html_content ++ html_foot.

(** [generate_output_content] *)
Definition generate_output_content (response_dict : json) (output_format : string)
           (image_map : Py.dict) : result string :=
  if String.eqb output_format "json" then Ok (JsonDump.dumps response_dict 4)
  else
    fragments <- markdown_contents response_dict ;;
    markdown_text <- join_fragments fragments ;;
    markdown_text <- substitute_all markdown_text image_map ;;
    if String.eqb output_format "html" then Ok (generate_html_content markdown_text)
    else Ok markdown_text.

Local Open Scope monad_scope.

(** [save_output] *)
Definition save_output (result_text output_format : string)
           (output_dir output_file : option string) : M unit :=
  if truthy output_dir then
    let output_path :=
      Path.div (Path.of_string (string_of output_dir))
               (if String.eqb output_format "html" then "index.html" else "README.md") in
    write_text env output_path result_text
  else if truthy output_file then
    write_text env (Path.of_string (string_of output_file)) result_text
  else echo result_text.

(** The options of the command line, as [click] hands them to [ocr_pdf]. *)
Record options : Type := {
  file_path : string;
  api_key : option string;
  output : option string;
  output_dir : option string;
  model : string;
  json_ : bool;
  html : bool;
  inline_images : bool;
  extract_images : bool
}.

Definition image_suffixes : list string := [".png"; ".jpg"; ".jpeg"].

(** The statements of the inner [try] of [ocr_pdf]. *)
Definition ocr_body (o : options) (output_format : string) (input_file : path)
  : M unit :=
  let is_image :=
    existsb (String.eqb (Str.lower (Path.suffix input_file))) image_suffixes in
  let include_images := inline_images o || extract_images o in
  response_dict <-
    (if is_image then
       response <- process_image input_file (model o) include_images ;;
       set_uploaded_file None ;;
       ret response
     else
       pair <- process_pdf input_file (model o) include_images ;;
       set_uploaded_file (Some (snd pair)) ;;
       ret (fst pair)) ;;
  (if truthy (output_dir o) then mkdir env (Path.of_string (string_of (output_dir o)))
   else ret tt) ;;
  image_map <-
    (if extract_images o && truthy (output_dir o) then
       r <- extract_images_to_dir response_dict (string_of (output_dir o)) ;;
       ret (fst r)
     else if inline_images o then lift (create_inline_image_map response_dict)
     else ret []) ;;
  result_text <- lift (generate_output_content response_dict output_format image_map) ;;
  save_output result_text output_format (output_dir o) (output o).

(** The [finally] block of [ocr_pdf]: the deletion of the uploaded file,
    whose failure is only a warning. *)
Definition cleanup : M unit :=
  try_except
    (uploaded_file <- get_uploaded_file ;;
     match uploaded_file with
     | Some u => files_delete env (id u)
     | None => ret tt
     end)
    (fun e => ret tt).

(** [ocr_pdf] *)
Definition ocr_pdf (o : options) : M unit :=
  try_except
    (lift (validate_options (api_key o) (output o) (output_dir o)
                            (json_ o) (extract_images o) (inline_images o)) ;;
     let output_format :=
       if json_ o then "json" else if html o then "html" else "markdown" in
     let input_file := Path.of_string (file_path o) in
     new_client (string_of (api_key o)) ;;
     set_uploaded_file None ;;
     try_finally
       (try_except
          (ocr_body o output_format input_file)
          (fun e => raise (ClickWrapped e)))
       cleanup)
    (fun e => raise e).

End Program.

(** ** Notions of the specification *)

Module Spec.

(** One of the five rules on the options of the command line is broken:
    credential present; not both [--output] and [--output-dir]; not
    JSON with [--output-dir]; not [--extract-images] without
    [--output-dir]; not both [--inline-images] and [--extract-images].
    An option given the empty string counts as not given. *)
Definition violates_rule (o : options) : bool :=
  negb (truthy (api_key o))
  || (truthy (output o) && truthy (output_dir o))
  || (json_ o && truthy (output_dir o))
  || (extract_images o && negb (truthy (output_dir o)))
  || (inline_images o && extract_images o).

Definition validation_messages : list string :=
  [ "No API key provided and MISTRAL_API_KEY environment variable not set.";
    "Cannot specify both --output and --output-dir";
    "JSON output is not supported with --output-dir";
    "--extract-images requires --output-dir";
    "Cannot specify both --inline-images and --extract-images" ].

(** An image entry lacks the identifier field or the embedded-data
    field. *)
Definition lacks_field (img : json) : Prop :=
  exists kvs, img = JDict kvs
              /\ (Py.lookup "id" kvs = None \/ Py.lookup "image_base64" kvs = None).

(** The image entries of a page, and of a response page by page. *)
Definition entries_of_page (page : json) : list json :=
  match page with
  | JDict kvs =>
      match Py.lookup "images" kvs with
      | Some (JList l) => l
      | _ => []
      end
  | _ => []
  end.

Definition pages_of (response : json) : list json :=
  match response with
  | JDict kvs =>
      match Py.lookup "pages" kvs with
      | Some (JList pages) => pages
      | _ => []
      end
  | _ => []
  end.

Definition entries_of (response : json) : list json :=
  flat_map entries_of_page (pages_of response).

(** An image with both an identifier and embedded data, both strings. *)
Definition complete (img : json) : option (string * string) :=
  match img with
  | JDict kvs =>
      match Py.lookup "id" kvs, Py.lookup "image_base64" kvs with
      | Some (JStr i), Some (JStr d) => Some (i, d)
      | _, _ => None
      end
  | _ => None
  end.

Fixpoint complete_images (entries : list json) : list (string * string) :=
  match entries with
  | [] => []
  | img :: rest =>
      match complete img with
      | Some x => x :: complete_images rest
      | None => complete_images rest
      end
  end.

(** A response shaped as the OCR schema has it, fields possibly missing:
    [pages] a list of objects, [images] a list of objects, and the
    identifier and the data of an image that has both are strings. *)
Definition entry_ok (img : json) : bool :=
  match img with
  | JDict kvs =>
      match Py.lookup "id" kvs, Py.lookup "image_base64" kvs with
      | Some (JStr _), Some (JStr _) => true
      | Some _, Some _ => false
      | _, _ => true
      end
  | _ => false
  end.

Definition page_ok (page : json) : bool :=
  match page with
  | JDict kvs =>
      match Py.lookup "images" kvs with
      | Some (JList l) => forallb entry_ok l
      | Some _ => false
      | None => true
      end
  | _ => false
  end.

Definition response_ok (response : json) : bool :=
  match response with
  | JDict kvs =>
      match Py.lookup "pages" kvs with
      | Some (JList pages) => forallb page_ok pages
      | Some _ => false
      | None => true
      end
  | _ => false
  end.

(** The text after the last dot of an identifier. *)
Definition after_last_dot (image_id : string) : option string :=
  match Str.rfind_dot image_id with
  | Some i => Some (Str.drop (S i) image_id)
  | None => None
  end.

(** The data URI of inline mode as the code builds it: data that starts
    with [data:] is kept; other data is prefixed with
    [data:image/<ext>;base64,], [<ext>] being the lower-cased text after
    the last dot of the identifier, or [jpeg] when it has no dot. *)
Definition data_uri (image_id image_data : string) : string :=
  if Str.startswith image_data "data:" then image_data
  else
    let ext := match after_last_dot image_id with
               | Some e => Str.lower e
               | None => "jpeg"
               end in
    "data:image/" ++ ext ++ ";base64," ++ image_data.

(** The data URI the specification asks for, given the extensions taken as
    recognised. *)
Definition claimed_data_uri (recognised : list string)
           (image_id image_data : string) : string :=
  if Str.startswith image_data "data:" then image_data
  else
    let mime := match after_last_dot image_id with
                | Some e =>
                    if existsb (String.eqb (Str.lower e)) recognised
                    then "image/" ++ Str.lower e
                    else "image/jpeg"
                | None => "image/jpeg"
                end in
    "data:" ++ mime ++ ";base64," ++ image_data.

(** The extensions taken as image types when the specification is read. *)
Definition recognised_extensions : list string :=
  ["png"; "jpg"; "jpeg"; "gif"; "webp"; "bmp"; "tif"; "tiff"; "svg"].

(** The dict built by assigning the bindings in order. *)
Definition assign (d : Py.dict) (kv : string * string) : Py.dict :=
  Py.set_item d (JStr (fst kv)) (JStr (snd kv)).

Definition dict_of (bindings : list (string * string)) : Py.dict :=
  fold_left assign bindings [].

(** The bindings of inline mode: each complete image with its data URI. *)
Definition inline_bindings (entries : list json) : list (string * string) :=
  map (fun kv => (fst kv, data_uri (fst kv) (snd kv))) (complete_images entries).

(** The last binding of a key. *)
Fixpoint last_binding (key : string) (bindings : list (string * string))
  : option string :=
  match bindings with
  | [] => None
  | (k, v) :: rest =>
      match last_binding key rest with
      | Some x => Some x
      | None => if String.eqb k key then Some v else None
      end
  end.

(** A boolean property holds of every number below [k]. *)
Definition below (k : nat) (f : N -> bool) : bool :=
  forallb (fun i => f (N.of_nat i)) (seq 0 k).

(** The calls of [st'] continue those of [st]. *)
Definition grows (st st' : state) : Prop :=
  exists more, trace st' = (trace st ++ more)%list.

(** A computation that only adds calls. *)
Definition monotone {A} (m : M A) : Prop := forall st, grows st (snd (m st)).

(** How many times the deletion of a remote file was invoked. *)
Definition is_delete (e : event) : bool :=
  match e with
  | FilesDelete _ => true
  | _ => false
  end.

Definition deletions (t : list event) : nat := length (filter is_delete t).

(** The input is of the image variant: its extension is [.png], [.jpg]
    or [.jpeg], in any case. *)
Definition image_variant (file_path : string) : bool :=
  existsb (String.eqb (Str.lower (Path.suffix (Path.of_string file_path))))
          [".png"; ".jpg"; ".jpeg"].

(** *** Extract mode *)

(** The embedded data as extract mode decodes it: data that starts with
    [data:image/] loses everything up to its first comma. *)
Definition payload (image_data : string) : option string :=
  if Str.startswith image_data "data:image/" then
    match after_first_comma image_data with
    | Ok x => Some x
    | Raise _ => None
    end
  else Some image_data.

Definition decoded (image_data : string) : option (list byte) :=
  match payload image_data with
  | Some s =>
      match Base64.b64decode s with
      | Ok b => Some b
      | Raise _ => None
      end
  | None => None
  end.

(** A plain file name: not empty, not a dot or two, without a slash. *)
Definition plain_name (s : string) : bool :=
  negb (String.eqb s EmptyString) && negb (String.eqb s ".") && negb (String.eqb s "..")
  && negb (Str.mem "/" s).

(** An image that extract mode can write: its identifier is a plain
    file name, the file can be opened in the directory, and its data
    can be decoded. *)
Definition extractable (env : environment) (image_dir : path)
           (kv : string * string) : Prop :=
  plain_name (fst kv) = true
  /\ env_open env (Path.div image_dir (fst kv)) = Ok tt
  /\ exists bytes, decoded (snd kv) = Some bytes.

(** The state after the file of an image has been written. *)
Definition written (image_dir : path) (st : state) (kv : string * string) : state :=
  let p := Path.div image_dir (fst kv) in
  let bytes := match decoded (snd kv) with Some b => b | None => [] end in
  {| fs := (p, Bytes bytes) :: (p, Bytes []) :: fs st;
     trace := trace st ++ [OpenWrite p; FileWrite p (Bytes bytes)];
     uploaded_file := uploaded_file st |}.

(** The bindings of extract mode: each identifier to itself. *)
Definition own_names (images : list (string * string)) : list (string * string) :=
  map (fun kv => (fst kv, fst kv)) images.

(** The Markdown fragment of a page: its [markdown] field, empty when
    the page has none. *)
Definition fragment_of (page : json) : string :=
  match page with
  | JDict kvs =>
      match Py.lookup "markdown" kvs with
      | Some (JStr s) => s
      | _ => EmptyString
      end
  | _ => EmptyString
  end.

(** A response whose pages, if any, are objects whose [markdown] field,
    if any, is a string. *)
Definition page_has_text (page : json) : bool :=
  match page with
  | JDict kvs =>
      match Py.lookup "markdown" kvs with
      | Some (JStr _) | None => true
      | Some _ => false
      end
  | _ => false
  end.

Definition pages_have_text (response : json) : bool :=
  match response with
  | JDict kvs =>
      match Py.lookup "pages" kvs with
      | Some (JList pages) => forallb page_has_text pages
      | Some _ => false
      | None => true
      end
  | _ => false
  end.

(** The pages' fragments in page order, separated by a blank line. *)
Definition joined_fragments (response : json) : string :=
  Str.join blank_line (map fragment_of (pages_of response)).

(** *** Markdown with image links *)

(** An image link [![alt](target)]. *)
Record image_link : Type := { alt : string; target : string }.

(** A Markdown text seen as its image links and the text around them:
    a leading text, then each link with the text that follows it. *)
Definition markdown : Type := (string * list (image_link * string))%type.

Definition render_link (l : image_link) : string :=
  "![" ++ alt l ++ "](" ++ target l ++ ")".

Fixpoint render_items (items : list (image_link * string)) : string :=
  match items with
  | [] => EmptyString
  | (l, t) :: rest => render_link l ++ t ++ render_items rest
  end.

Definition render (d : markdown) : string := fst d ++ render_items (snd d).

(** The reference of a target in an image map given by its items: the
    value bound to the target, or the target itself. *)
Fixpoint resolve (m : list (string * string)) (t : string) : string :=
  match m with
  | [] => t
  | (k, v) :: rest => if String.eqb k t then v else resolve rest t
  end.

Definition retarget (f : string -> string) (d : markdown) : markdown :=
  (fst d,
   map (fun lt => ({| alt := alt (fst lt); target := f (target (fst lt)) |}, snd lt))
       (snd d)).

(** Not holding the two characters that close an alt text. *)
Definition no_close (s : string) : bool := negb (Str.contains "](" s).

Definition single_line (s : string) : bool := negb (Str.mem Str.newline s).

Definition no_paren (s : string) : bool := negb (Str.mem ")" s).

Definition no_backslash (s : string) : bool := negb (Str.mem Str.backslash s).

(** The links the substitution is meant for: an alt text on one line,
    no [](] inside the alt text or the target, no closing parenthesis
    inside the target; and no [](] in the text between the links. *)
Definition link_ok (l : image_link) : bool :=
  single_line (alt l) && no_close (alt l)
  && no_close (target l) && no_paren (target l).

Definition markdown_ok (d : markdown) : bool :=
  no_close (fst d)
  && forallb (fun lt => link_ok (fst lt) && no_close (snd lt)) (snd d).

(** The image maps the substitution is meant for: identifiers without a
    closing parenthesis; references without a backslash, a [](] or a
    closing parenthesis; and no reference that is an identifier further
    on in the map. *)
Definition entry_fits (kv : string * string) : bool :=
  no_paren (fst kv)
  && no_backslash (snd kv) && no_close (snd kv) && no_paren (snd kv).

Fixpoint chain_free (m : list (string * string)) : bool :=
  match m with
  | [] => true
  | (k, v) :: rest =>
      negb (existsb (fun kv => String.eqb (fst kv) v) rest) && chain_free rest
  end.

Definition map_ok (m : list (string * string)) : bool :=
  forallb entry_fits m && chain_free m.

(** One entry of the map applied to a target, and the entries applied
    one after the other. *)
Definition redirect (img_id img_src t : string) : string :=
  if String.eqb img_id t then img_src else t.

Definition resolve_in_turn (m : list (string * string)) (t : string) : string :=
  fold_left (fun t kv => redirect (fst kv) (snd kv) t) m t.

Definition starts_paren (s : string) : bool :=
  match s with
  | String c _ => Ascii.eqb c "("
  | EmptyString => false
  end.

(** The items of a dict of strings. *)
Definition items_of (m : list (string * string)) : Py.dict :=
  map (fun kv => (JStr (fst kv), JStr (snd kv))) m.

(** *** One pass over the text

    The substitution for one identifier read as a machine that sees one
    character at a time: it is [Idle], or has just read an exclamation
    mark ([Bang]), or is [Armed], an opening [![] having been read on
    the current line; when armed and in front of the closing
    [](img_id)], it writes the new closing and passes over the old. *)
Inductive mode : Type := Idle | Bang | Armed.

Fixpoint scan (tail new_tail : string) (skip : nat) (m : mode) (s : string)
  : string :=
  match s with
  | EmptyString => EmptyString
  | String c s' =>
      match skip with
      | S k => scan tail new_tail k m s'
      | O =>
          match m with
          | Armed =>
              if Str.startswith s tail
              then new_tail ++ scan tail new_tail (String.length tail - 1) Idle s'
              else String c (scan tail new_tail 0
                                  (if Ascii.eqb c Str.newline then Idle else Armed) s')
          | Bang =>
              String c (scan tail new_tail 0
                             (if Ascii.eqb c "[" then Armed
                              else if Ascii.eqb c "!" then Bang else Idle) s')
          | Idle =>
              String c (scan tail new_tail 0
                             (if Ascii.eqb c "!" then Bang else Idle) s')
          end
      end
  end.

End Spec.

(** ** Sample inputs *)

Module Sample.

Definition json_to_directory : options :=
{| file_path := "scan.pdf"; api_key := Some "key"; output := None;
   output_dir := Some "out"; model := "mistral-ocr-latest";
   json_ := true; html := false; inline_images := false;
   extract_images := false |}.

Definition quiet_environment : environment :=
{| env_read_bytes := fun _ => Ok [];
   env_upload := fun _ _ => Ok {| id := "file-1" |};
   env_signed_url := fun _ => Ok "https://signed";
   env_ocr := fun _ _ _ => Ok (JDict []);
   env_delete := fun _ => Ok tt;
   env_mkdir := fun _ => Ok tt;
   env_open := fun _ => Ok tt |}.

Definition image_without_data : json := JDict [("id", JStr "img-1.jpeg")].

(** The scenario of the specification: one page, one image. *)
Definition titled_page : json :=
  JDict [("pages",
          JList [JDict [("index", JInt 0);
                        ("markdown",
                         JStr ("# Title" ++ blank_line ++ "![a](img-1.jpeg)"));
                        ("images",
                         JList [JDict [("id", JStr "img-1.jpeg");
                                       ("image_base64", JStr "QUJD")]])]])].

Definition odd_extension : json :=
  JDict [("pages",
          JList [JDict [("markdown", JStr "![a](scan.xyz)");
                        ("images",
                         JList [JDict [("id", JStr "scan.xyz");
                                       ("image_base64", JStr "QUJD")]])]])].

(** A service on which the OCR call fails after the upload, and the
    deletion of the uploaded file fails too. *)
Definition failing_cleanup : environment :=
  {| env_read_bytes := fun _ => Ok [x25; x50; x44; x46];
     env_upload := fun _ _ => Ok {| id := "file-1" |};
     env_signed_url := fun _ => Ok "https://signed";
     env_ocr := fun _ _ _ => Raise (SDKError "ocr failed");
     env_delete := fun _ => Raise (SDKError "delete failed");
     env_mkdir := fun _ => Ok tt;
     env_open := fun _ => Ok tt |}.

Definition markdown_to_stdout : options :=
  {| file_path := "scan.pdf"; api_key := Some "key"; output := None;
     output_dir := None; model := "mistral-ocr-latest";
     json_ := false; html := false; inline_images := false;
     extract_images := false |}.

Definition png_to_stdout : options :=
  {| file_path := "photos/page.PNG"; api_key := Some "key"; output := None;
     output_dir := None; model := "mistral-ocr-latest";
     json_ := false; html := false; inline_images := false;
     extract_images := false |}.

Definition one_png : environment :=
  {| env_read_bytes := fun _ => Ok [x89; x50; x4e; x47];
     env_upload := fun _ _ => Ok {| id := "file-1" |};
     env_signed_url := fun _ => Ok "https://signed";
     env_ocr := fun _ _ _ => Ok titled_page;
     env_delete := fun _ => Ok tt;
     env_mkdir := fun _ => Ok tt;
     env_open := fun _ => Ok tt |}.

(** Embedded data broken into lines, as MIME encoders emit it. *)
Definition wrapped_data : json :=
  JDict [("pages",
          JList [JDict [("markdown", JStr "![a](img-1.jpeg)");
                        ("images",
                         JList [JDict [("id", JStr "img-1.jpeg");
                                       ("image_base64",
                                        JStr ("QUJD" ++ Str.chr Str.newline))]])]])].

(** Embedded data that is a data URI of another media type. *)
Definition octet_stream_data : json :=
  JDict [("pages",
          JList [JDict [("markdown", JStr "![a](img-1.jpeg)");
                        ("images",
                         JList [JDict [("id", JStr "img-1.jpeg");
                                       ("image_base64",
                                        JStr "data:application/octet-stream;base64,QUJD")]])]])].

(** The image map of the scenario in inline mode. *)
Definition titled_page_inline : list (string * string) :=
  [("img-1.jpeg", "data:image/jpeg;base64,QUJD")].

Definition titled_page_markdown : Spec.markdown :=
  ("# Title" ++ blank_line,
   [({| Spec.alt := "a"; Spec.target := "img-1.jpeg" |}, EmptyString)]).

(** One page holding one link, and the text seen as that link. *)
Definition one_link (alt target : string) : json :=
  JDict [("pages",
          JList [JDict [("markdown", JStr ("![" ++ alt ++ "](" ++ target ++ ")"))]])].

Definition one_link_markdown (alt target : string) : Spec.markdown :=
  (EmptyString, [({| Spec.alt := alt; Spec.target := target |}, EmptyString)]).

(** A map in which the reference of one entry is the identifier of the
    next. *)
Definition chained : list (string * string) :=
  [("a.png", "b.png"); ("b.png", "c.png")].

(** A reference that holds backslashes. *)
Definition windows_path : list (string * string) :=
  [("a.png",
    "C:" ++ Str.chr Str.backslash ++ "temp" ++ Str.chr Str.backslash ++ "x.png")].

Definition two_lines : string := "a" ++ Str.chr Str.newline ++ "b".

(** A response without pages, and one whose second page has no text. *)
Definition no_pages : json := JDict [("model", JStr "mistral-ocr-latest")].

Definition page_without_text : json :=
  JDict [("pages",
          JList [JDict [("index", JInt 0); ("markdown", JStr "one")];
                 JDict [("index", JInt 1)];
                 JDict [("index", JInt 2); ("markdown", JStr "three")]])].

End Sample.

(** ** The web front end: [src/mistral_ocr/web.py] *)

Module Web.

(** [c.isspace()] on the code points 0..255 *)
Definition isspace (c : ascii) : bool :=
let n := nat_of_ascii c in
(((9 <=? n) && (n <=? 13)) || ((28 <=? n) && (n <=? 32))
 || (n =? 133) || (n =? 160))%nat.

(** [s.lstrip()] *)
Fixpoint lstrip (s : string) : string :=
match s with
| EmptyString => EmptyString
| String c s' => if isspace c then lstrip s' else s
end.

(** [s.rstrip()] *)
Fixpoint rstrip (s : string) : string :=
match s with
| EmptyString => EmptyString
| String c s' =>
    match rstrip s' with
    | EmptyString => if isspace c then EmptyString else Str.chr c
    | rest => String c rest
    end
end.

(** [s.strip()] *)
Definition strip (s : string) : string := rstrip (lstrip s).

(** What [process_file] returns to the page: a text, or the text
  [f"Error: {str(e)}"] made from a caught exception. *)
Inductive shown : Type :=
| Shown (text : string)
| ShownError (e : exn).

(** The argument [file_obj] of [process_file]: [None]; an object whose
  attribute [name] is the path of the uploaded file; or a plain [str],
  which has no attribute [name]. *)
Inductive file_arg : Type :=
| NoFile
| NamedFile (name : string)
| PathString (s : string).

Definition unsupported (file_ext : string) : string :=
"Error: Unsupported file format: " ++ file_ext
  ++ ". Please upload a PDF or image file (PNG, JPG, JPEG).".

Section ProcessFile.

Variable env : environment.
Variable md_convert : string -> string.

(** [p.exists()] and [p.stat()] on the local file system.  They are
answered by the environment of the front end and leave no call in the
trace. *)
Variable path_exists : path -> bool.
Variable path_stat : path -> result unit.

Local Open Scope monad_scope.

(** The inner [try] of [process_file]: the output is generated with an
empty image map, and the uploaded file, if any, is deleted on the way
out. *)
Definition respond (response_dict : json) (output_format : string)
       (uploaded_file : option uploaded) : M shown :=
try_finally
(result_text <- lift (generate_output_content md_convert response_dict
                                              output_format []) ;;
 ret (Shown result_text))
(match uploaded_file with
 | Some u => files_delete env (id u)
 | None => ret tt
 end).

(** [process_file] *)
Definition process_file (file_obj : file_arg) (api_key : option string)
       (output_format : string) (include_images : bool) : M shown :=
try_except
(if negb (truthy api_key) || String.eqb (strip (string_of api_key)) EmptyString
 then ret (Shown "Error: Please provide a valid Mistral API key")
 else
   let api_key := strip (string_of api_key) in
   new_client api_key ;;
   name <- lift (match file_obj with
                 | NamedFile n => Ok n
                 | NoFile | PathString _ => Raise AttributeError
                 end) ;;
   let temp_path := Path.of_string name in
   if negb (path_exists temp_path)
   then ret (Shown "Error: File not found or not accessible")
   else
     let file_ext := Str.lower (Path.suffix temp_path) in
     lift (path_stat temp_path) ;;
     if existsb (String.eqb file_ext) image_suffixes then
       response <- process_image env temp_path "mistral-ocr-latest" include_images ;;
       respond response output_format None
     else if String.eqb file_ext ".pdf" then
       pair <- process_pdf env temp_path "mistral-ocr-latest" include_images ;;
       respond (fst pair) output_format (Some (snd pair))
     else ret (Shown (unsupported file_ext)))
(fun e => ret (ShownError e)).

End ProcessFile.

End Web.

Module MoreSamples.

Definition json_to_stdout : options :=
{| file_path := "scan.pdf"; api_key := Some "key"; output := None;
   output_dir := None; model := "mistral-ocr-latest";
   json_ := true; html := false; inline_images := false;
   extract_images := false |}.

(** A page that holds the same image twice. *)
Definition same_image_twice : json :=
JDict [("pages",
        JList [JDict [("markdown", JStr "![a](img-1.jpeg)");
                      ("images",
                       JList [JDict [("id", JStr "img-1.jpeg");
                                     ("image_base64", JStr "QUJD")];
                              JDict [("id", JStr "img-1.jpeg");
                                     ("image_base64", JStr "QUJD")]])]])].

(** Two pages, three images; the data of the second one is one
  character, which no base64 text can be. *)
Definition second_image_broken : json :=
JDict [("pages",
        JList [JDict [("images",
                       JList [JDict [("id", JStr "img-1.jpeg");
                                     ("image_base64", JStr "QUJD")];
                              JDict [("id", JStr "img-2.jpeg");
                                     ("image_base64", JStr "A")]])];
               JDict [("images",
                       JList [JDict [("id", JStr "img-3.jpeg");
                                     ("image_base64", JStr "QUJD")]])]])].

(** A service that answers, but refuses to delete a file. *)
Definition failing_delete : environment :=
{| env_read_bytes := fun _ => Ok [x25; x50; x44; x46];
   env_upload := fun _ _ => Ok {| id := "file-1" |};
   env_signed_url := fun _ => Ok "https://signed";
   env_ocr := fun _ _ _ => Ok Sample.titled_page;
   env_delete := fun _ => Raise (SDKError "delete failed");
   env_mkdir := fun _ => Ok tt;
   env_open := fun _ => Ok tt |}.

(** A service that answers every document with the titled page. *)
Definition images_for_all : environment :=
{| env_read_bytes := fun _ => Ok [x25; x50; x44; x46];
   env_upload := fun _ _ => Ok {| id := "file-1" |};
   env_signed_url := fun _ => Ok "https://signed";
   env_ocr := fun _ _ _ => Ok Sample.titled_page;
   env_delete := fun _ => Ok tt;
   env_mkdir := fun _ => Ok tt;
   env_open := fun _ => Ok tt |}.

Definition extract_to_directory : options :=
{| file_path := "scan.pdf"; api_key := Some "key"; output := None;
   output_dir := Some "out"; model := "mistral-ocr-latest";
   json_ := false; html := false; inline_images := false;
   extract_images := true |}.

End MoreSamples.

(** ** More notions for the properties *)

Module Props.

(** The deletions of remote files among the calls made. *)
Definition deleted (st : state) : list event := filter Spec.is_delete (trace st).

(** A computation that deletes no remote file and leaves the variable
  [uploaded_file] alone. *)
Definition calm {A} (m : M A) : Prop :=
forall st,
  deleted (snd (m st)) = deleted st
  /\ uploaded_file (snd (m st)) = uploaded_file st.

(** The file a run of [process_pdf] uploads, when reading and uploading
  succeed. *)
Definition upload_of (env : environment) (pdf_path : path) : option uploaded :=
match env_read_bytes env pdf_path with
| Ok data =>
    match env_upload env (Path.stem pdf_path) data with
    | Ok u => Some u
    | Raise _ => None
    end
| Raise _ => None
end.

(** The file a run of [ocr_pdf] uploads: none when the options are
  refused or the input is an image. *)
Definition uploaded_by (env : environment) (o : options) : option uploaded :=
if Spec.violates_rule o || Spec.image_variant (file_path o) then None
else upload_of env (Path.of_string (file_path o)).

Definition deletion_of (u : option uploaded) : list event :=
match u with
| Some x => [FilesDelete (id x)]
| None => []
end.

(** The options with another value of [--html]. *)
Definition with_html (b : bool) (o : options) : options :=
{| file_path := file_path o; api_key := api_key o; output := output o;
   output_dir := output_dir o; model := model o; json_ := json_ o;
   html := b; inline_images := inline_images o;
   extract_images := extract_images o |}.

(** An entry of an image map that binds a string to itself, as extract
  mode makes them. *)
Definition own_name (kv : json * json) : bool :=
match kv with
| (JStr k, JStr v) => String.eqb k v
| (_, _) => false
end.

(** An entry of an image map whose key and reference are strings, the
  reference without a backslash. *)
Definition plain_entry (kv : json * json) : bool :=
match kv with
| (JStr _, JStr v) => Spec.no_backslash v
| (_, _) => false
end.

(** The key of the entry closes no link of the text: [](key)] does not
  occur in it. *)
Definition unreferenced (text : string) (kv : json * json) : bool :=
match fst kv with
| JStr k => negb (Str.contains (Re.link_tail k) text)
| _ => false
end.

(** A text of white space only, the empty text included. *)
Definition blank (s : string) : bool :=
forallb Web.isspace (list_ascii_of_string s).

(** No usable key: none at all, or a blank one. *)
Definition no_key (api_key : option string) : bool :=
match api_key with
| Some s => blank s
| None => true
end.

(** The state after the client has been constructed. *)
Definition with_client (api_key : string) (st : state) : state :=
{| fs := fs st; trace := trace st ++ [NewClient api_key];
   uploaded_file := uploaded_file st |}.

(** The file a call of [process_file] uploads: the PDF, when there is a
  key, the file is there, and reading and uploading succeed. *)
Definition web_upload (env : environment) (path_exists : path -> bool)
         (path_stat : path -> result unit)
         (file_obj : Web.file_arg) (api_key : option string) : option uploaded :=
match file_obj with
| Web.NamedFile name =>
    let temp_path := Path.of_string name in
    if negb (no_key api_key) && path_exists temp_path
       && match path_stat temp_path with Ok _ => true | Raise _ => false end
       && String.eqb (Str.lower (Path.suffix temp_path)) ".pdf"
    then upload_of env temp_path
    else None
| Web.NoFile | Web.PathString _ => None
end.

(** No string occurs twice in the list. *)
Fixpoint distinct (l : list string) : bool :=
match l with
| [] => true
| x :: rest => negb (existsb (String.eqb x) rest) && distinct rest
end.

(** A value of an image map that is a string starting with [data:]. *)
Definition is_data_uri (v : json) : bool :=
match v with
| JStr s => Str.startswith s "data:"
| _ => false
end.

End Props.

(** * Properties *)

Unset Implicit Arguments.

(** ** Steps of the monad *)

Lemma bind_ok {A B} (m : M A) (k : A -> M B) st a st' :
  m st = (Ok a, st') -> bind m k st = k a st'.
Proof. intros H; unfold bind; now rewrite H. Qed.

Lemma bind_raise {A B} (m : M A) (k : A -> M B) st e st' :
  m st = (Raise e, st') -> bind m k st = (Raise e, st').
Proof. intros H; unfold bind; now rewrite H. Qed.

Lemma bind_lift {A B} (r : result A) (k : A -> M B) st :
  bind (lift r) k st = match r with Ok a => k a st | Raise e => (Raise e, st) end.
Proof. unfold bind, lift; now destruct r. Qed.

Lemma reraise {A} (m : M A) st : try_except m (fun e => raise e) st = m st.
Proof. unfold try_except, raise; destruct (m st) as [[a | e] st']; reflexivity. Qed.

(** ** Validation of the options (C5) *)

Lemma validate_options_rejects o :
  Spec.violates_rule o = true ->
  exists msg,
    In msg Spec.validation_messages
    /\ validate_options (api_key o) (output o) (output_dir o)
                        (json_ o) (extract_images o) (inline_images o)
       = Raise (ClickException msg).
Proof.
  unfold Spec.violates_rule, validate_options, Spec.validation_messages.
  destruct (truthy (api_key o)), (truthy (output o)), (truthy (output_dir o)),
    (json_ o), (extract_images o), (inline_images o); simpl; intros H;
    try discriminate H; eexists; (split; [| reflexivity]); simpl; tauto.
Qed.

Lemma validate_options_accepts o :
  Spec.violates_rule o = false ->
  validate_options (api_key o) (output o) (output_dir o)
                   (json_ o) (extract_images o) (inline_images o) = Ok tt.
Proof.
  unfold Spec.violates_rule, validate_options.
  destruct (truthy (api_key o)), (truthy (output o)), (truthy (output_dir o)),
    (json_ o), (extract_images o), (inline_images o); simpl; intros H;
    try discriminate H; reflexivity.
Qed.

(** C5.  Whatever the environment and the state, options that break one of
    the five rules make [ocr_pdf] raise a [ClickException] carrying one of
    the five messages while the state is left as it was: no client has
    been constructed, no call has been made to the service, nothing has
    been read or written.  Options given [--json] together with
    [--output-dir] (and a credential, and no [--output]) get the message of
    the third rule.  Options that break no rule pass the validation. *)
Theorem validation_precedes_effects env md_convert (o : options) (st : state) :
  Spec.violates_rule o = true ->
  (exists msg,
      In msg Spec.validation_messages
      /\ ocr_pdf env md_convert o st = (Raise (ClickException msg), st))
  /\ (truthy (api_key o) = true -> truthy (output o) = false ->
      json_ o = true -> truthy (output_dir o) = true ->
      ocr_pdf env md_convert o st
      = (Raise (ClickException "JSON output is not supported with --output-dir"), st)).
Proof.
  intros Hv; split.
  - destruct (validate_options_rejects o Hv) as (msg & Hin & Hmsg).
    exists msg; split; [exact Hin |].
    unfold ocr_pdf. rewrite reraise, bind_lift, Hmsg. reflexivity.
  - intros Hk Ho Hj Hd.
    unfold ocr_pdf. rewrite reraise, bind_lift.
    unfold validate_options. rewrite Hk, Ho, Hj, Hd. reflexivity.
Qed.

Lemma validation_precedes_effects_witness :
  ocr_pdf Sample.quiet_environment (fun s => s) Sample.json_to_directory initial
  = (Raise (ClickException "JSON output is not supported with --output-dir"), initial).
Proof.
  apply (validation_precedes_effects Sample.quiet_environment (fun s => s)
           Sample.json_to_directory initial); reflexivity.
Defined.

(** ** JSON output (C7) *)


(** ** Image entries without identifier or data (C8) *)

Lemma lacks_field_test img :
  Spec.lacks_field img -> has_id_and_data img = Ok false.
Proof.
  intros (kvs & -> & [H | H]); unfold has_id_and_data; simpl; rewrite H; simpl.
  - reflexivity.
  - now destruct (Py.lookup "id" kvs).
Qed.

Lemma inline_image_skips img image_map :
  Spec.lacks_field img -> inline_image image_map img = Ok image_map.
Proof.
  intros H; unfold inline_image. now rewrite (lacks_field_test img H).
Qed.

Lemma extract_image_skips env img image_dir acc st :
  Spec.lacks_field img -> extract_image env image_dir acc img st = (Ok acc, st).
Proof.
  intros H; unfold extract_image. rewrite bind_lift, (lacks_field_test img H).
  reflexivity.
Qed.

(** C8.  An image entry that lacks the identifier field or the
    embedded-data field is skipped by both modes: the loop body returns the
    map (and the count) it was given, it writes nothing and makes no call
    (the state is unchanged), and it raises nothing; a list of entries is
    processed as if the entry were not there. *)
Theorem incomplete_image_is_skipped env (img : json) :
  Spec.lacks_field img ->
  (forall image_map, inline_image image_map img = Ok image_map)
  /\ (forall image_dir acc st,
         extract_image env image_dir acc img st = (Ok acc, st))
  /\ (forall image_map before after,
         inline_image_list image_map (before ++ img :: after)
         = inline_image_list image_map (before ++ after))
  /\ (forall image_dir before after acc st,
         extract_image_list env image_dir acc (before ++ img :: after) st
         = extract_image_list env image_dir acc (before ++ after) st).
Proof.
  intros H; split; [| split; [| split]].
  - intros; now apply inline_image_skips.
  - intros; now apply extract_image_skips.
  - intros image_map before after; revert image_map.
    induction before as [| x before IH]; intros image_map; simpl.
    + now rewrite (inline_image_skips img image_map H).
    + destruct (inline_image image_map x); simpl; [apply IH | reflexivity].
  - intros image_dir before after.
    induction before as [| x before IH]; intros acc st; simpl.
    + unfold bind. now rewrite (extract_image_skips env img image_dir acc st H).
    + unfold bind.
      destruct (extract_image env image_dir acc x st) as [[acc' | e] st'];
        [apply IH | reflexivity].
Qed.

Lemma incomplete_image_is_skipped_witness :
  inline_image [] Sample.image_without_data = Ok []
  /\ extract_image Sample.quiet_environment (Path.of_string "out") ([], 0)
                   Sample.image_without_data initial
     = (Ok ([], 0), initial).
Proof.
  assert (H : Spec.lacks_field Sample.image_without_data).
  { exists [("id", JStr "img-1.jpeg")]. split; [reflexivity | right; reflexivity]. }
  destruct (incomplete_image_is_skipped Sample.quiet_environment _ H) as (H1 & H2 & _).
  split; [apply H1 | apply H2].
Defined.

(** ** Purity of the inline map (C9) *)

Lemma inline_data_fixed image_id image_data u :
  inline_data image_id image_data = Ok u -> inline_data image_id u = Ok u.
Proof.
  unfold inline_data.
  destruct image_data as [| | | s | |]; cbn [py_startswith rbind]; try discriminate.
  destruct (Str.startswith s "data:") eqn:Hs; cbn [negb].
  - intros [= <-]. cbn [py_startswith rbind]. now rewrite Hs.
  - destruct (Py.contains "." image_id) as [b | e]; cbn [rbind]; [| discriminate].
    destruct (if b then py_extension image_id else Ok "jpeg") as [ext | e];
      cbn [rbind]; [| discriminate].
    intros [= <-]. reflexivity.
Qed.


(** ** The extension of an identifier *)

Lemma rfind_dot_from_shift s : forall i found,
  Str.rfind_dot_from i s found
  = match Str.rfind_dot_from 0 s None with
    | Some j => Some (i + j)
    | None => found
    end.
Proof.
  induction s as [| c s IH]; intros i found; simpl.
  - reflexivity.
  - rewrite (IH (S i)), (IH 1).
    destruct (Str.rfind_dot_from 0 s None) as [j |].
    + f_equal. lia.
    + destruct (Ascii.eqb c "."); [f_equal; lia | reflexivity].
Qed.

Lemma rfind_dot_cons c s :
  Str.rfind_dot (String c s)
  = match Str.rfind_dot s with
    | Some j => Some (S j)
    | None => if Ascii.eqb c "." then Some 0 else None
    end.
Proof.
  unfold Str.rfind_dot; simpl. rewrite rfind_dot_from_shift.
  now destruct (Str.rfind_dot_from 0 s None).
Qed.

(** Splitting at the dots: without a dot the string is the only piece, and
    with one the last piece is what follows the last dot. *)
Lemma split_dot_last s :
  match Str.rfind_dot s with
  | None => Str.split "." s = [s]
  | Some j =>
      exists x y ys, Str.split "." s = x :: y :: ys
                     /\ last (y :: ys) EmptyString = Str.drop (S j) s
  end.
Proof.
  induction s as [| c s IH].
  - reflexivity.
  - rewrite rfind_dot_cons. simpl Str.split.
    destruct (Str.rfind_dot s) as [j |].
    + destruct IH as (x & y & ys & Hs & Hl). rewrite Hs.
      destruct (Ascii.eqb c ".").
      * exists EmptyString, x, (y :: ys). split; [reflexivity | exact Hl].
      * exists (String c x), y, ys. split; [reflexivity | exact Hl].
    + rewrite IH. destruct (Ascii.eqb c ".").
      * exists EmptyString, s, []. split; reflexivity.
      * reflexivity.
Qed.

Lemma last_item_split_dot s :
  Str.last_item (Str.split "." s)
  = match Str.rfind_dot s with
    | Some j => Str.drop (S j) s
    | None => s
    end.
Proof.
  pose proof (split_dot_last s) as H. unfold Str.last_item.
  destruct (Str.rfind_dot s) as [j |].
  - destruct H as (x & y & ys & -> & Hl). exact Hl.
  - now rewrite H.
Qed.

Lemma contains_dot s :
  Str.contains "." s = match Str.rfind_dot s with Some _ => true | None => false end.
Proof.
  induction s as [| c s IH].
  - reflexivity.
  - rewrite rfind_dot_cons. cbn [Str.contains Str.startswith].
    rewrite (Ascii.eqb_sym "." c).
    destruct (Ascii.eqb c "."); cbn [andb].
    + now destruct (Str.rfind_dot s).
    + fold (Str.contains "." s). rewrite IH. now destruct (Str.rfind_dot s).
Qed.

(** ** The inline image map (C4) *)

Lemma inline_data_strings image_id image_data :
  inline_data (JStr image_id) (JStr image_data)
  = Ok (JStr (Spec.data_uri image_id image_data)).
Proof.
  unfold inline_data, Spec.data_uri, Spec.after_last_dot.
  cbn [py_startswith rbind].
  destruct (Str.startswith image_data "data:"); cbn [negb]; [reflexivity |].
  cbn [Py.contains rbind py_extension].
  rewrite contains_dot, last_item_split_dot.
  destruct (Str.rfind_dot image_id); reflexivity.
Qed.

Lemma inline_image_entry image_map img :
  Spec.entry_ok img = true ->
  inline_image image_map img
  = Ok match Spec.complete img with
       | Some (i, d) => Py.set_item image_map (JStr i) (JStr (Spec.data_uri i d))
       | None => image_map
       end.
Proof.
  destruct img as [| | | | | kvs]; try discriminate.
  unfold Spec.entry_ok, Spec.complete, inline_image, has_id_and_data; simpl.
  destruct (Py.lookup "id" kvs) as [i |]; simpl; [| reflexivity].
  destruct (Py.lookup "image_base64" kvs) as [d |]; simpl; [| now destruct i].
  destruct i; try discriminate; destruct d; try discriminate.
  intros _. rewrite inline_data_strings. reflexivity.
Qed.

Lemma inline_image_list_entries entries : forall image_map,
  forallb Spec.entry_ok entries = true ->
  inline_image_list image_map entries
  = Ok (fold_left Spec.assign (Spec.inline_bindings entries) image_map).
Proof.
  induction entries as [| img rest IH]; intros image_map H; simpl.
  - reflexivity.
  - simpl in H. apply andb_prop in H as [H1 H2].
    rewrite (inline_image_entry image_map img H1). simpl.
    rewrite (IH _ H2). unfold Spec.inline_bindings. simpl.
    destruct (Spec.complete img) as [[i d] |]; reflexivity.
Qed.

Lemma bindings_of_app a b :
  Spec.inline_bindings (a ++ b) = (Spec.inline_bindings a ++ Spec.inline_bindings b)%list.
Proof.
  unfold Spec.inline_bindings. rewrite <- map_app. f_equal.
  induction a as [| x a IH]; simpl; [reflexivity |].
  destruct (Spec.complete x); simpl; now rewrite IH.
Qed.

Lemma page_images page :
  Spec.page_ok page = true ->
  (images <- Py.get page "images" (JList []) ;; Py.iter images)%result
  = Ok (Spec.entries_of_page page)
  /\ forallb Spec.entry_ok (Spec.entries_of_page page) = true.
Proof.
  destruct page as [| | | | | kvs]; try discriminate.
  unfold Spec.page_ok, Spec.entries_of_page, Py.get.
  destruct (Py.lookup "images" kvs) as [v |]; simpl.
  - destruct v; try discriminate. intros H; split; [reflexivity | exact H].
  - intros _; split; reflexivity.
Qed.

Lemma inline_page_list_entries pages : forall image_map,
  forallb Spec.page_ok pages = true ->
  inline_page_list image_map pages
  = Ok (fold_left Spec.assign (Spec.inline_bindings (flat_map Spec.entries_of_page pages)) image_map).
Proof.
  induction pages as [| page rest IH]; intros image_map H; simpl.
  - reflexivity.
  - simpl in H. apply andb_prop in H as [H1 H2].
    destruct (page_images page H1) as [Hp He].
    unfold rbind in Hp |- *.
    destruct (Py.get page "images" (JList [])) as [images |]; [| discriminate].
    rewrite Hp, (inline_image_list_entries _ _ He), (IH _ H2).
    now rewrite bindings_of_app, fold_left_app.
Qed.

Lemma response_pages response :
  Spec.response_ok response = true ->
  (pages <- Py.get response "pages" (JList []) ;; Py.iter pages)%result
  = Ok (Spec.pages_of response)
  /\ forallb Spec.page_ok (Spec.pages_of response) = true.
Proof.
  destruct response as [| | | | | kvs]; try discriminate.
  unfold Spec.response_ok, Spec.pages_of, Py.get.
  destruct (Py.lookup "pages" kvs) as [v |]; simpl.
  - destruct v; try discriminate. intros H; split; [reflexivity | exact H].
  - intros _; split; reflexivity.
Qed.

(** Lookup in a dict built by assignments: the last binding of the key. *)
Lemma dict_get_set_item d k v k' :
  Py.dict_get (Py.set_item d (JStr k) v) (JStr k')
  = if String.eqb k k' then Some v else Py.dict_get d (JStr k').
Proof.
  induction d as [| [k0 v0] d IH]; simpl.
  - reflexivity.
  - destruct (Py.key_eqb k0 (JStr k)) eqn:Hk; simpl.
    + destruct k0; try discriminate. simpl in Hk. apply String.eqb_eq in Hk as ->.
      simpl. now destruct (String.eqb k k').
    + rewrite IH. destruct (String.eqb k k') eqn:Hkk; [| reflexivity].
      apply String.eqb_eq in Hkk as <-. now rewrite Hk.
Qed.

Lemma dict_get_assignments key bindings : forall d,
  Py.dict_get (fold_left Spec.assign bindings d) (JStr key)
  = match Spec.last_binding key bindings with
    | Some v => Some (JStr v)
    | None => Py.dict_get d (JStr key)
    end.
Proof.
  induction bindings as [| [k v] rest IH]; intros d; simpl.
  - reflexivity.
  - rewrite IH. destruct (Spec.last_binding key rest); [reflexivity |].
    unfold Spec.assign; simpl. rewrite dict_get_set_item.
    now destruct (String.eqb k key).
Qed.

(** C4, as the code has it.  On a response shaped as the OCR schema has
    it, inline mode returns the dict that binds, in the order of the
    images, the identifier of each image having both an identifier and
    data to its data URI: the data itself when it starts with [data:], and
    otherwise the data prefixed with [data:image/<ext>;base64,], where
    [<ext>] is the lower-cased text after the last dot of the identifier,
    or [jpeg] when the identifier has no dot.  An identifier is bound to
    the URI of the last image that carries it. *)
Theorem inline_map_builds_data_uris (response_dict : json) :
  Spec.response_ok response_dict = true ->
  create_inline_image_map response_dict
  = Ok (Spec.dict_of (Spec.inline_bindings (Spec.entries_of response_dict)))
  /\ forall image_id,
      Py.dict_get (Spec.dict_of (Spec.inline_bindings (Spec.entries_of response_dict)))
                  (JStr image_id)
      = option_map JStr
          (Spec.last_binding image_id
             (Spec.inline_bindings (Spec.entries_of response_dict))).
Proof.
  intros H. split.
  - destruct (response_pages response_dict H) as [Hp Hok].
    unfold create_inline_image_map. unfold rbind in Hp |- *.
    destruct (Py.get response_dict "pages" (JList [])) as [pages |]; [| discriminate].
    rewrite Hp. now rewrite (inline_page_list_entries _ [] Hok).
  - intros image_id. unfold Spec.dict_of. rewrite dict_get_assignments.
    now destruct (Spec.last_binding image_id _).
Qed.

Lemma inline_map_builds_data_uris_witness :
  create_inline_image_map Sample.titled_page
  = Ok [(JStr "img-1.jpeg", JStr "data:image/jpeg;base64,QUJD")].
Proof.
  destruct (inline_map_builds_data_uris Sample.titled_page) as [H _];
    [reflexivity | exact H].
Defined.

(** C4, as stated, fails: an identifier whose extension is no image type
    is not given the default [image/jpeg]; the extension goes into the
    MIME type as it is. *)
Lemma unrecognised_extension_is_kept :
  create_inline_image_map Sample.odd_extension
  = Ok [(JStr "scan.xyz", JStr "data:image/xyz;base64,QUJD")]
  /\ Spec.claimed_data_uri Spec.recognised_extensions "scan.xyz" "QUJD"
     = "data:image/jpeg;base64,QUJD"
  /\ create_inline_image_map Sample.odd_extension
     <> Ok [(JStr "scan.xyz",
             JStr (Spec.claimed_data_uri Spec.recognised_extensions "scan.xyz" "QUJD"))].
Proof.
  split; [reflexivity | split; [reflexivity | discriminate]].
Qed.

(** ** Base64: decoding what was encoded *)

Section FiniteChecks.

(** A property of one or two bytes that a boolean function decides is
    proved by running the function over all the values. *)

Lemma below_spec k f :
  Spec.below k f = true -> forall n, (n < N.of_nat k)%N -> f n = true.
Proof.
  unfold Spec.below. rewrite forallb_forall. intros H n Hn.
  rewrite <- (N2Nat.id n). apply H, in_seq. lia.
Qed.

Lemma byte_below (b : byte) : (Byte.to_N b < 256)%N.
Proof. pose proof (Byte.to_N_bounded b). lia. Qed.

Lemma for_bytes f :
  Spec.below 256 f = true -> forall b : byte, f (Byte.to_N b) = true.
Proof. intros H b. apply (@below_spec 256 f H), byte_below. Qed.

Lemma for_byte_pairs f :
  Spec.below 256 (fun x => Spec.below 256 (f x)) = true ->
  forall a b : byte, f (Byte.to_N a) (Byte.to_N b) = true.
Proof.
  intros H a b.
  apply (@below_spec 256 (f (Byte.to_N a))); [| apply byte_below].
  exact (@below_spec 256 _ H (Byte.to_N a) (byte_below a)).
Qed.

End FiniteChecks.

Lemma byte_of_to_N b : Base64.byte_of_N (Byte.to_N b) = b.
Proof.
  unfold Base64.byte_of_N.
  assert (H : N.land (Byte.to_N b) 255 = Byte.to_N b).
  { apply N.eqb_eq.
    apply (for_bytes (fun n => N.eqb (N.land n 255) n)). vm_compute. reflexivity. }
  now rewrite H, Byte.of_to_N.
Qed.

(** Every 6-bit value has a character of the alphabet, which is not the
    padding and decodes to the value. *)
Lemma a2b_b2a n :
  (n < 64)%N ->
  Ascii.eqb (Base64.b2a_char n) Base64.pad = false
  /\ Base64.a2b_char (Base64.b2a_char n) = Some n.
Proof.
  intros Hn.
  assert (H : (negb (Ascii.eqb (Base64.b2a_char n) Base64.pad)
               && match Base64.a2b_char (Base64.b2a_char n) with
                  | Some m => N.eqb m n
                  | None => false
                  end) = true).
  { apply (@below_spec 64
             (fun n => negb (Ascii.eqb (Base64.b2a_char n) Base64.pad)
                       && match Base64.a2b_char (Base64.b2a_char n) with
                          | Some m => N.eqb m n
                          | None => false
                          end)); [vm_compute; reflexivity | exact Hn]. }
  apply andb_prop in H as [H1 H2]. split.
  - now apply negb_true_iff.
  - destruct (Base64.a2b_char (Base64.b2a_char n)); [| discriminate].
    apply N.eqb_eq in H2. now subst.
Qed.

(** One step of the decoder on a character of the alphabet. *)
Lemma a2b_loop_alphabet n quad_pos leftchar pads rest :
  (n < 64)%N ->
  Base64.a2b_loop quad_pos leftchar pads (String (Base64.b2a_char n) rest)
  = match quad_pos with
    | 0 => Base64.a2b_loop 1 n 0 rest
    | 1 =>
        match Base64.a2b_loop 2 (N.land n 15) 0 rest with
        | Ok out =>
            Ok (Base64.byte_of_N (N.lor (N.shiftl leftchar 2) (N.shiftr n 4)) :: out)
        | Raise e => Raise e
        end
    | 2 =>
        match Base64.a2b_loop 3 (N.land n 3) 0 rest with
        | Ok out =>
            Ok (Base64.byte_of_N (N.lor (N.shiftl leftchar 4) (N.shiftr n 2)) :: out)
        | Raise e => Raise e
        end
    | _ =>
        match Base64.a2b_loop 0 0 0 rest with
        | Ok out => Ok (Base64.byte_of_N (N.lor (N.shiftl leftchar 6) n) :: out)
        | Raise e => Raise e
        end
    end.
Proof.
  intros Hn. destruct (a2b_b2a n Hn) as [Hp Ha].
  cbn [Base64.a2b_loop]. rewrite Hp, Ha. reflexivity.
Qed.

Lemma sextets_below (a b : byte) :
  (Base64.sextet0 (Byte.to_N a) < 64)%N
  /\ (Base64.sextet1 (Byte.to_N a) (Byte.to_N b) < 64)%N
  /\ (Base64.sextet1 (Byte.to_N a) 0 < 64)%N
  /\ (Base64.sextet2 (Byte.to_N a) (Byte.to_N b) < 64)%N
  /\ (Base64.sextet2 (Byte.to_N a) 0 < 64)%N
  /\ (Base64.sextet3 (Byte.to_N a) < 64)%N.
Proof.
  pose proof (for_byte_pairs
                (fun x y => (Base64.sextet0 x <? 64)%N && (Base64.sextet1 x y <? 64)%N
                            && (Base64.sextet1 x 0 <? 64)%N && (Base64.sextet2 x y <? 64)%N
                            && (Base64.sextet2 x 0 <? 64)%N && (Base64.sextet3 x <? 64)%N)) as H.
  specialize (H ltac:(vm_compute; reflexivity) a b). cbv beta in H.
  repeat (apply andb_prop in H as [H ?]).
  repeat split; now apply N.ltb_lt.
Qed.

Lemma regroup (a b : byte) :
  let x := Byte.to_N a in
  let y := Byte.to_N b in
  N.shiftr (Base64.sextet1 x y) 4 = N.land x 3
  /\ N.lor (N.shiftl (Base64.sextet0 x) 2) (N.land x 3) = x
  /\ N.land (Base64.sextet1 x y) 15 = N.shiftr y 4
  /\ N.shiftr (Base64.sextet2 x y) 2 = N.land x 15
  /\ N.lor (N.shiftl (N.shiftr x 4) 4) (N.land x 15) = x
  /\ N.land (Base64.sextet2 x y) 3 = N.shiftr y 6
  /\ N.lor (N.shiftl (N.shiftr x 6) 6) (Base64.sextet3 x) = x.
Proof.
  pose proof (for_byte_pairs
                (fun x y =>
                   N.eqb (N.shiftr (Base64.sextet1 x y) 4) (N.land x 3)
                   && N.eqb (N.lor (N.shiftl (Base64.sextet0 x) 2) (N.land x 3)) x
                   && N.eqb (N.land (Base64.sextet1 x y) 15) (N.shiftr y 4)
                   && N.eqb (N.shiftr (Base64.sextet2 x y) 2) (N.land x 15)
                   && N.eqb (N.lor (N.shiftl (N.shiftr x 4) 4) (N.land x 15)) x
                   && N.eqb (N.land (Base64.sextet2 x y) 3) (N.shiftr y 6)
                   && N.eqb (N.lor (N.shiftl (N.shiftr x 6) 6) (Base64.sextet3 x)) x))
    as H.
  specialize (H ltac:(vm_compute; reflexivity) a b). cbv beta in H.
  repeat (apply andb_prop in H as [H ?]).
  cbv zeta. repeat split; now apply N.eqb_eq.
Qed.

(** The bytes the decoder puts together from the 6-bit values of a group. *)
Lemma decoded_bytes (a b c : byte) :
  let x := Byte.to_N a in
  let y := Byte.to_N b in
  let z := Byte.to_N c in
  Base64.byte_of_N (N.lor (N.shiftl (Base64.sextet0 x) 2)
                          (N.shiftr (Base64.sextet1 x y) 4)) = a
  /\ Base64.byte_of_N (N.lor (N.shiftl (N.land (Base64.sextet1 x y) 15) 4)
                             (N.shiftr (Base64.sextet2 y z) 2)) = b
  /\ Base64.byte_of_N (N.lor (N.shiftl (N.land (Base64.sextet2 y z) 3) 6)
                             (Base64.sextet3 z)) = c.
Proof.
  cbv zeta.
  destruct (regroup a b) as (H1 & H2 & H3 & _).
  destruct (regroup b c) as (_ & _ & _ & H4 & H5 & H6 & _).
  destruct (regroup c c) as (_ & _ & _ & _ & _ & _ & H7).
  cbv zeta in *.
  rewrite H1, H2, H3, H4, H5, H6, H7.
  now rewrite !byte_of_to_N.
Qed.

Lemma list_ind3 {A} (P : list A -> Prop) :
  P [] -> (forall a, P [a]) -> (forall a b, P [a; b]) ->
  (forall a b c l, P l -> P (a :: b :: c :: l)) ->
  forall l, P l.
Proof.
  intros H0 H1 H2 H3.
  fix IH 1. intros [| a [| b [| c l]]].
  - exact H0.
  - apply H1.
  - apply H2.
  - apply H3, IH.
Qed.

Lemma a2b_b2a_base64 data :
  Base64.a2b_loop 0 0 0 (Base64.b2a_base64 data) = Ok data.
Proof.
  induction data as [| a | a b | a b c rest IH] using list_ind3.
  - reflexivity.
  - cbn [Base64.b2a_base64].
    destruct (sextets_below a x00) as (S0 & S1 & _).
    destruct (decoded_bytes a x00 x00) as (D0 & _).
    change (Byte.to_N x00) with 0%N in *. cbv zeta in D0.
    rewrite (@a2b_loop_alphabet _ _ _ _ _ S0), (@a2b_loop_alphabet _ _ _ _ _ S1).
    cbn [Base64.a2b_loop]. now rewrite D0.
  - cbn [Base64.b2a_base64].
    destruct (sextets_below a b) as (S0 & S1 & _).
    destruct (sextets_below b x00) as (_ & _ & _ & S2 & _).
    destruct (decoded_bytes a b x00) as (D0 & D1 & _).
    change (Byte.to_N x00) with 0%N in *. cbv zeta in D0, D1.
    rewrite (@a2b_loop_alphabet _ _ _ _ _ S0), (@a2b_loop_alphabet _ _ _ _ _ S1),
      (@a2b_loop_alphabet _ _ _ _ _ S2).
    cbn [Base64.a2b_loop]. now rewrite D0, D1.
  - cbn [Base64.b2a_base64].
    destruct (sextets_below a b) as (S0 & S1 & _).
    destruct (sextets_below b c) as (_ & _ & _ & S2 & _).
    destruct (sextets_below c c) as (_ & _ & _ & _ & _ & S3).
    destruct (decoded_bytes a b c) as (D0 & D1 & D2). cbv zeta in D0, D1, D2.
    rewrite (@a2b_loop_alphabet _ _ _ _ _ S0), (@a2b_loop_alphabet _ _ _ _ _ S1),
      (@a2b_loop_alphabet _ _ _ _ _ S2), (@a2b_loop_alphabet _ _ _ _ _ S3).
    now rewrite IH, D0, D1, D2.
Qed.

Lemma b2a_char_ascii n : (n < 64)%N -> (N_of_ascii (Base64.b2a_char n) <? 128)%N = true.
Proof.
  apply (@below_spec 64 (fun n => (N_of_ascii (Base64.b2a_char n) <? 128)%N)).
  vm_compute. reflexivity.
Qed.

Lemma b2a_base64_isascii data : Base64.isascii (Base64.b2a_base64 data) = true.
Proof.
  induction data as [| a | a b | a b c rest IH] using list_ind3.
  - reflexivity.
  - destruct (sextets_below a x00) as (S0 & S1 & _).
    change (Byte.to_N x00) with 0%N in *.
    cbn [Base64.b2a_base64 Base64.isascii].
    now rewrite (b2a_char_ascii _ S0), (b2a_char_ascii _ S1).
  - destruct (sextets_below a b) as (S0 & S1 & _).
    destruct (sextets_below b x00) as (_ & _ & _ & S2 & _).
    change (Byte.to_N x00) with 0%N in *.
    cbn [Base64.b2a_base64 Base64.isascii].
    now rewrite (b2a_char_ascii _ S0), (b2a_char_ascii _ S1), (b2a_char_ascii _ S2).
  - destruct (sextets_below a b) as (S0 & S1 & _).
    destruct (sextets_below b c) as (_ & _ & _ & S2 & _).
    destruct (sextets_below c c) as (_ & _ & _ & _ & _ & S3).
    cbn [Base64.b2a_base64 Base64.isascii].
    now rewrite (b2a_char_ascii _ S0), (b2a_char_ascii _ S1), (b2a_char_ascii _ S2),
      (b2a_char_ascii _ S3), IH.
Qed.

(** Decoding the encoding of some bytes gives the bytes back. *)
Lemma b64decode_b64encode data :
  Base64.b64decode (Base64.b64encode data) = Ok data.
Proof.
  unfold Base64.b64decode, Base64.b64encode.
  now rewrite b2a_base64_isascii, a2b_b2a_base64.
Qed.

(** ** Calls only accumulate *)

Lemma grows_refl st : Spec.grows st st.
Proof. exists []. now rewrite app_nil_r. Qed.

Lemma grows_trans st1 st2 st3 :
  Spec.grows st1 st2 -> Spec.grows st2 st3 -> Spec.grows st1 st3.
Proof.
  intros [m1 H1] [m2 H2]. exists (m1 ++ m2)%list.
  now rewrite H2, H1, app_assoc.
Qed.

Lemma monotone_ret {A} (a : A) : Spec.monotone (ret a).
Proof. intros st; apply grows_refl. Qed.

Lemma monotone_raise {A} e : Spec.monotone (@raise A e).
Proof. intros st; apply grows_refl. Qed.

Lemma monotone_lift {A} (r : result A) : Spec.monotone (lift r).
Proof. intros st; apply grows_refl. Qed.

Lemma monotone_emit e : Spec.monotone (emit e).
Proof. intros st; now exists [e]. Qed.

Lemma monotone_set_file p c : Spec.monotone (set_file p c).
Proof. intros st; exists []; simpl; now rewrite app_nil_r. Qed.

Lemma monotone_set_uploaded_file u : Spec.monotone (set_uploaded_file u).
Proof. intros st; exists []; simpl; now rewrite app_nil_r. Qed.

Lemma monotone_get_uploaded_file : Spec.monotone get_uploaded_file.
Proof. intros st; apply grows_refl. Qed.

(** A computation followed by more: the calls of the first part stay. *)
Lemma bind_grows {A B} (m : M A) (k : A -> M B) st :
  (forall a, Spec.monotone (k a)) ->
  Spec.grows (snd (m st)) (snd (bind m k st)).
Proof.
  intros Hk. unfold bind. destruct (m st) as [[a | e] st1]; simpl.
  - apply Hk.
  - apply grows_refl.
Qed.

Lemma try_except_grows {A} (m : M A) (h : exn -> M A) st :
  (forall e, Spec.monotone (h e)) ->
  Spec.grows (snd (m st)) (snd (try_except m h st)).
Proof.
  intros Hh. unfold try_except. destruct (m st) as [[a | e] st1]; simpl.
  - apply grows_refl.
  - apply Hh.
Qed.

Lemma try_finally_grows {A} (m : M A) (final : M unit) st :
  Spec.monotone final ->
  Spec.grows (snd (m st)) (snd (try_finally m final st)).
Proof.
  intros Hf. unfold try_finally. destruct (m st) as [r st1]; simpl.
  specialize (Hf st1). destruct (final st1) as [[[] | e] st2]; exact Hf.
Qed.

Lemma monotone_bind {A B} (m : M A) (k : A -> M B) :
  Spec.monotone m -> (forall a, Spec.monotone (k a)) -> Spec.monotone (bind m k).
Proof.
  intros Hm Hk st. eapply grows_trans; [apply Hm | now apply bind_grows].
Qed.

Lemma monotone_try_except {A} (m : M A) (h : exn -> M A) :
  Spec.monotone m -> (forall e, Spec.monotone (h e)) -> Spec.monotone (try_except m h).
Proof.
  intros Hm Hh st. eapply grows_trans; [apply Hm | now apply try_except_grows].
Qed.

Lemma monotone_try_finally {A} (m : M A) (final : M unit) :
  Spec.monotone m -> Spec.monotone final -> Spec.monotone (try_finally m final).
Proof.
  intros Hm Hf st. eapply grows_trans; [apply Hm | now apply try_finally_grows].
Qed.

Create HintDb mono.

#[local] Hint Resolve monotone_ret monotone_raise monotone_lift monotone_emit
  monotone_set_file monotone_set_uploaded_file monotone_get_uploaded_file : mono.
#[local] Hint Extern 2 (Spec.monotone (bind _ _)) =>
  apply monotone_bind; [| intros ?] : mono.
#[local] Hint Extern 2 (Spec.monotone (try_except _ _)) =>
  apply monotone_try_except; [| intros ?] : mono.
#[local] Hint Extern 2 (Spec.monotone (try_finally _ _)) =>
  apply monotone_try_finally : mono.
#[local] Hint Extern 3 (Spec.monotone (if ?b then _ else _)) => destruct b : mono.
#[local] Hint Extern 3 (Spec.monotone (match ?x with Some _ => _ | None => _ end)) =>
  destruct x : mono.

Ltac mono := solve [auto 30 with mono].

Section MonotoneProgram.

Variable env : environment.
Variable md_convert : string -> string.

Lemma monotone_extract_image image_dir acc img :
  Spec.monotone (extract_image env image_dir acc img).
Proof.
  unfold extract_image, open_wb, file_write. mono.
Qed.

Lemma monotone_extract_image_list image_dir imgs : forall acc,
  Spec.monotone (extract_image_list env image_dir acc imgs).
Proof.
  induction imgs as [| img rest IH]; intros acc; simpl.
  - mono.
  - apply monotone_bind; [apply monotone_extract_image | intros a; apply IH].
Qed.

Lemma monotone_extract_page_list image_dir pages : forall acc,
  Spec.monotone (extract_page_list env image_dir acc pages).
Proof.
  induction pages as [| page rest IH]; intros acc; simpl.
  - mono.
  - apply monotone_bind; [mono | intros images].
    apply monotone_bind; [mono | intros imgs].
    apply monotone_bind; [apply monotone_extract_image_list | intros a; apply IH].
Qed.

Lemma monotone_extract_images_to_dir response_dict output_dir :
  Spec.monotone (extract_images_to_dir env response_dict output_dir).
Proof.
  unfold extract_images_to_dir.
  apply monotone_try_except; [| mono].
  apply monotone_bind; [mono | intros pages].
  apply monotone_bind; [mono | intros page_list].
  apply monotone_extract_page_list.
Qed.

Lemma monotone_save_output text fmt dir file :
  Spec.monotone (save_output env text fmt dir file).
Proof. unfold save_output, write_text, echo. mono. Qed.

Lemma monotone_cleanup : Spec.monotone (cleanup env).
Proof. unfold cleanup, files_delete. mono. Qed.

(** What follows the submission in the body of [ocr_pdf]. *)
Lemma monotone_after_submission (o : options) output_format response_dict :
  Spec.monotone
    (bind (if truthy (output_dir o)
           then mkdir env (Path.of_string (string_of (output_dir o)))
           else ret tt)
          (fun _ =>
             bind (if extract_images o && truthy (output_dir o)
                   then bind (extract_images_to_dir env response_dict
                                                    (string_of (output_dir o)))
                             (fun r => ret (fst r))
                   else if inline_images o
                        then lift (create_inline_image_map response_dict)
                        else ret [])
                  (fun image_map =>
                     bind (lift (generate_output_content md_convert response_dict
                                                         output_format image_map))
                          (fun result_text =>
                             save_output env result_text output_format
                                         (output_dir o) (output o))))).
Proof.
  apply monotone_bind; [unfold mkdir; mono | intros _].
  apply monotone_bind.
  - destruct (extract_images o && truthy (output_dir o)); [| mono].
    apply monotone_bind; [apply monotone_extract_images_to_dir | mono].
  - intros image_map. apply monotone_bind; [mono | intros t].
    apply monotone_save_output.
Qed.

End MonotoneProgram.

(** ** Submission of an image (C6) *)

Lemma process_image_run env image_path model include_images st data :
  env_read_bytes env image_path = Ok data ->
  process_image env image_path model include_images st
  = (env_ocr env (ImageURLChunk ("data:image/jpeg;base64," ++ Base64.b64encode data))
             model include_images,
     {| fs := fs st;
        trace := trace st
                 ++ [ReadBytes image_path;
                     OcrProcess
                       (ImageURLChunk ("data:image/jpeg;base64," ++ Base64.b64encode data))
                       model include_images];
        uploaded_file := uploaded_file st |}).
Proof.
  intros Hread. unfold process_image. rewrite reraise.
  unfold read_bytes, ocr_process, bind, emit, lift; cbn [trace fs uploaded_file].
  rewrite Hread. now rewrite <- app_assoc.
Qed.

(** C6.  For an input of the image variant whose bytes can be read, the
    run of [ocr_pdf] constructs the client, reads the file and submits to
    the OCR service a data URI that declares [image/jpeg], whatever the
    extension, followed by the base64 encoding of the bytes read (decoding
    it gives the bytes back); these are its first three calls. *)
Theorem image_is_submitted_as_jpeg env md_convert (o : options) (st : state)
        (data : list byte) :
  Spec.violates_rule o = false ->
  Spec.image_variant (file_path o) = true ->
  env_read_bytes env (Path.of_string (file_path o)) = Ok data ->
  let image_path := Path.of_string (file_path o) in
  let include_images := inline_images o || extract_images o in
  let image_url := "data:image/jpeg;base64," ++ Base64.b64encode data in
  Base64.b64decode (Base64.b64encode data) = Ok data
  /\ process_image env image_path (model o) include_images st
     = (env_ocr env (ImageURLChunk image_url) (model o) include_images,
        {| fs := fs st;
           trace := trace st
                    ++ [ReadBytes image_path;
                        OcrProcess (ImageURLChunk image_url) (model o) include_images];
           uploaded_file := uploaded_file st |})
  /\ exists rest,
      trace (snd (ocr_pdf env md_convert o st))
      = (trace st
         ++ [NewClient (string_of (api_key o));
             ReadBytes image_path;
             OcrProcess (ImageURLChunk image_url) (model o) include_images]
         ++ rest)%list.
Proof.
  intros Hvalid Himage Hread image_path include_images image_url.
  split; [apply b64decode_b64encode |].
  split; [now apply process_image_run |].
  unfold ocr_pdf. rewrite reraise, bind_lift, (validate_options_accepts o Hvalid).
  unfold new_client.
  set (st2 := {| fs := fs st;
                 trace := trace st ++ [NewClient (string_of (api_key o))];
                 uploaded_file := None |}).
  change (bind (emit (NewClient (string_of (api_key o)))) _ st)
    with (try_finally
            (try_except
               (ocr_body env md_convert o
                         (if json_ o then "json" else if html o then "html" else "markdown")
                         (Path.of_string (file_path o)))
               (fun e => raise (ClickWrapped e)))
            (cleanup env) st2).
  pose proof (process_image_run env image_path (model o) include_images st2 data Hread)
    as Hrun.
  fold image_url in Hrun.
  match type of Hrun with _ = (_, ?s) => set (st3 := s) in * end.
  assert (Hgrow : Spec.grows st3 (snd (try_finally
            (try_except
               (ocr_body env md_convert o
                         (if json_ o then "json" else if html o then "html" else "markdown")
                         (Path.of_string (file_path o)))
               (fun e => raise (ClickWrapped e)))
            (cleanup env) st2))).
  { eapply grows_trans; [| apply try_finally_grows, monotone_cleanup].
    eapply grows_trans; [| apply try_except_grows; intros e; apply monotone_raise].
    unfold ocr_body. unfold Spec.image_variant in Himage.
    unfold image_suffixes. rewrite Himage.
    eapply grows_trans; [| apply bind_grows; intros r; apply monotone_after_submission].
    replace st3 with (snd (process_image env image_path (model o) include_images st2))
      by now rewrite Hrun.
    apply bind_grows. intros r. mono. }
  destruct Hgrow as [rest Hrest]. exists rest. rewrite Hrest.
  unfold st3, st2; cbn [trace]. now rewrite <- !app_assoc.
Qed.

Lemma image_is_submitted_as_jpeg_witness :
  exists rest,
    trace (snd (ocr_pdf Sample.one_png (fun s => s) Sample.png_to_stdout initial))
    = ([NewClient "key";
        ReadBytes (Path.of_string "photos/page.PNG");
        OcrProcess (ImageURLChunk "data:image/jpeg;base64,iVBORw==")
                   "mistral-ocr-latest" false]
       ++ rest)%list.
Proof.
  destruct (image_is_submitted_as_jpeg Sample.one_png (fun s => s)
              Sample.png_to_stdout initial [x89; x50; x4e; x47])
    as (_ & _ & rest & H); [reflexivity | reflexivity | reflexivity |].
  exists rest. exact H.
Defined.

(** ** Failure of the OCR call after the upload (C2) *)

Lemma process_pdf_ocr_failure env pdf_path model include_images st data u url e :
  env_read_bytes env pdf_path = Ok data ->
  env_upload env (Path.stem pdf_path) data = Ok u ->
  env_signed_url env (id u) = Ok url ->
  env_ocr env (DocumentURLChunk url) model include_images = Raise e ->
  process_pdf env pdf_path model include_images st
  = (Raise match env_delete env (id u) with
           | Ok _ => e
           | Raise e' => e'
           end,
     {| fs := fs st;
        trace := trace st
                 ++ [ReadBytes pdf_path;
                     FilesUpload (Path.stem pdf_path) data "ocr";
                     FilesGetSignedUrl (id u) 1;
                     OcrProcess (DocumentURLChunk url) model include_images;
                     FilesDelete (id u)];
        uploaded_file := uploaded_file st |}).
Proof.
  intros Hread Hup Hurl Hocr. unfold process_pdf. rewrite reraise.
  unfold read_bytes, files_upload, files_get_signed_url, ocr_process, files_delete,
    try_except, bind, emit, lift, raise; cbn [trace fs uploaded_file].
  rewrite Hread, Hup, Hurl, Hocr.
  destruct (env_delete env (id u)) as [[] | e']; cbn [trace fs uploaded_file];
    now rewrite <- !app_assoc.
Qed.

(** The whole run when the OCR call fails after the upload. *)
Lemma ocr_pdf_ocr_failure env md_convert (o : options) st data u url e :
  Spec.violates_rule o = false ->
  Spec.image_variant (file_path o) = false ->
  env_read_bytes env (Path.of_string (file_path o)) = Ok data ->
  env_upload env (Path.stem (Path.of_string (file_path o))) data = Ok u ->
  env_signed_url env (id u) = Ok url ->
  env_ocr env (DocumentURLChunk url) (model o) (inline_images o || extract_images o)
  = Raise e ->
  ocr_pdf env md_convert o st
  = (Raise (ClickWrapped match env_delete env (id u) with
                         | Ok _ => e
                         | Raise e' => e'
                         end),
     {| fs := fs st;
        trace := trace st
                 ++ [NewClient (string_of (api_key o));
                     ReadBytes (Path.of_string (file_path o));
                     FilesUpload (Path.stem (Path.of_string (file_path o))) data "ocr";
                     FilesGetSignedUrl (id u) 1;
                     OcrProcess (DocumentURLChunk url) (model o)
                                (inline_images o || extract_images o);
                     FilesDelete (id u)];
        uploaded_file := None |}).
Proof.
  intros Hvalid Himage Hread Hup Hurl Hocr.
  unfold ocr_pdf. rewrite reraise, bind_lift, (validate_options_accepts o Hvalid).
  unfold new_client.
  erewrite bind_ok by reflexivity.
  erewrite bind_ok by reflexivity.
  unfold try_finally, try_except, ocr_body.
  unfold Spec.image_variant in Himage. unfold image_suffixes. rewrite Himage.
  match goal with
  | |- context [bind (bind (process_pdf ?a ?b ?c ?d) ?f) ?k ?s] =>
      rewrite (@bind_raise _ _ (bind (process_pdf a b c d) f) k _ _ _
                 (@bind_raise _ _ (process_pdf a b c d) f _ _ _
                    (process_pdf_ocr_failure _ _ _ _ s _ _ _ _ Hread Hup Hurl Hocr)))
  end.
  unfold cleanup, try_except, bind, get_uploaded_file, raise, ret;
    cbn [uploaded_file trace fs].
  destruct (env_delete env (id u)) as [[] | e']; now rewrite <- !app_assoc.
Qed.

Lemma deletions_app t1 t2 :
  Spec.deletions (t1 ++ t2) = Spec.deletions t1 + Spec.deletions t2.
Proof. unfold Spec.deletions. now rewrite filter_app, length_app. Qed.

(** When the deletion succeeds, the property holds: the uploaded file is
    deleted once in the whole run, by [process_pdf], and the error of the
    OCR call reaches [ocr_pdf] unchanged, which reports it. *)
Lemma ocr_failure_deletes_once env md_convert (o : options) st data u url e :
  Spec.violates_rule o = false ->
  Spec.image_variant (file_path o) = false ->
  env_read_bytes env (Path.of_string (file_path o)) = Ok data ->
  env_upload env (Path.stem (Path.of_string (file_path o))) data = Ok u ->
  env_signed_url env (id u) = Ok url ->
  env_ocr env (DocumentURLChunk url) (model o) (inline_images o || extract_images o)
  = Raise e ->
  env_delete env (id u) = Ok tt ->
  fst (process_pdf env (Path.of_string (file_path o)) (model o)
                   (inline_images o || extract_images o) st) = Raise e
  /\ fst (ocr_pdf env md_convert o st) = Raise (ClickWrapped e)
  /\ Spec.deletions (trace (snd (ocr_pdf env md_convert o st)))
     = S (Spec.deletions (trace st)).
Proof.
  intros Hvalid Himage Hread Hup Hurl Hocr Hdel.
  rewrite (process_pdf_ocr_failure _ _ _ _ st _ _ _ _ Hread Hup Hurl Hocr).
  rewrite (ocr_pdf_ocr_failure _ md_convert o st _ _ _ _ Hvalid Himage Hread Hup Hurl Hocr).
  rewrite Hdel. cbn [fst snd trace]. rewrite deletions_app.
  repeat split. cbn. lia.
Qed.

(** Whether the deletion succeeds or not, it is invoked once in the whole
    run. *)
Lemma ocr_failure_one_deletion env md_convert (o : options) st data u url e :
  Spec.violates_rule o = false ->
  Spec.image_variant (file_path o) = false ->
  env_read_bytes env (Path.of_string (file_path o)) = Ok data ->
  env_upload env (Path.stem (Path.of_string (file_path o))) data = Ok u ->
  env_signed_url env (id u) = Ok url ->
  env_ocr env (DocumentURLChunk url) (model o) (inline_images o || extract_images o)
  = Raise e ->
  Spec.deletions (trace (snd (ocr_pdf env md_convert o st)))
  = S (Spec.deletions (trace st)).
Proof.
  intros Hvalid Himage Hread Hup Hurl Hocr.
  rewrite (ocr_pdf_ocr_failure _ md_convert o st _ _ _ _ Hvalid Himage Hread Hup Hurl Hocr).
  cbn [snd trace]. rewrite deletions_app. cbn. lia.
Qed.

(** C2, where the code departs from it.  Upload succeeds, the OCR call
    raises, and the deletion that [process_pdf] attempts raises too: the
    deletion is invoked once, but the exception that leaves [process_pdf],
    and that [ocr_pdf] reports, is the one of the deletion; the error of
    the OCR call is lost. *)
Theorem failed_cleanup_masks_ocr_error :
  process_pdf Sample.failing_cleanup (Path.of_string "scan.pdf")
              "mistral-ocr-latest" false initial
  = (Raise (SDKError "delete failed"),
     {| fs := [];
        trace := [ReadBytes (Path.of_string "scan.pdf");
                  FilesUpload "scan" [x25; x50; x44; x46] "ocr";
                  FilesGetSignedUrl "file-1" 1;
                  OcrProcess (DocumentURLChunk "https://signed")
                             "mistral-ocr-latest" false;
                  FilesDelete "file-1"];
        uploaded_file := None |})
  /\ fst (ocr_pdf Sample.failing_cleanup (fun s => s) Sample.markdown_to_stdout initial)
     = Raise (ClickWrapped (SDKError "delete failed"))
  /\ Spec.deletions
       (trace (snd (ocr_pdf Sample.failing_cleanup (fun s => s)
                            Sample.markdown_to_stdout initial))) = 1.
Proof. repeat split. Qed.

(** ** Extraction of the images (C3) *)

Lemma split_without_slash s :
  Str.mem "/" s = false -> Str.split "/" s = [s].
Proof.
  induction s as [| c s IH]; cbn [Str.mem Str.split].
  - reflexivity.
  - destruct (Ascii.eqb c "/"); cbn [orb]; [discriminate |].
    intros H. now rewrite (IH H).
Qed.

Lemma startswith_slash s :
  Str.mem "/" s = false -> Str.startswith s "/" = false.
Proof.
  destruct s as [| c s]; cbn [Str.mem Str.startswith]; [reflexivity |].
  rewrite (Ascii.eqb_sym "/" c). destruct (Ascii.eqb c "/"); [discriminate | reflexivity].
Qed.

(** A plain name is one component: joined to a directory it names a file
    of that directory. *)
Lemma div_plain_name dir name :
  Spec.plain_name name = true ->
  Path.div dir name = {| absolute := absolute dir; parts := parts dir ++ [name] |}.
Proof.
  unfold Spec.plain_name. intros H.
  apply andb_prop in H as [H Hslash]. apply andb_prop in H as [H Hdots].
  apply andb_prop in H as [Hempty Hdot].
  apply negb_true_iff in Hslash.
  unfold Path.div, Path.of_string. cbn [absolute parts].
  rewrite (startswith_slash _ Hslash), (split_without_slash _ Hslash).
  cbn [filter]. unfold Path.keep_part.
  apply negb_true_iff in Hempty, Hdot. now rewrite Hempty, Hdot.
Qed.

Lemma div_plain_name_inside dir name :
  Spec.plain_name name = true ->
  Path.parent (Path.div dir name) = dir /\ Path.name (Path.div dir name) = name.
Proof.
  intros H. rewrite (div_plain_name dir name H). unfold Path.parent, Path.name.
  cbn [absolute parts]. rewrite removelast_last, last_last.
  now destruct dir.
Qed.

Lemma path_eqb_eq p q : Path.eqb p q = true <-> p = q.
Proof.
  unfold Path.eqb. destruct p as [a ps], q as [b qs]; cbn [absolute parts].
  destruct (list_eq_dec string_dec ps qs) as [-> | Hne].
  - rewrite andb_true_r, Bool.eqb_true_iff. split; [now intros -> | now intros [= ->]].
  - rewrite andb_false_r. split; [discriminate | intros [= _ H]; contradiction].
Qed.

Lemma div_plain_name_inj dir a b :
  Spec.plain_name a = true -> Spec.plain_name b = true ->
  Path.div dir a = Path.div dir b -> a = b.
Proof.
  intros Ha Hb. rewrite (div_plain_name dir a Ha), (div_plain_name dir b Hb).
  intros [= H]. apply app_inv_head in H. now injection H.
Qed.

Lemma extract_image_entry env image_dir acc img st :
  Spec.entry_ok img = true ->
  match Spec.complete img with
  | Some kv => Spec.extractable env image_dir kv
  | None => True
  end ->
  extract_image env image_dir acc img st
  = match Spec.complete img with
    | Some kv =>
        (Ok (Spec.assign (fst acc) (fst kv, fst kv), S (snd acc)),
         Spec.written image_dir st kv)
    | None => (Ok acc, st)
    end.
Proof.
  destruct img as [| | | | | kvs]; try discriminate.
  unfold Spec.entry_ok, Spec.complete, extract_image, has_id_and_data.
  cbn [Py.contains rbind].
  destruct (Py.lookup "id" kvs) as [i |] eqn:Hi; [| intros _ _; now rewrite bind_lift].
  destruct (Py.lookup "image_base64" kvs) as [d |] eqn:Hd;
    [| intros _ _; rewrite bind_lift; now destruct i].
  destruct i as [| | | i | |]; try discriminate.
  destruct d as [| | | d | |]; try discriminate.
  intros _ (Hplain & Hopen & bytes & Hdec).
  cbn [fst snd] in Hplain, Hopen, Hdec.
  rewrite bind_lift. unfold Py.getitem. rewrite Hi, Hd.
  rewrite !bind_lift. cbn [py_startswith]. rewrite bind_lift.
  unfold Spec.written. cbn [fst snd]. rewrite Hdec.
  unfold Spec.decoded, Spec.payload in Hdec.
  assert (Hpay : exists s,
             (if Str.startswith d "data:image/" then after_first_comma d else Ok d)
             = Ok s /\ Base64.b64decode s = Ok bytes).
  { destruct (Str.startswith d "data:image/").
    - destruct (after_first_comma d) as [s |]; [| discriminate].
      exists s. split; [reflexivity |].
      destruct (Base64.b64decode s); [now injection Hdec as -> | discriminate].
    - exists d. split; [reflexivity |].
      destruct (Base64.b64decode d); [now injection Hdec as -> | discriminate]. }
  destruct Hpay as (s & -> & Hb).
  unfold open_wb, file_write, bind, emit, lift, set_file, ret;
    cbn [fs trace uploaded_file py_path_div].
  rewrite Hopen, Hb. cbn [Py.setitem Py.hashable].
  unfold Spec.assign. cbn [fst snd fs trace uploaded_file].
  rewrite <- ?app_assoc. reflexivity.
Qed.

Lemma complete_images_app a b :
  Spec.complete_images (a ++ b)
  = (Spec.complete_images a ++ Spec.complete_images b)%list.
Proof.
  induction a as [| x a IH]; simpl; [reflexivity |].
  destruct (Spec.complete x); simpl; now rewrite IH.
Qed.

Lemma extract_image_list_run env image_dir entries : forall acc st,
  forallb Spec.entry_ok entries = true ->
  Forall (Spec.extractable env image_dir) (Spec.complete_images entries) ->
  extract_image_list env image_dir acc entries st
  = (Ok (fold_left Spec.assign (Spec.own_names (Spec.complete_images entries)) (fst acc),
         snd acc + length (Spec.complete_images entries)),
     fold_left (Spec.written image_dir) (Spec.complete_images entries) st).
Proof.
  induction entries as [| img rest IH]; intros acc st Hok Hex.
  - cbn. rewrite Nat.add_0_r. now destruct acc.
  - cbn [forallb] in Hok. apply andb_prop in Hok as [H1 H2].
    cbn [extract_image_list Spec.complete_images] in *.
    pose proof (extract_image_entry env image_dir acc img st H1) as Hrun.
    destruct (Spec.complete img) as [kv |].
    + inversion Hex as [| ? ? Hkv Hrest]; subst.
      rewrite (bind_ok _ _ _ _ _ (Hrun Hkv)), (IH _ _ H2 Hrest).
      cbn [Spec.own_names map fold_left fst snd length].
      now rewrite Nat.add_succ_r.
    + rewrite (bind_ok _ _ _ _ _ (Hrun I)). now apply IH.
Qed.

Lemma extract_page_list_run env image_dir pages : forall acc st,
  forallb Spec.page_ok pages = true ->
  Forall (Spec.extractable env image_dir)
         (Spec.complete_images (flat_map Spec.entries_of_page pages)) ->
  extract_page_list env image_dir acc pages st
  = (Ok (fold_left Spec.assign
           (Spec.own_names (Spec.complete_images (flat_map Spec.entries_of_page pages)))
           (fst acc),
         snd acc + length (Spec.complete_images (flat_map Spec.entries_of_page pages))),
     fold_left (Spec.written image_dir)
               (Spec.complete_images (flat_map Spec.entries_of_page pages)) st).
Proof.
  induction pages as [| page rest IH]; intros acc st Hok Hex.
  - cbn. rewrite Nat.add_0_r. now destruct acc.
  - cbn [forallb] in Hok. apply andb_prop in Hok as [H1 H2].
    cbn [flat_map] in *. rewrite complete_images_app in *.
    apply Forall_app in Hex as [Hex1 Hex2].
    destruct (page_images page H1) as [Hp He].
    cbn [extract_page_list]. unfold rbind in Hp.
    rewrite bind_lift.
    destruct (Py.get page "images" (JList [])) as [images |]; [| discriminate].
    rewrite bind_lift, Hp.
    rewrite (bind_ok _ _ _ _ _ (extract_image_list_run env image_dir _ acc st He Hex1)).
    rewrite (IH _ _ H2 Hex2). cbn [fst snd].
    unfold Spec.own_names. rewrite map_app, !fold_left_app, length_app.
    now rewrite Nat.add_assoc.
Qed.

(** The file of an identifier after the images have been written: the
    decoded data of the last image that carries the identifier. *)
Lemma fs_lookup_written image_dir image_id images : forall st,
  Spec.plain_name image_id = true ->
  Forall (fun kv => Spec.plain_name (fst kv) = true) images ->
  fs_lookup (fs (fold_left (Spec.written image_dir) images st))
            (Path.div image_dir image_id)
  = match Spec.last_binding image_id images with
    | Some d => Some (Bytes match Spec.decoded d with Some b => b | None => [] end)
    | None => fs_lookup (fs st) (Path.div image_dir image_id)
    end.
Proof.
  intros st Hid Hall; revert st.
  induction Hall as [| [i d] rest Hi Hrest IH]; intros st.
  - reflexivity.
  - cbn [fold_left Spec.last_binding]. rewrite IH.
    destruct (Spec.last_binding image_id rest); [reflexivity |].
    unfold Spec.written. cbn [fs fst snd fs_lookup].
    destruct (String.eqb i image_id) eqn:Heq.
    + apply String.eqb_eq in Heq as ->.
      now rewrite (proj2 (path_eqb_eq _ _) eq_refl).
    + destruct (Path.eqb (Path.div image_dir i) (Path.div image_dir image_id)) eqn:Hp;
        [| reflexivity].
      apply path_eqb_eq, div_plain_name_inj in Hp; [| assumption ..].
      apply String.eqb_neq in Heq. contradiction.
Qed.

Lemma last_binding_own_names key images :
  Spec.last_binding key (Spec.own_names images)
  = match Spec.last_binding key images with
    | Some _ => Some key
    | None => None
    end.
Proof.
  induction images as [| [k v] rest IH].
  - reflexivity.
  - cbn [Spec.own_names map Spec.last_binding fst].
    fold (Spec.own_names rest). rewrite IH.
    destruct (Spec.last_binding key rest); [reflexivity |].
    destruct (String.eqb k key) eqn:H; [| reflexivity].
    now apply String.eqb_eq in H as ->.
Qed.

(** C3, as the code has it.  On a response shaped as the OCR schema has
    it, in which every image having both an identifier and data has a
    plain file name for identifier, a file that can be opened in the
    target directory, and data that can be decoded, extract mode returns
    the dict that binds each such identifier to itself and counts these
    images; afterwards the file named by an identifier inside the target
    directory holds the lenient base64 decoding of the data of the last
    image with that identifier, data that starts with [data:image/] being
    cut after its first comma; when that text is the base64 encoding of
    some bytes, the file holds these bytes, so that encoding the file
    gives the text back. *)
Theorem extract_writes_decoded_images env (response_dict : json)
        (output_dir : string) (st : state) :
  let images := Spec.complete_images (Spec.entries_of response_dict) in
  let image_dir := Path.of_string output_dir in
  Spec.response_ok response_dict = true ->
  Forall (Spec.extractable env image_dir) images ->
  exists st',
    extract_images_to_dir env response_dict output_dir st
    = (Ok (Spec.dict_of (Spec.own_names images), length images), st')
    /\ (forall image_id image_data,
           Spec.last_binding image_id images = Some image_data ->
           Py.dict_get (Spec.dict_of (Spec.own_names images)) (JStr image_id)
           = Some (JStr image_id)
           /\ Path.parent (Path.div image_dir image_id) = image_dir
           /\ Path.name (Path.div image_dir image_id) = image_id
           /\ exists bytes,
               Spec.decoded image_data = Some bytes
               /\ fs_lookup (fs st') (Path.div image_dir image_id) = Some (Bytes bytes)
               /\ (forall original,
                      Spec.payload image_data = Some (Base64.b64encode original) ->
                      bytes = original
                      /\ Spec.payload image_data = Some (Base64.b64encode bytes))).
Proof.
  intros images image_dir Hok Hex. subst images image_dir.
  set (images := Spec.complete_images (Spec.entries_of response_dict)) in *.
  exists (fold_left (Spec.written (Path.of_string output_dir)) images st). split.
  - destruct (response_pages response_dict Hok) as [Hp Hpages].
    unfold extract_images_to_dir. rewrite reraise. unfold rbind in Hp.
    rewrite bind_lift.
    destruct (Py.get response_dict "pages" (JList [])) as [pages |]; [| discriminate].
    rewrite bind_lift, Hp.
    now rewrite (extract_page_list_run env _ _ ([], 0) st Hpages Hex).
  - intros image_id image_data Hlast.
    assert (Hin : In (image_id, image_data) images).
    { clear - Hlast. induction images as [| [k v] rest IH]; [discriminate |].
      cbn in Hlast. destruct (Spec.last_binding image_id rest).
      - right. now apply IH.
      - destruct (String.eqb k image_id) eqn:H; [| discriminate].
        apply String.eqb_eq in H as ->. injection Hlast as ->. now left. }
    pose proof (proj1 (Forall_forall _ _) Hex _ Hin) as (Hplain & _ & bytes & Hdec).
    cbn [fst snd] in Hplain, Hdec.
    split; [| split; [| split]].
    + unfold Spec.dict_of. rewrite dict_get_assignments, last_binding_own_names.
      now rewrite Hlast.
    + now apply div_plain_name_inside.
    + now apply div_plain_name_inside.
    + exists bytes. split; [exact Hdec | split].
      * rewrite fs_lookup_written, Hlast, Hdec; [reflexivity | exact Hplain |].
        eapply Forall_impl; [| exact Hex]. now intros kv (H & _).
      * intros original Hpay. unfold Spec.decoded in Hdec. rewrite Hpay in Hdec.
        rewrite b64decode_b64encode in Hdec. injection Hdec as <-.
        split; [reflexivity | exact Hpay].
Qed.

Lemma extract_writes_decoded_images_witness :
  exists st',
    extract_images_to_dir Sample.quiet_environment Sample.titled_page "out" initial
    = (Ok ([(JStr "img-1.jpeg", JStr "img-1.jpeg")], 1), st')
    /\ fs_lookup (fs st') (Path.div (Path.of_string "out") "img-1.jpeg")
       = Some (Bytes [x41; x42; x43]).
Proof.
  destruct (extract_writes_decoded_images Sample.quiet_environment
              Sample.titled_page "out" initial) as (st' & Hrun & Hfile).
  - reflexivity.
  - repeat constructor. exists [x41; x42; x43]. reflexivity.
  - exists st'. split; [exact Hrun |].
    destruct (Hfile "img-1.jpeg" "QUJD" eq_refl) as (_ & _ & _ & bytes & Hd & Hl & _).
    rewrite Hl. f_equal. f_equal. vm_compute in Hd. now injection Hd.
Defined.

(** C3, as stated, fails.  Embedded data broken into lines is decoded
    leniently: the file holds three bytes whose encoding is not the
    embedded data.  And a data URI of another media type than an image
    keeps its prefix, which the decoder then refuses. *)
Lemma extracted_file_does_not_encode_back :
  fst (extract_images_to_dir Sample.quiet_environment Sample.wrapped_data "out" initial)
  = Ok ([(JStr "img-1.jpeg", JStr "img-1.jpeg")], 1)
  /\ fs_lookup
       (fs (snd (extract_images_to_dir Sample.quiet_environment Sample.wrapped_data
                                       "out" initial)))
       (Path.div (Path.of_string "out") "img-1.jpeg")
     = Some (Bytes [x41; x42; x43])
  /\ Spec.payload ("QUJD" ++ Str.chr Str.newline) = Some ("QUJD" ++ Str.chr Str.newline)
  /\ Base64.b64encode [x41; x42; x43] <> "QUJD" ++ Str.chr Str.newline
  /\ fst (extract_images_to_dir Sample.quiet_environment Sample.octet_stream_data
                                "out" initial)
     = Raise BinasciiError.
Proof.
  repeat split. discriminate.
Qed.

(** ** Strings *)

Lemma append_assoc (a b c : string) : (a ++ b) ++ c = a ++ (b ++ c).
Proof. induction a as [| x a IH]; simpl; [reflexivity | now rewrite IH]. Qed.

Lemma append_nil_r (s : string) : s ++ EmptyString = s.
Proof. induction s as [| x s IH]; simpl; [reflexivity | now rewrite IH]. Qed.

Lemma length_append (a b : string) :
  String.length (a ++ b) = String.length a + String.length b.
Proof. induction a as [| x a IH]; simpl; [reflexivity | now rewrite IH]. Qed.

Lemma startswith_nil s : Str.startswith s EmptyString = true.
Proof. now destruct s. Qed.

Lemma startswith_append p s : Str.startswith (p ++ s) p = true.
Proof.
  induction p as [| x p IH]; cbn [append Str.startswith].
  - reflexivity.
  - now rewrite Ascii.eqb_refl, IH.
Qed.

Lemma drop_append p s : Str.drop (String.length p) (p ++ s) = s.
Proof. induction p as [| x p IH]; simpl; [reflexivity | exact IH]. Qed.

Lemma startswith_split s : forall p,
  Str.startswith s p = true -> s = p ++ Str.drop (String.length p) s.
Proof.
  induction s as [| c s IH]; intros [| x p]; cbn [Str.startswith]; try reflexivity.
  - discriminate.
  - intros H. apply andb_prop in H as [Hc Hp].
    apply Ascii.eqb_eq in Hc as <-. cbn. f_equal. now apply IH.
Qed.

(** ** The replacement template *)

Lemma parse_literal groups s :
  Spec.no_backslash s = true ->
  Re.parse groups Re.TText s = Ok (map Re.TChar (list_ascii_of_string s)).
Proof.
  unfold Spec.no_backslash. induction s as [| c s IH]; cbn [Str.mem Re.parse].
  - reflexivity.
  - intros H. apply negb_true_iff, orb_false_elim in H as [Hc Hs].
    rewrite Hc. cbn [negb]. rewrite IH by now rewrite Hs. reflexivity.
Qed.

Lemma no_backslash_append a b :
  Spec.no_backslash (a ++ b) = Spec.no_backslash a && Spec.no_backslash b.
Proof.
  unfold Spec.no_backslash. induction a as [| c a IH]; cbn [append Str.mem].
  - reflexivity.
  - destruct (Ascii.eqb c Str.backslash); cbn; [reflexivity | exact IH].
Qed.

Lemma expand_literal s whole group1 :
  Re.expand (map Re.TChar (list_ascii_of_string s)) whole group1 = s.
Proof. induction s as [| c s IH]; cbn; [reflexivity | now rewrite IH]. Qed.

(** A reference without a backslash is inserted as it is: the template
    stands for the opening, the alt text of the match, and the closing
    with the reference. *)
Lemma replacement_template img_src :
  Spec.no_backslash img_src = true ->
  exists tpl,
    Re.parse_template 1 (replacement img_src) = Ok tpl
    /\ forall whole group1,
        Re.expand tpl whole group1 = "![" ++ group1 ++ Re.link_tail img_src.
Proof.
  intros H.
  exists (Re.TChar "!" :: Re.TChar "[" :: Re.TGroup 1
          :: map Re.TChar (list_ascii_of_string (Re.link_tail img_src))).
  split.
  - unfold Re.parse_template, replacement. cbn.
    change (String "]" (String "(" (img_src ++ ")"))) with (Re.link_tail img_src).
    rewrite parse_literal; [reflexivity |].
    unfold Re.link_tail.
    change ("](" ++ img_src ++ ")") with ("](" ++ (img_src ++ ")")).
    now rewrite !no_backslash_append, H.
  - intros whole group1. cbn [Re.expand]. now rewrite expand_literal.
Qed.

(** ** The substitution as one pass of a machine *)

Section OnePass.

Variables img_id new_tail : string.

Let tail := Re.link_tail img_id.

Lemma scan_skip u : forall s m n,
  String.length u = n ->
  Spec.scan tail new_tail n m (u ++ s) = Spec.scan tail new_tail 0 m s.
Proof.
  induction u as [| c u IH]; intros s m n <-; cbn [append String.length].
  - reflexivity.
  - cbn [Spec.scan]. now apply IH.
Qed.

Lemma tail_length : String.length tail = S (String.length tail - 1).
Proof. unfold tail, Re.link_tail. cbn. lia. Qed.

(** The machine in front of the closing: it writes the new one and goes
    on, idle, behind the old one. *)
Lemma scan_at_tail s :
  s <> EmptyString ->
  Str.startswith s tail = true ->
  Spec.scan tail new_tail 0 Spec.Armed s
  = new_tail ++ Spec.scan tail new_tail 0 Spec.Idle (Str.drop (String.length tail) s).
Proof.
  intros Hne Hs. destruct s as [| c s]; [contradiction |].
  cbn [Spec.scan]. rewrite Hs. f_equal.
  pose proof (startswith_split _ _ Hs) as Hsplit.
  set (rest := Str.drop (String.length tail) (String c s)) in *.
  unfold tail at 1, Re.link_tail in Hsplit. cbn [append] in Hsplit.
  clearbody rest. clear Hs Hne. injection Hsplit as _ ->.
  apply (scan_skip (String "(" (img_id ++ ")"))).
  unfold tail, Re.link_tail. cbn. lia.
Qed.

Lemma newline_is_no_mark c :
  Ascii.eqb c Str.newline = true ->
  Ascii.eqb c "!" = false /\ Ascii.eqb c "[" = false.
Proof. intros H. apply Ascii.eqb_eq in H as ->. split; reflexivity. Qed.

(** No match from here on this line: being armed changes nothing. *)
Lemma scan_no_match s :
  Re.lazy_group tail s = None ->
  Spec.scan tail new_tail 0 Spec.Armed s = Spec.scan tail new_tail 0 Spec.Idle s
  /\ Spec.scan tail new_tail 0 Spec.Armed s = Spec.scan tail new_tail 0 Spec.Bang s.
Proof.
  induction s as [| c s IH]; [split; reflexivity |].
  cbn [Re.lazy_group Spec.scan].
  destruct (Str.startswith (String c s) tail); [discriminate |].
  destruct (Ascii.eqb c Str.newline) eqn:Hnl.
  - intros _. destruct (newline_is_no_mark c Hnl) as [-> ->]. split; reflexivity.
  - destruct (Re.lazy_group tail s) as [[g r] |]; [discriminate |].
    intros _. destruct (IH eq_refl) as [H1 H2].
    split.
    + destruct (Ascii.eqb c "!"); now rewrite <- ?H2, ?H1.
    + destruct (Ascii.eqb c "["); [reflexivity |].
      destruct (Ascii.eqb c "!"); now rewrite <- ?H2, ?H1.
Qed.

(** A match from here: the alt text is copied, the closing replaced. *)
Lemma scan_match s : forall group rest,
  Re.lazy_group tail s = Some (group, rest) ->
  Spec.scan tail new_tail 0 Spec.Armed s
  = group ++ new_tail ++ Spec.scan tail new_tail 0 Spec.Idle rest
  /\ String.length rest < String.length s.
Proof.
  induction s as [| c s IH]; intros group rest.
  - unfold tail, Re.link_tail. cbn. discriminate.
  - cbn [Re.lazy_group].
    destruct (Str.startswith (String c s) tail) eqn:Hs.
    + pose proof (scan_at_tail (String c s) ltac:(discriminate) Hs) as Hat.
      pose proof (f_equal String.length (startswith_split _ _ Hs)) as Hl.
      rewrite length_append in Hl. pose proof tail_length as Ht.
      set (rest0 := Str.drop (String.length tail) (String c s)) in *.
      clearbody rest0. intros [= <- <-]. split; [exact Hat | lia].
    + destruct (Ascii.eqb c Str.newline) eqn:Hnl; [discriminate |].
      destruct (Re.lazy_group tail s) as [[g r] |]; [| discriminate].
      intros [= <- <-]. destruct (IH g r eq_refl) as [H1 H2]. split.
      * cbn [Spec.scan]. rewrite Hs, Hnl, H1. reflexivity.
      * cbn [String.length]. lia.
Qed.

Variable tpl : list Re.titem.

Hypothesis expand_tpl :
  forall whole group1, Re.expand tpl whole group1 = "![" ++ group1 ++ new_tail.

(** The scan of [re.sub], given fuel for the whole text, is the pass of
    the machine. *)
Lemma sub_scan_is_one_pass fuel : forall s,
  String.length s <= fuel ->
  Re.sub_scan fuel img_id tpl s = Spec.scan tail new_tail 0 Spec.Idle s.
Proof.
  induction fuel as [| fuel IH]; intros s Hlen.
  - destruct s; [reflexivity | cbn in Hlen; lia].
  - destruct s as [| c s]; [reflexivity |].
    cbn [Re.sub_scan Re.match_image]. cbn [String.length] in Hlen.
    destruct s as [| d s].
    + rewrite IH by (cbn; lia). cbn [Spec.scan]. reflexivity.
    + destruct (Ascii.eqb c "!") eqn:Hc; cbn [andb].
      * destruct (Ascii.eqb d "[") eqn:Hd.
        -- fold tail.
           destruct (Re.lazy_group tail s) as [[group rest] |] eqn:Hg.
           ++ destruct (scan_match s group rest Hg) as [H1 H2].
              rewrite expand_tpl, IH by (cbn [String.length] in Hlen; lia).
              cbn [Spec.scan]. rewrite Hc, Hd, H1.
              apply Ascii.eqb_eq in Hc as ->. apply Ascii.eqb_eq in Hd as ->.
              cbn [append]. now rewrite append_assoc.
           ++ destruct (scan_no_match s Hg) as [H1 _].
              rewrite IH by lia. cbn [Spec.scan]. rewrite Hc, Hd, H1.
              apply Ascii.eqb_eq in Hd as ->. reflexivity.
        -- rewrite IH by lia. cbn [Spec.scan]. rewrite Hc, Hd.
           destruct (Ascii.eqb d "!"); reflexivity.
      * rewrite IH by lia. cbn [Spec.scan]. rewrite Hc. reflexivity.
Qed.

End OnePass.

(** ** One pass over a text with image links *)

Section PassOverMarkdown.

Variables img_id img_src : string.

Let tail := Re.link_tail img_id.
Let new_tail := Re.link_tail img_src.

Hypothesis id_no_paren : Spec.no_paren img_id = true.

Lemma no_close_cons c t :
  Spec.no_close (String c t) = true ->
  Str.startswith (String c t) "](" = false /\ Spec.no_close t = true.
Proof.
  unfold Spec.no_close. cbn [Str.contains].
  destruct (Str.startswith (String c t) "]("); [discriminate |].
  intros H. split; [reflexivity | exact H].
Qed.

(** Inside a text without [](], and before anything but an opening
    parenthesis, the closing of the pattern does not stand. *)
Lemma no_tail_inside c t F :
  Str.startswith (String c t) "](" = false ->
  Spec.starts_paren F = false ->
  Str.startswith (String c t ++ F) tail = false.
Proof.
  unfold tail, Re.link_tail. cbn [append Str.startswith].
  destruct (Ascii.eqb "]" c); cbn [andb]; [| reflexivity].
  destruct t as [| d t]; cbn [append].
  - intros _. destruct F as [| d F]; [reflexivity |].
    cbn [Spec.starts_paren]. rewrite (Ascii.eqb_sym "(" d). now intros ->.
  - destruct (Ascii.eqb "(" d); [discriminate | reflexivity].
Qed.

(** A text is copied, in whatever mode it is read. *)
Lemma scan_text t : forall m F,
  Spec.no_close t = true ->
  Spec.starts_paren F = false ->
  exists m',
    Spec.scan tail new_tail 0 m (t ++ F) = t ++ Spec.scan tail new_tail 0 m' F.
Proof.
  induction t as [| c t IH]; intros m F Ht HF.
  - now exists m.
  - destruct (no_close_cons c t Ht) as [Hc Ht'].
    pose proof (no_tail_inside c t F Hc HF) as Hno.
    cbn [append] in *. cbn [Spec.scan]. rewrite Hno.
    destruct m.
    + destruct (IH (if Ascii.eqb c "!" then Spec.Bang else Spec.Idle) F Ht' HF)
        as [m' ->]. now exists m'.
    + destruct (IH (if Ascii.eqb c "[" then Spec.Armed
                    else if Ascii.eqb c "!" then Spec.Bang else Spec.Idle) F Ht' HF)
        as [m' ->]. now exists m'.
    + destruct (IH (if Ascii.eqb c Str.newline then Spec.Idle else Spec.Armed)
                   F Ht' HF) as [m' ->]. now exists m'.
Qed.

(** An alt text on one line is copied and leaves the machine armed. *)
Lemma scan_alt t : forall F,
  Spec.single_line t = true ->
  Spec.no_close t = true ->
  Spec.starts_paren F = false ->
  Spec.scan tail new_tail 0 Spec.Armed (t ++ F)
  = t ++ Spec.scan tail new_tail 0 Spec.Armed F.
Proof.
  induction t as [| c t IH]; intros F Hl Ht HF.
  - reflexivity.
  - destruct (no_close_cons c t Ht) as [Hc Ht'].
    pose proof (no_tail_inside c t F Hc HF) as Hno.
    unfold Spec.single_line in Hl. cbn [Str.mem] in Hl.
    apply negb_true_iff, orb_false_elim in Hl as [Hnl Hl].
    cbn [append] in *. cbn [Spec.scan]. rewrite Hno, Hnl.
    rewrite IH; [reflexivity | | assumption ..].
    unfold Spec.single_line. now rewrite Hl.
Qed.

(** The opening of a link arms the machine. *)
Lemma scan_opening m X :
  Spec.scan tail new_tail 0 m ("![" ++ X)
  = "![" ++ Spec.scan tail new_tail 0 Spec.Armed X.
Proof. destruct m; reflexivity. Qed.

(** The closing with the identifier is replaced. *)
Lemma scan_closing_hit G :
  Spec.scan tail new_tail 0 Spec.Armed ("](" ++ img_id ++ ")" ++ G)
  = "](" ++ img_src ++ ")" ++ Spec.scan tail new_tail 0 Spec.Idle G.
Proof.
  replace ("](" ++ img_id ++ ")" ++ G) with (tail ++ G)
    by (unfold tail, Re.link_tail; cbn [append]; now rewrite append_assoc).
  unfold tail, new_tail. rewrite scan_at_tail.
  - rewrite drop_append. unfold Re.link_tail. cbn [append].
    now rewrite append_assoc.
  - unfold Re.link_tail. discriminate.
  - apply startswith_append.
Qed.

(** Two strings without a closing parenthesis, each followed by one:
    when one starts the other, they are equal. *)
Lemma same_target t : forall i G,
  Spec.no_paren t = true -> Spec.no_paren i = true ->
  Str.startswith (t ++ ")" ++ G) (i ++ ")") = true -> t = i.
Proof.
  unfold Spec.no_paren.
  induction t as [| c t IH]; intros [| d i] G Ht Hi; cbn [append Str.startswith Str.mem] in *.
  - reflexivity.
  - apply negb_true_iff, orb_false_elim in Hi as [Hd _].
    rewrite Hd. discriminate.
  - apply negb_true_iff, orb_false_elim in Ht as [Hc _].
    rewrite (Ascii.eqb_sym ")" c), Hc. discriminate.
  - apply negb_true_iff, orb_false_elim in Ht as [_ Ht].
    apply negb_true_iff, orb_false_elim in Hi as [_ Hi].
    intros H. apply andb_prop in H as [Hcd H]. apply Ascii.eqb_eq in Hcd as ->.
    f_equal. apply (IH i G); [now rewrite Ht | now rewrite Hi | exact H].
Qed.

(** The closing with another target is copied. *)
Lemma scan_closing_miss t G :
  Spec.no_close t = true -> Spec.no_paren t = true -> t <> img_id ->
  exists m',
    Spec.scan tail new_tail 0 Spec.Armed ("](" ++ t ++ ")" ++ G)
    = "](" ++ t ++ ")" ++ Spec.scan tail new_tail 0 m' G.
Proof.
  intros Hc Hp Hne.
  assert (Hno : Str.startswith ("](" ++ t ++ ")" ++ G) tail = false).
  { unfold tail, Re.link_tail. cbn [append Str.startswith].
    rewrite !Ascii.eqb_refl. cbn [andb].
    destruct (Str.startswith (t ++ String ")" G) (img_id ++ ")")) eqn:H;
      [| reflexivity].
    apply (same_target t img_id G Hp id_no_paren) in H. contradiction. }
  cbn [append] in *. cbn [Spec.scan]. rewrite Hno.
  change (Ascii.eqb "]" Str.newline) with false. cbv iota.
  change (Str.startswith (String "(" (t ++ String ")" G)) tail) with false.
  change (Ascii.eqb "(" Str.newline) with false. cbv iota.
  destruct (scan_text t Spec.Armed (String ")" G) Hc eq_refl) as [m1 ->].
  destruct m1; cbn [Spec.scan];
    [now exists Spec.Idle | now exists Spec.Idle | now exists Spec.Armed].
Qed.

Lemma render_items_start items : Spec.starts_paren (Spec.render_items items) = false.
Proof. now destruct items as [| [l t] rest]. Qed.

(** A link is rewritten when its target is the identifier, and copied
    otherwise. *)
Lemma scan_link l m G :
  Spec.link_ok l = true ->
  exists m',
    Spec.scan tail new_tail 0 m (Spec.render_link l ++ G)
    = Spec.render_link {| Spec.alt := Spec.alt l;
                          Spec.target := Spec.redirect img_id img_src (Spec.target l) |}
      ++ Spec.scan tail new_tail 0 m' G.
Proof.
  unfold Spec.link_ok. intros H.
  apply andb_prop in H as [H Hp]. apply andb_prop in H as [H Hct].
  apply andb_prop in H as [Hl Hca].
  unfold Spec.render_link, Spec.redirect. cbn [Spec.alt Spec.target].
  rewrite !append_assoc. rewrite scan_opening.
  rewrite (scan_alt (Spec.alt l)) by auto.
  destruct (String.eqb_spec img_id (Spec.target l)) as [<- | Hne].
  - exists Spec.Idle.
    rewrite (scan_closing_hit G). now rewrite !append_assoc.
  - destruct (scan_closing_miss (Spec.target l) G Hct Hp) as [m' Hm'];
      [congruence |].
    exists m'. rewrite Hm'. now rewrite !append_assoc.
Qed.

Lemma scan_items items : forall m,
  forallb (fun lt => Spec.link_ok (fst lt) && Spec.no_close (snd lt)) items = true ->
  Spec.scan tail new_tail 0 m (Spec.render_items items)
  = Spec.render_items
      (map (fun lt =>
              ({| Spec.alt := Spec.alt (fst lt);
                  Spec.target := Spec.redirect img_id img_src (Spec.target (fst lt)) |},
               snd lt)) items).
Proof.
  induction items as [| [l t] rest IH]; intros m H.
  - now destruct m.
  - cbn [forallb fst snd] in H. apply andb_prop in H as [H Hrest].
    apply andb_prop in H as [Hl Ht].
    cbn [Spec.render_items map fst snd].
    destruct (scan_link l m (t ++ Spec.render_items rest) Hl) as [m1 ->].
    destruct (scan_text t m1 (Spec.render_items rest) Ht (render_items_start rest))
      as [m2 ->].
    now rewrite (IH m2 Hrest).
Qed.

(** The pass over a whole text. *)
Lemma scan_markdown (d : Spec.markdown) :
  Spec.markdown_ok d = true ->
  Spec.scan tail new_tail 0 Spec.Idle (Spec.render d)
  = Spec.render (Spec.retarget (Spec.redirect img_id img_src) d).
Proof.
  unfold Spec.markdown_ok, Spec.render, Spec.retarget. intros H.
  apply andb_prop in H as [H0 H]. cbn [fst snd].
  destruct (scan_text (fst d) Spec.Idle (Spec.render_items (snd d)) H0
                      (render_items_start (snd d))) as [m ->].
  now rewrite (scan_items (snd d) m H).
Qed.

(** [re.sub] for one entry of the image map, on a text with image
    links. *)
Lemma sub_markdown (d : Spec.markdown) :
  Spec.markdown_ok d = true ->
  Spec.no_backslash img_src = true ->
  Re.sub img_id (replacement img_src) (Spec.render d)
  = Ok (Spec.render (Spec.retarget (Spec.redirect img_id img_src) d)).
Proof.
  intros Hd Hb. unfold Re.sub.
  destruct (replacement_template img_src Hb) as (tpl & -> & Hexp).
  rewrite (sub_scan_is_one_pass img_id new_tail tpl Hexp _ _ (le_n _)).
  f_equal. now apply scan_markdown.
Qed.

End PassOverMarkdown.

(** ** The assembled text (C1, C10) *)

Lemma str_items_strings l : str_items (map JStr l) = Ok l.
Proof. induction l as [| s l IH]; cbn; [reflexivity | now rewrite IH]. Qed.

Lemma page_fragments_text pages :
  forallb Spec.page_has_text pages = true ->
  page_fragments pages = Ok (map JStr (map Spec.fragment_of pages)).
Proof.
  induction pages as [| page rest IH]; cbn [forallb page_fragments map].
  - reflexivity.
  - intros H. apply andb_prop in H as [Hp Hrest]. rewrite (IH Hrest).
    destruct page as [| | | | | kvs]; try discriminate.
    unfold Spec.page_has_text in Hp. cbn [Py.get Spec.fragment_of rbind].
    destruct (Py.lookup "markdown" kvs) as [[| | | s | |] |];
      try discriminate; reflexivity.
Qed.

Lemma markdown_contents_text response_dict :
  Spec.pages_have_text response_dict = true ->
  markdown_contents response_dict
  = Ok (map JStr (map Spec.fragment_of (Spec.pages_of response_dict))).
Proof.
  destruct response_dict as [| | | | | kvs]; try discriminate.
  unfold Spec.pages_have_text, Spec.pages_of, markdown_contents.
  cbn [Py.get rbind].
  destruct (Py.lookup "pages" kvs) as [[| | | | pages |] |]; try discriminate.
  - apply page_fragments_text.
  - reflexivity.
Qed.

(** The text before the image references are substituted. *)
Lemma joined_text response_dict :
  Spec.pages_have_text response_dict = true ->
  (fragments <- markdown_contents response_dict ;; join_fragments fragments)%result
  = Ok (Spec.joined_fragments response_dict).
Proof.
  intros H. rewrite (markdown_contents_text _ H). cbn [rbind].
  unfold join_fragments. now rewrite str_items_strings.
Qed.

Lemma retarget_ext f g (d : Spec.markdown) :
  (forall t, f t = g t) -> Spec.retarget f d = Spec.retarget g d.
Proof.
  intros H. unfold Spec.retarget. f_equal. apply map_ext. intros [l t].
  cbn. now rewrite H.
Qed.

Lemma retarget_same (d : Spec.markdown) : Spec.retarget (fun t => t) d = d.
Proof.
  destruct d as [t0 items]. unfold Spec.retarget. cbn [fst snd]. f_equal.
  induction items as [| [[a t] x] rest IH]; cbn; [reflexivity | now rewrite IH].
Qed.

Lemma retarget_retarget f g (d : Spec.markdown) :
  Spec.retarget g (Spec.retarget f d) = Spec.retarget (fun t => g (f t)) d.
Proof.
  unfold Spec.retarget. cbn [fst snd]. f_equal. rewrite map_map.
  apply map_ext. now intros [l t].
Qed.

Lemma retarget_ok img_id img_src (d : Spec.markdown) :
  Spec.markdown_ok d = true ->
  Spec.no_close img_src = true -> Spec.no_paren img_src = true ->
  Spec.markdown_ok (Spec.retarget (Spec.redirect img_id img_src) d) = true.
Proof.
  unfold Spec.markdown_ok, Spec.retarget. cbn [fst snd]. intros H Hc Hp.
  apply andb_prop in H as [H0 H]. rewrite H0. cbn [andb].
  apply forallb_forall. intros x Hin.
  apply in_map_iff in Hin as ([l t] & <- & Hin).
  rewrite forallb_forall in H. specialize (H _ Hin). cbn [fst snd] in *.
  apply andb_prop in H as [Hl Ht]. rewrite Ht, andb_true_r.
  unfold Spec.link_ok in *. cbn [Spec.alt Spec.target].
  apply andb_prop in Hl as [Hl H3]. apply andb_prop in Hl as [Hl H2].
  rewrite Hl. cbn [andb]. unfold Spec.redirect.
  destruct (String.eqb img_id (Spec.target l)); [now rewrite Hc, Hp | now rewrite H2, H3].
Qed.

(** The loop over the items of the image map, on a text with image links:
    each entry in turn redirects the targets equal to its identifier. *)
Lemma substitute_all_markdown m : forall d : Spec.markdown,
  Spec.markdown_ok d = true ->
  forallb Spec.entry_fits m = true ->
  substitute_all (Spec.render d) (Spec.items_of m)
  = Ok (Spec.render (Spec.retarget (Spec.resolve_in_turn m) d)).
Proof.
  induction m as [| [k v] rest IH]; intros d Hd Hm.
  - cbn [Spec.items_of map substitute_all].
    rewrite (retarget_ext (Spec.resolve_in_turn []) (fun t => t)) by reflexivity.
    now rewrite retarget_same.
  - cbn [forallb] in Hm. apply andb_prop in Hm as [Hkv Hrest].
    unfold Spec.entry_fits in Hkv. cbn [fst snd] in Hkv.
    apply andb_prop in Hkv as [Hkv H4]. apply andb_prop in Hkv as [Hkv H3].
    apply andb_prop in Hkv as [H1 H2].
    cbn [Spec.items_of map substitute_all substitute fst snd].
    rewrite (sub_markdown k v H1 d Hd H2). cbn [rbind].
    fold (Spec.items_of rest).
    rewrite (IH _ (retarget_ok k v d Hd H3 H4) Hrest), retarget_retarget.
    reflexivity.
Qed.

Lemma resolve_in_turn_other m : forall t,
  existsb (fun kv => String.eqb (fst kv) t) m = false ->
  Spec.resolve_in_turn m t = t.
Proof.
  induction m as [| [k v] rest IH]; intros t H; cbn in *.
  - reflexivity.
  - apply orb_false_elim in H as [Hk Hrest].
    unfold Spec.redirect at 2. cbn [fst snd]. rewrite Hk. now apply IH.
Qed.

(** Without a reference that is an identifier further on, applying the
    entries in turn is looking the target up in the map. *)
Lemma resolve_in_turn_resolve m : forall t,
  Spec.chain_free m = true -> Spec.resolve_in_turn m t = Spec.resolve m t.
Proof.
  induction m as [| [k v] rest IH]; intros t H.
  - reflexivity.
  - cbn [Spec.chain_free] in H. apply andb_prop in H as [Hv Hrest].
    apply negb_true_iff in Hv.
    cbn [Spec.resolve_in_turn fold_left Spec.resolve fst snd].
    unfold Spec.redirect at 2. cbn [fst snd].
    destruct (String.eqb k t).
    + now apply resolve_in_turn_other.
    + now apply IH.
Qed.




(** ** Responses that lack pages or text (C10) *)

Lemma substitute_all_empty m :
  forallb (fun kv => Spec.no_backslash (snd kv)) m = true ->
  substitute_all EmptyString (Spec.items_of m) = Ok EmptyString.
Proof.
  induction m as [| [k v] rest IH]; cbn [forallb Spec.items_of map substitute_all].
  - reflexivity.
  - intros H. apply andb_prop in H as [Hv Hrest]. cbn [snd fst substitute] in *.
    unfold Re.sub. destruct (replacement_template v Hv) as (tpl & -> & _).
    cbn [String.length Re.sub_scan rbind]. now apply IH.
Qed.

Lemma missing_text_is_empty kvs :
  Py.lookup "markdown" kvs = None ->
  Spec.page_has_text (JDict kvs) = true /\ Spec.fragment_of (JDict kvs) = EmptyString.
Proof. intros H. unfold Spec.page_has_text, Spec.fragment_of. now rewrite H. Qed.



(** * Further properties of the program *)

(** ** The errors of [ocr_pdf] *)

Lemma cleanup_returns env st : fst (cleanup env st) = Ok tt.
Proof.
  unfold cleanup, try_except, bind, get_uploaded_file, ret.
  destruct (uploaded_file st) as [u |]; [| reflexivity].
  now destruct (files_delete env (id u) st) as [[[] | e] st'].
Qed.

(** X1.  Whatever the service and the file system answer and whatever
    the options, [ocr_pdf] returns, or raises a [ClickException]: one of
    the five messages of the validation, the state then being as it was,
    or the message made from an exception of the processing, the options
    then having passed the validation.  No other exception leaves it: the
    [finally] block catches what the deletion raises. *)
Theorem ocr_pdf_raises_click_only env md_convert (o : options) (st : state) :
  fst (ocr_pdf env md_convert o st) = Ok tt
  \/ (exists msg,
         In msg Spec.validation_messages
         /\ ocr_pdf env md_convert o st = (Raise (ClickException msg), st))
  \/ (exists e,
         fst (ocr_pdf env md_convert o st) = Raise (ClickWrapped e)
         /\ Spec.violates_rule o = false).
Proof.
  destruct (Spec.violates_rule o) eqn:Hv.
  - right; left. destruct (validate_options_rejects o Hv) as (msg & Hin & Hmsg).
    exists msg. split; [exact Hin |].
    unfold ocr_pdf. rewrite reraise, bind_lift, Hmsg. reflexivity.
  - unfold ocr_pdf. rewrite reraise, bind_lift, (validate_options_accepts o Hv).
    unfold new_client.
    erewrite bind_ok by reflexivity. erewrite bind_ok by reflexivity.
    unfold try_finally.
    match goal with
    | |- context [try_except ?b ?h ?s] =>
        destruct (try_except b h s) as [r st1] eqn:Hbody
    end.
    pose proof (cleanup_returns env st1) as Hc.
    destruct (cleanup env st1) as [[[] | e] st2]; cbn [fst] in Hc; [| discriminate].
    unfold try_except in Hbody.
    match type of Hbody with
    | (match ?x with _ => _ end) = _ => destruct x as [[a | e] st'] eqn:Hrun
    end.
    + injection Hbody as <- <-. left. now destruct a.
    + unfold raise in Hbody. injection Hbody as <- <-. right; right.
      exists e. split; reflexivity.
Qed.

(** ** [--json] and [--html] together *)

(** X2.  With [--json] the run does not depend on [--html]: the format is
    JSON whether [--html] is given or not. *)
Theorem json_takes_priority env md_convert (o : options) (b : bool) (st : state) :
  json_ o = true ->
  ocr_pdf env md_convert (Props.with_html b o) st = ocr_pdf env md_convert o st.
Proof.
  intros Hj. unfold ocr_pdf, ocr_body, Props.with_html.
  cbn [file_path api_key output output_dir model json_ html inline_images
         extract_images].
  now rewrite Hj.
Qed.

Lemma json_takes_priority_witness :
  ocr_pdf Sample.quiet_environment (fun s => s)
          (Props.with_html true MoreSamples.json_to_stdout) initial
  = ocr_pdf Sample.quiet_environment (fun s => s) MoreSamples.json_to_stdout initial.
Proof.
  apply (json_takes_priority Sample.quiet_environment (fun s => s)
                             MoreSamples.json_to_stdout true initial).
  reflexivity.
Defined.

(** ** Remote files: what is uploaded is deleted, once *)

Lemma deleted_emit e st :
  Props.deleted (snd (emit e st))
  = (Props.deleted st ++ (if Spec.is_delete e then [e] else []))%list.
Proof.
  unfold Props.deleted, emit. cbn [snd trace]. rewrite filter_app. cbn [filter].
  now destruct (Spec.is_delete e).
Qed.

Lemma calm_ret {A} (a : A) : Props.calm (ret a).
Proof. intros st; split; reflexivity. Qed.

Lemma calm_raise {A} e : Props.calm (@raise A e).
Proof. intros st; split; reflexivity. Qed.

Lemma calm_lift {A} (r : result A) : Props.calm (lift r).
Proof. intros st; split; reflexivity. Qed.

Lemma calm_emit e : Spec.is_delete e = false -> Props.calm (emit e).
Proof.
  intros He st. split; [| reflexivity].
  rewrite deleted_emit, He. apply app_nil_r.
Qed.

Lemma calm_set_file p c : Props.calm (set_file p c).
Proof. intros st; split; reflexivity. Qed.

Lemma calm_bind {A B} (m : M A) (k : A -> M B) :
  Props.calm m -> (forall a, Props.calm (k a)) -> Props.calm (bind m k).
Proof.
  intros Hm Hk st. specialize (Hm st). unfold bind.
  destruct (m st) as [[a | e] st1]; cbn [snd] in *; [| exact Hm].
  destruct (Hk a st1) as [H1 H2]. destruct Hm as [H3 H4].
  split; congruence.
Qed.

Lemma calm_try_except {A} (m : M A) (h : exn -> M A) :
  Props.calm m -> (forall e, Props.calm (h e)) -> Props.calm (try_except m h).
Proof.
  intros Hm Hh st. specialize (Hm st). unfold try_except.
  destruct (m st) as [[a | e] st1]; cbn [snd] in *; [exact Hm |].
  destruct (Hh e st1) as [H1 H2]. destruct Hm as [H3 H4].
  split; congruence.
Qed.

Create HintDb calm.

#[local] Hint Resolve calm_ret calm_raise calm_lift calm_set_file : calm.
#[local] Hint Extern 1 (Props.calm (emit _)) => apply calm_emit; reflexivity : calm.
#[local] Hint Extern 2 (Props.calm (bind _ _)) =>
  apply calm_bind; [| intros ?] : calm.
#[local] Hint Extern 2 (Props.calm (try_except _ _)) =>
  apply calm_try_except; [| intros ?] : calm.
#[local] Hint Extern 3 (Props.calm (if ?b then _ else _)) => destruct b : calm.

Ltac calm := solve [auto 30 with calm].

Section RemoteFiles.

Variable env : environment.
Variable md_convert : string -> string.

Lemma calm_process_image image_path model include_images :
  Props.calm (process_image env image_path model include_images).
Proof. unfold process_image, read_bytes, ocr_process. calm. Qed.

Lemma calm_extract_image image_dir acc img :
  Props.calm (extract_image env image_dir acc img).
Proof. unfold extract_image, open_wb, file_write. calm. Qed.

Lemma calm_extract_image_list image_dir imgs : forall acc,
  Props.calm (extract_image_list env image_dir acc imgs).
Proof.
  induction imgs as [| img rest IH]; intros acc; simpl.
  - calm.
  - apply calm_bind; [apply calm_extract_image | intros a; apply IH].
Qed.

Lemma calm_extract_page_list image_dir pages : forall acc,
  Props.calm (extract_page_list env image_dir acc pages).
Proof.
  induction pages as [| page rest IH]; intros acc; simpl.
  - calm.
  - apply calm_bind; [calm | intros images].
    apply calm_bind; [calm | intros imgs].
    apply calm_bind; [apply calm_extract_image_list | intros a; apply IH].
Qed.

Lemma calm_extract_images_to_dir response_dict output_dir :
  Props.calm (extract_images_to_dir env response_dict output_dir).
Proof.
  unfold extract_images_to_dir.
  apply calm_try_except; [| calm].
  apply calm_bind; [calm | intros pages].
  apply calm_bind; [calm | intros page_list].
  apply calm_extract_page_list.
Qed.

Lemma calm_save_output text fmt dir file :
  Props.calm (save_output env text fmt dir file).
Proof. unfold save_output, write_text, echo. calm. Qed.

(** What follows the submission in the body of [ocr_pdf]. *)
Lemma calm_after_submission (o : options) output_format response_dict :
  Props.calm
    (bind (if truthy (output_dir o)
           then mkdir env (Path.of_string (string_of (output_dir o)))
           else ret tt)
          (fun _ =>
             bind (if extract_images o && truthy (output_dir o)
                   then bind (extract_images_to_dir env response_dict
                                                    (string_of (output_dir o)))
                             (fun r => ret (fst r))
                   else if inline_images o
                        then lift (create_inline_image_map response_dict)
                        else ret [])
                  (fun image_map =>
                     bind (lift (generate_output_content md_convert response_dict
                                                         output_format image_map))
                          (fun result_text =>
                             save_output env result_text output_format
                                         (output_dir o) (output o))))).
Proof.
  apply calm_bind; [unfold mkdir; calm | intros _].
  apply calm_bind.
  - destruct (extract_images o && truthy (output_dir o)); [| calm].
    apply calm_bind; [apply calm_extract_images_to_dir | calm].
  - intros image_map. apply calm_bind; [calm | intros t].
    apply calm_save_output.
Qed.

(** [process_pdf] returns the file it uploaded and has then deleted
    nothing; when it raises, it has deleted the file it uploaded, if
    the upload was made. *)
Lemma process_pdf_deletions pdf_path model include_images st :
  uploaded_file (snd (process_pdf env pdf_path model include_images st))
  = uploaded_file st
  /\ match fst (process_pdf env pdf_path model include_images st) with
     | Ok (_, u) =>
         Props.upload_of env pdf_path = Some u
         /\ Props.deleted (snd (process_pdf env pdf_path model include_images st))
            = Props.deleted st
     | Raise _ =>
         Props.deleted (snd (process_pdf env pdf_path model include_images st))
         = (Props.deleted st
              ++ Props.deletion_of (Props.upload_of env pdf_path))%list
     end.
Proof.
  unfold process_pdf, Props.upload_of, read_bytes, files_upload,
    files_get_signed_url, ocr_process, files_delete, try_except, bind, lift,
    emit, ret, raise, Props.deleted, Props.deletion_of.
  cbn [fst snd trace fs uploaded_file].
  destruct (env_read_bytes env pdf_path) as [data | e1]; cbn [fst snd trace uploaded_file].
  2: { rewrite filter_app. cbn. now rewrite !app_nil_r. }
  destruct (env_upload env (Path.stem pdf_path) data) as [u | e2];
    cbn [fst snd trace uploaded_file].
  2: { rewrite !filter_app. cbn. now rewrite !app_nil_r. }
  destruct (env_signed_url env (id u)) as [url | e3]; cbn [fst snd trace uploaded_file].
  2: { destruct (env_delete env (id u)); cbn [fst snd trace uploaded_file];
       (split; [reflexivity |]); rewrite !filter_app; cbn;
       now rewrite !app_nil_r. }
  destruct (env_ocr env (DocumentURLChunk url) model include_images) as [r | e4];
    cbn [fst snd trace uploaded_file].
  - split; [reflexivity |]. split; [reflexivity |].
    rewrite !filter_app. cbn. now rewrite !app_nil_r.
  - destruct (env_delete env (id u)); cbn [fst snd trace uploaded_file];
      (split; [reflexivity |]); rewrite !filter_app; cbn;
      now rewrite !app_nil_r.
Qed.

Lemma cleanup_deletions st :
  Props.deleted (snd (cleanup env st))
  = (Props.deleted st ++ Props.deletion_of (uploaded_file st))%list.
Proof.
  cbv [cleanup try_except bind get_uploaded_file files_delete lift emit
         ret Props.deleted Props.deletion_of].
  destruct (uploaded_file st) as [u |]; cbn [fst snd trace].
  - destruct (env_delete env (id u)); cbn [snd trace]; now rewrite filter_app.
  - now rewrite app_nil_r.
Qed.

(** The inner [try] of [ocr_pdf], with its handler: the deletions made
    and the variable [uploaded_file] on the way out. *)
Lemma ocr_body_deletions (o : options) output_format input_file st :
  uploaded_file st = None ->
  let is_image :=
    existsb (String.eqb (Str.lower (Path.suffix input_file))) image_suffixes in
  let u := if is_image then None else Props.upload_of env input_file in
  let st' := snd (try_except (ocr_body env md_convert o output_format input_file)
                             (fun e => raise (ClickWrapped e)) st) in
  (Props.deleted st' ++ Props.deletion_of (uploaded_file st')
   = Props.deleted st ++ Props.deletion_of u)%list.
Proof.
  intros Hnone is_image u st'. subst st' u.
  unfold try_except, ocr_body. fold is_image.
  match goal with
  | |- context [bind (if is_image then _ else _) ?k] => set (rest := k)
  end.
  assert (Hrest : forall r, Props.calm (rest r)).
  { intros r. subst rest. cbv beta. apply calm_after_submission. }
  clearbody rest.
  destruct is_image.
  - pose proof (calm_process_image input_file (model o)
                  (inline_images o || extract_images o) st) as [Hd Hu].
    destruct (process_image env input_file (model o)
                (inline_images o || extract_images o) st) as [[r | e] st1] eqn:Hrun;
      cbn [snd] in Hd, Hu;
      cbv [try_except bind set_uploaded_file ret raise]; rewrite Hrun.
    + match goal with
      | |- context [rest r ?s] =>
          destruct (Hrest r s) as [Hd2 Hu2];
          destruct (rest r s) as [[[] | e] st2]
      end; cbn [snd uploaded_file] in *; rewrite Hu2, Hd2;
        unfold Props.deleted; cbn [trace]; fold (Props.deleted st1);
        now rewrite Hd.
    + cbn [snd]. now rewrite Hu, Hnone, Hd.
  - pose proof (process_pdf_deletions input_file (model o)
                  (inline_images o || extract_images o) st) as [Hu Hd].
    destruct (process_pdf env input_file (model o)
                (inline_images o || extract_images o) st) as [[[r f] | e] st1] eqn:Hrun;
      cbn [fst snd] in Hd, Hu;
      cbv [try_except bind set_uploaded_file ret raise]; rewrite Hrun.
    + destruct Hd as [Hup Hd]. rewrite Hup. cbn [fst snd].
      match goal with
      | |- context [rest r ?s] =>
          destruct (Hrest r s) as [Hd2 Hu2];
          destruct (rest r s) as [[[] | e] st2]
      end; cbn [snd uploaded_file] in *; rewrite Hu2, Hd2;
        unfold Props.deleted; cbn [trace]; fold (Props.deleted st1);
        now rewrite Hd.
    + cbn [snd]. rewrite Hu, Hnone, Hd.
      cbn [Props.deletion_of]. now rewrite app_nil_r.
Qed.

End RemoteFiles.

(** X3.  On every run of [ocr_pdf] the calls that delete a remote file
    are, beyond those made before, exactly one for the file the run
    uploaded, and none when it uploaded none: when the options are
    refused, when the input is an image, or when reading or uploading the
    PDF fails.  This holds whether the run succeeds or raises, and
    whatever the service answers. *)
Theorem uploaded_file_is_deleted_once env md_convert (o : options) (st : state) :
  Props.deleted (snd (ocr_pdf env md_convert o st))
  = (Props.deleted st ++ Props.deletion_of (Props.uploaded_by env o))%list.
Proof.
  unfold Props.uploaded_by.
  destruct (Spec.violates_rule o) eqn:Hv; cbn [orb].
  - destruct (validate_options_rejects o Hv) as (msg & _ & Hmsg).
    unfold ocr_pdf. rewrite reraise, bind_lift, Hmsg. cbn [snd Props.deletion_of].
    now rewrite app_nil_r.
  - unfold ocr_pdf. rewrite reraise, bind_lift, (validate_options_accepts o Hv).
    unfold new_client.
    erewrite bind_ok by reflexivity. erewrite bind_ok by reflexivity.
    unfold try_finally.
    match goal with
    | |- context [try_except ?b ?h ?s] =>
        pose proof (ocr_body_deletions env md_convert o
                      (if json_ o then "json" else if html o then "html" else "markdown")
                      (Path.of_string (file_path o)) s eq_refl) as Hbody;
        cbv zeta in Hbody;
        destruct (try_except b h s) as [r st1]
    end.
    cbn [snd] in Hbody.
    pose proof (cleanup_deletions env st1) as Hc.
    pose proof (cleanup_returns env st1) as Hr.
    destruct (cleanup env st1) as [[[] | e] st2]; cbn [fst snd] in *; [| discriminate].
    rewrite Hc, Hbody. unfold Spec.image_variant, image_suffixes.
    unfold Props.deleted. cbn [trace]. rewrite filter_app. cbn [filter Spec.is_delete].
    now rewrite app_nil_r.
Qed.

(** ** Substitutions that change nothing *)

Lemma lazy_group_split tail : forall s g rest,
  Re.lazy_group tail s = Some (g, rest) -> s = g ++ tail ++ rest.
Proof.
  induction s as [| c s IH]; intros g rest; cbn [Re.lazy_group].
  - destruct (Str.startswith EmptyString tail) eqn:Hs; [| discriminate].
    intros [= <- <-]. exact (startswith_split _ _ Hs).
  - destruct (Str.startswith (String c s) tail) eqn:Hs.
    + intros [= <- <-]. exact (startswith_split _ _ Hs).
    + destruct (Ascii.eqb c Str.newline); [discriminate |].
      destruct (Re.lazy_group tail s) as [[g' r'] |]; [| discriminate].
      intros [= <- <-]. cbn [append]. f_equal. now apply IH.
Qed.

Lemma match_image_split img_id s alt rest :
  Re.match_image img_id s = Some (alt, rest) ->
  s = "![" ++ alt ++ Re.link_tail img_id ++ rest.
Proof.
  destruct s as [| c [| d s]]; cbn [Re.match_image]; try discriminate.
  destruct (Ascii.eqb c "!") eqn:Hc; [| discriminate].
  destruct (Ascii.eqb d "[") eqn:Hd; [| discriminate].
  cbn [andb]. intros H. apply lazy_group_split in H as ->.
  apply Ascii.eqb_eq in Hc as ->. apply Ascii.eqb_eq in Hd as ->. reflexivity.
Qed.

(** A template that puts back the identifier it replaces: every match is
    rewritten as it stands. *)
Lemma sub_scan_same img_id tpl :
  (forall whole group1,
      Re.expand tpl whole group1 = "![" ++ group1 ++ Re.link_tail img_id) ->
  forall fuel s, Re.sub_scan fuel img_id tpl s = s.
Proof.
  intros Htpl. induction fuel as [| fuel IH]; intros s; [reflexivity |].
  destruct s as [| c s]; [reflexivity |].
  cbn [Re.sub_scan].
  destruct (Re.match_image img_id (String c s)) as [[alt rest] |] eqn:Hm.
  - rewrite Htpl, IH. apply match_image_split in Hm. rewrite Hm.
    cbn [append]. now rewrite !append_assoc.
  - now rewrite IH.
Qed.

Lemma contains_tail sub c s :
  Str.contains sub (String c s) = false -> Str.contains sub s = false.
Proof.
  cbn [Str.contains]. now destruct (Str.startswith (String c s) sub).
Qed.

Lemma contains_append sub a s : Str.contains sub (a ++ sub ++ s) = true.
Proof.
  induction a as [| c a IH]; cbn [append].
  - destruct (sub ++ s) eqn:H; cbn [Str.contains]; rewrite <- H;
      now rewrite startswith_append.
  - cbn [Str.contains]. rewrite IH. now destruct (Str.startswith _ sub).
Qed.

(** Where the closing of the identifier occurs nowhere, nothing matches. *)
Lemma sub_scan_unreferenced img_id tpl : forall fuel s,
  Str.contains (Re.link_tail img_id) s = false ->
  Re.sub_scan fuel img_id tpl s = s.
Proof.
  induction fuel as [| fuel IH]; intros s Hs; [reflexivity |].
  destruct s as [| c s]; [reflexivity |].
  cbn [Re.sub_scan].
  destruct (Re.match_image img_id (String c s)) as [[alt rest] |] eqn:Hm.
  - apply match_image_split in Hm. rewrite Hm in Hs.
    change ("![" ++ alt ++ Re.link_tail img_id ++ rest)
      with (String "!" (String "[" (alt ++ Re.link_tail img_id ++ rest))) in Hs.
    apply contains_tail, contains_tail in Hs.
    now rewrite contains_append in Hs.
  - rewrite IH; [reflexivity |]. exact (contains_tail _ _ _ Hs).
Qed.

Lemma substitute_all_own_names m : forall text,
  forallb Props.own_name m = true ->
  forallb Props.plain_entry m = true ->
  substitute_all text m = Ok text.
Proof.
  induction m as [| [k v] rest IH]; intros text Hown Hplain; [reflexivity |].
  cbn [forallb] in Hown, Hplain.
  apply andb_prop in Hown as [Hkv Hown]. apply andb_prop in Hplain as [Hp Hplain].
  destruct k as [| | | k | |]; try discriminate.
  destruct v as [| | | v | |]; try discriminate.
  cbn [Props.own_name Props.plain_entry] in Hkv, Hp.
  apply String.eqb_eq in Hkv as <-.
  cbn [substitute_all substitute]. unfold Re.sub.
  destruct (replacement_template k Hp) as (tpl & -> & Htpl).
  rewrite (sub_scan_same k tpl Htpl). cbn [rbind]. now apply IH.
Qed.

Lemma generate_with_neutral_map md_convert response_dict output_format m :
  (forall text, substitute_all text m = Ok text) ->
  generate_output_content md_convert response_dict output_format m
  = generate_output_content md_convert response_dict output_format [].
Proof.
  intros Hm. unfold generate_output_content.
  destruct (String.eqb output_format "json"); [reflexivity |].
  destruct (markdown_contents response_dict) as [fragments | e]; [| reflexivity].
  cbn [rbind]. destruct (join_fragments fragments) as [text | e]; [| reflexivity].
  cbn [rbind substitute_all]. now rewrite Hm.
Qed.

(** X4.  An image map that binds each identifier to itself, as extract
    mode builds it, changes nothing: when the identifiers hold no
    backslash, the content generated with the map is, in every format and
    for every response, the content generated with the empty map, errors
    included. *)
Theorem own_names_keep_the_text md_convert (response_dict : json)
        (output_format : string) (image_map : Py.dict) :
  forallb Props.own_name image_map = true ->
  forallb Props.plain_entry image_map = true ->
  generate_output_content md_convert response_dict output_format image_map
  = generate_output_content md_convert response_dict output_format [].
Proof.
  intros Hown Hplain. apply generate_with_neutral_map.
  intros text. now apply substitute_all_own_names.
Qed.

Lemma own_names_keep_the_text_witness :
  generate_output_content (fun s => s) Sample.titled_page "markdown"
                          [(JStr "img-1.jpeg", JStr "img-1.jpeg")]
  = generate_output_content (fun s => s) Sample.titled_page "markdown" [].
Proof.
  apply (own_names_keep_the_text (fun s => s) Sample.titled_page "markdown"
                                 [(JStr "img-1.jpeg", JStr "img-1.jpeg")]);
    reflexivity.
Defined.

(** X5.  The loop over the image map rewrites only links that are there:
    when no key of the map stands in the text between the characters
    [](] and [)], and the references are strings without a backslash, the
    text comes back as it was. *)
Theorem unreferenced_images_keep_the_text (text : string) (image_map : Py.dict) :
  forallb Props.plain_entry image_map = true ->
  forallb (Props.unreferenced text) image_map = true ->
  substitute_all text image_map = Ok text.
Proof.
  induction image_map as [| [k v] rest IH]; intros Hplain Hun; [reflexivity |].
  cbn [forallb] in Hun, Hplain.
  apply andb_prop in Hun as [Hk Hun]. apply andb_prop in Hplain as [Hp Hplain].
  destruct k as [| | | k | |]; try discriminate.
  destruct v as [| | | v | |]; try discriminate.
  cbn [Props.unreferenced Props.plain_entry fst] in Hk, Hp.
  apply negb_true_iff in Hk.
  cbn [substitute_all substitute]. unfold Re.sub.
  destruct (replacement_template v Hp) as (tpl & -> & _).
  rewrite (sub_scan_unreferenced k tpl _ _ Hk). cbn [rbind]. now apply IH.
Qed.

Lemma unreferenced_images_keep_the_text_witness :
  substitute_all "![a](img-1.jpeg) and (img-2.jpeg)"
                 [(JStr "img-2.jpeg", JStr "data:image/jpeg;base64,QUJD")]
  = Ok "![a](img-1.jpeg) and (img-2.jpeg)".
Proof.
  apply (unreferenced_images_keep_the_text
           "![a](img-1.jpeg) and (img-2.jpeg)"
           [(JStr "img-2.jpeg", JStr "data:image/jpeg;base64,QUJD")]);
    reflexivity.
Defined.

(** ** What the image maps hold *)

Lemma set_item_values (P : json -> bool) d k v :
  forallb (fun kv => P (snd kv)) d = true ->
  P v = true ->
  forallb (fun kv => P (snd kv)) (Py.set_item d k v) = true.
Proof.
  intros Hd Hv. induction d as [| [k' v'] rest IH]; cbn [Py.set_item forallb snd].
  - now rewrite Hv.
  - cbn [forallb snd] in Hd. apply andb_prop in Hd as [H1 H2].
    destruct (Py.key_eqb k' k); cbn [forallb snd].
    + now rewrite Hv, H2.
    + now rewrite H1, IH.
Qed.

Lemma inline_data_is_data_uri image_id image_data uri :
  inline_data image_id image_data = Ok uri -> Props.is_data_uri uri = true.
Proof.
  unfold inline_data.
  destruct image_data as [| | | s | |]; cbn [py_startswith rbind]; try discriminate.
  destruct (Str.startswith s "data:") eqn:Hs; cbn [negb].
  - now intros [= <-].
  - destruct (Py.contains "." image_id) as [has_dot |]; cbn [rbind]; [| discriminate].
    destruct (if has_dot then py_extension image_id else Ok "jpeg") as [ext |];
      cbn [rbind]; [| discriminate].
    intros [= <-]. reflexivity.
Qed.

Lemma inline_image_values image_map img image_map' :
  forallb (fun kv => Props.is_data_uri (snd kv)) image_map = true ->
  inline_image image_map img = Ok image_map' ->
  forallb (fun kv => Props.is_data_uri (snd kv)) image_map' = true.
Proof.
  intros Hm. unfold inline_image.
  destruct (has_id_and_data img) as [[|] |]; cbn [rbind]; try discriminate.
  - destruct (Py.getitem img "id") as [image_id |]; cbn [rbind]; [| discriminate].
    destruct (Py.getitem img "image_base64") as [image_data |]; cbn [rbind];
      [| discriminate].
    destruct (inline_data image_id image_data) as [uri |] eqn:Huri; cbn [rbind];
      [| discriminate].
    unfold Py.setitem. destruct (Py.hashable image_id); [| discriminate].
    intros [= <-]. apply set_item_values; [exact Hm |].
    exact (inline_data_is_data_uri _ _ _ Huri).
  - now intros [= <-].
Qed.

Lemma inline_image_list_values imgs : forall image_map image_map',
  forallb (fun kv => Props.is_data_uri (snd kv)) image_map = true ->
  inline_image_list image_map imgs = Ok image_map' ->
  forallb (fun kv => Props.is_data_uri (snd kv)) image_map' = true.
Proof.
  induction imgs as [| img rest IH]; intros image_map image_map' Hm;
    cbn [inline_image_list].
  - now intros [= <-].
  - destruct (inline_image image_map img) as [m1 |] eqn:H1; cbn [rbind];
      [| discriminate].
    apply IH. exact (inline_image_values _ _ _ Hm H1).
Qed.

Lemma inline_page_list_values pages : forall image_map image_map',
  forallb (fun kv => Props.is_data_uri (snd kv)) image_map = true ->
  inline_page_list image_map pages = Ok image_map' ->
  forallb (fun kv => Props.is_data_uri (snd kv)) image_map' = true.
Proof.
  induction pages as [| page rest IH]; intros image_map image_map' Hm;
    cbn [inline_page_list].
  - now intros [= <-].
  - destruct (Py.get page "images" (JList [])) as [images |]; cbn [rbind];
      [| discriminate].
    destruct (Py.iter images) as [imgs |]; cbn [rbind]; [| discriminate].
    destruct (inline_image_list image_map imgs) as [m1 |] eqn:H1; cbn [rbind];
      [| discriminate].
    apply IH. exact (inline_image_list_values _ _ _ Hm H1).
Qed.

(** X6.  Whatever the response holds, every value of a map that
    [create_inline_image_map] returns is a string that starts with
    [data:]. *)
Theorem inline_map_holds_data_uris (response_dict : json) (image_map : Py.dict) :
  create_inline_image_map response_dict = Ok image_map ->
  forallb (fun kv => Props.is_data_uri (snd kv)) image_map = true.
Proof.
  unfold create_inline_image_map.
  destruct (Py.get response_dict "pages" (JList [])) as [pages |]; cbn [rbind];
    [| discriminate].
  destruct (Py.iter pages) as [page_list |]; cbn [rbind]; [| discriminate].
  now apply inline_page_list_values.
Qed.

Lemma inline_map_holds_data_uris_witness :
  forallb (fun kv => Props.is_data_uri (snd kv))
          [(JStr "img-1.jpeg", JStr "data:image/jpeg;base64,QUJD")] = true.
Proof.
  apply (inline_map_holds_data_uris Sample.titled_page
           [(JStr "img-1.jpeg", JStr "data:image/jpeg;base64,QUJD")]).
  reflexivity.
Defined.

(** ** The map and the count of extract mode *)

Lemma bind_inv {A B} (m : M A) (k : A -> M B) st b st' :
  bind m k st = (Ok b, st') ->
  exists a st1, m st = (Ok a, st1) /\ k a st1 = (Ok b, st').
Proof.
  unfold bind. destruct (m st) as [[a | e] st1]; [| discriminate].
  intros H. now exists a, st1.
Qed.

Lemma set_item_own_name d s :
  forallb Props.own_name d = true ->
  forallb Props.own_name (Py.set_item d (JStr s) (JStr s)) = true.
Proof.
  induction d as [| [k v] rest IH]; cbn [Py.set_item forallb].
  - intros _. cbn [Props.own_name]. now rewrite String.eqb_refl.
  - intros H. apply andb_prop in H as [H1 H2].
    destruct k as [| | | k | |]; try discriminate.
    destruct v as [| | | v | |]; try discriminate.
    cbn [Py.key_eqb]. destruct (String.eqb k s) eqn:Hk; cbn [forallb Props.own_name].
    + now rewrite Hk, H2.
    + cbn [Props.own_name] in H1. now rewrite H1, IH.
Qed.

Lemma set_item_length d k v : length (Py.set_item d k v) <= S (length d).
Proof.
  induction d as [| [k' v'] rest IH]; cbn [Py.set_item length]; [lia |].
  destruct (Py.key_eqb k' k); cbn [length]; lia.
Qed.

Section ExtractInvariant.

Variable env : environment.
Variable image_dir : path.

Let kept (acc : Py.dict * nat) : Prop :=
  forallb Props.own_name (fst acc) = true /\ length (fst acc) <= snd acc.

Lemma extract_image_keeps acc img st acc' st' :
  kept acc ->
  extract_image env image_dir acc img st = (Ok acc', st') ->
  kept acc'.
Proof.
  intros [Hown Hlen]. unfold extract_image. rewrite bind_lift.
  destruct (has_id_and_data img) as [[|] |]; try discriminate.
  2: { intros [= <- _]. now split. }
  rewrite bind_lift.
  destruct (Py.getitem img "image_base64") as [d |]; [| discriminate].
  rewrite bind_lift.
  destruct (py_startswith d "data:image/") as [is_uri |]; [| discriminate].
  rewrite bind_lift.
  destruct (match d with
            | JStr s => if is_uri then after_first_comma s else Ok s
            | _ => Raise AttributeError
            end) as [payload |]; [| discriminate].
  rewrite bind_lift.
  destruct (Py.getitem img "id") as [i |]; [| discriminate].
  rewrite bind_lift.
  destruct i as [| | | i | |]; cbn [py_path_div]; try discriminate.
  intros H. apply bind_inv in H as ([] & st1 & _ & H).
  rewrite bind_lift in H.
  destruct (Base64.b64decode payload) as [bytes |]; [| discriminate].
  apply bind_inv in H as ([] & st2 & _ & H).
  rewrite bind_lift in H. cbn [Py.setitem Py.hashable] in H.
  injection H as <- _. unfold kept. cbn [fst snd]. split.
  - now apply set_item_own_name.
  - pose proof (set_item_length (fst acc) (JStr i) (JStr i)). lia.
Qed.

Lemma extract_image_list_keeps imgs : forall acc st acc' st',
  kept acc ->
  extract_image_list env image_dir acc imgs st = (Ok acc', st') ->
  kept acc'.
Proof.
  induction imgs as [| img rest IH]; intros acc st acc' st' Hacc;
    cbn [extract_image_list].
  - now intros [= <- _].
  - intros H. apply bind_inv in H as (acc1 & st1 & H1 & H).
    exact (IH _ _ _ _ (extract_image_keeps _ _ _ _ _ Hacc H1) H).
Qed.

Lemma extract_page_list_keeps pages : forall acc st acc' st',
  kept acc ->
  extract_page_list env image_dir acc pages st = (Ok acc', st') ->
  kept acc'.
Proof.
  induction pages as [| page rest IH]; intros acc st acc' st' Hacc;
    cbn [extract_page_list].
  - now intros [= <- _].
  - rewrite bind_lift.
    destruct (Py.get page "images" (JList [])) as [images |]; [| discriminate].
    rewrite bind_lift. destruct (Py.iter images) as [imgs |]; [| discriminate].
    intros H. apply bind_inv in H as (acc1 & st1 & H1 & H).
    exact (IH _ _ _ _ (extract_image_list_keeps _ _ _ _ _ Hacc H1) H).
Qed.

End ExtractInvariant.

(** X7.  Whatever the response holds, a map that [extract_images_to_dir]
    returns binds strings to themselves, and the count returned with it is
    at least the number of its entries: an identifier that occurs twice is
    counted twice and bound once. *)
Theorem extract_map_binds_own_names env (response_dict : json) (output_dir : string)
        (st st' : state) (image_map : Py.dict) (count : nat) :
  extract_images_to_dir env response_dict output_dir st = (Ok (image_map, count), st') ->
  forallb Props.own_name image_map = true /\ length image_map <= count.
Proof.
  unfold extract_images_to_dir. rewrite reraise, bind_lift.
  destruct (Py.get response_dict "pages" (JList [])) as [pages |]; [| discriminate].
  rewrite bind_lift. destruct (Py.iter pages) as [page_list |]; [| discriminate].
  intros H.
  apply (extract_page_list_keeps env (Path.of_string output_dir) page_list
           ([], 0) st (image_map, count) st'); [| exact H].
  split; [reflexivity | cbn; lia].
Qed.

Lemma extract_map_binds_own_names_witness :
  forallb Props.own_name [(JStr "img-1.jpeg", JStr "img-1.jpeg")] = true
  /\ length [(JStr "img-1.jpeg", JStr "img-1.jpeg")] <= 2.
Proof.
  apply (extract_map_binds_own_names Sample.quiet_environment
           MoreSamples.same_image_twice "out" initial
           (snd (extract_images_to_dir Sample.quiet_environment
                   MoreSamples.same_image_twice "out" initial))).
  reflexivity.
Defined.

(** ** An image that cannot be decoded *)

Lemma extract_image_list_app env image_dir a b : forall acc st,
  extract_image_list env image_dir acc (a ++ b)%list st
  = bind (extract_image_list env image_dir acc a)
         (fun acc' => extract_image_list env image_dir acc' b) st.
Proof.
  induction a as [| img rest IH]; intros acc st; cbn [app extract_image_list].
  - reflexivity.
  - unfold bind at 1 2 3.
    destruct (extract_image env image_dir acc img st) as [[acc1 | e] st1];
      [| reflexivity].
    rewrite IH. reflexivity.
Qed.

(** The loop over the pages is the loop over their images, one after
    the other. *)
Lemma extract_page_list_flat env image_dir pages : forall acc st,
  forallb Spec.page_ok pages = true ->
  extract_page_list env image_dir acc pages st
  = extract_image_list env image_dir acc (flat_map Spec.entries_of_page pages) st.
Proof.
  induction pages as [| page rest IH]; intros acc st Hok;
    cbn [extract_page_list flat_map]; [reflexivity |].
  cbn [forallb] in Hok. apply andb_prop in Hok as [H1 H2].
  destruct (page_images page H1) as [Hp _]. unfold rbind in Hp.
  rewrite bind_lift.
  destruct (Py.get page "images" (JList [])) as [images |]; [| discriminate].
  rewrite bind_lift, Hp, extract_image_list_app.
  unfold bind.
  destruct (extract_image_list env image_dir acc (Spec.entries_of_page page) st)
    as [[acc1 | e] st1]; [| reflexivity].
  now apply IH.
Qed.

(** The file is opened, and so emptied, before the data is decoded. *)
Lemma extract_image_undecodable env image_dir acc img st name data payload e :
  Spec.complete img = Some (name, data) ->
  env_open env (Path.div image_dir name) = Ok tt ->
  Spec.payload data = Some payload ->
  Base64.b64decode payload = Raise e ->
  extract_image env image_dir acc img st
  = (Raise e,
     {| fs := (Path.div image_dir name, Bytes []) :: fs st;
        trace := trace st ++ [OpenWrite (Path.div image_dir name)];
        uploaded_file := uploaded_file st |}).
Proof.
  destruct img as [| | | | | kvs]; try discriminate.
  unfold Spec.complete, extract_image, has_id_and_data. cbn [Py.contains rbind].
  destruct (Py.lookup "id" kvs) as [i |] eqn:Hi; [| discriminate].
  destruct (Py.lookup "image_base64" kvs) as [d |] eqn:Hd;
    [| destruct i; discriminate].
  destruct i as [| | | i | |]; try discriminate.
  destruct d as [| | | d | |]; try discriminate.
  intros [= -> ->] Hopen Hpay Hdec.
  rewrite bind_lift. unfold Py.getitem. rewrite Hi, Hd.
  rewrite !bind_lift. cbn [py_startswith]. rewrite bind_lift.
  unfold Spec.payload in Hpay.
  assert (Hp : (if Str.startswith data "data:image/" then after_first_comma data
                else Ok data) = Ok payload).
  { destruct (Str.startswith data "data:image/").
    - destruct (after_first_comma data); [now injection Hpay as -> | discriminate].
    - now injection Hpay as ->. }
  rewrite Hp.
  unfold open_wb, file_write, bind, emit, lift, set_file, ret;
    cbn [fs trace uploaded_file py_path_div].
  rewrite Hopen, Hdec. reflexivity.
Qed.

(** X8.  In extract mode an image whose data cannot be decoded stops the
    extraction with the error of the decoder.  The images before it have
    been written; its own file has been opened and is left empty; the
    images after it are not looked at. *)
Theorem undecodable_image_stops_extraction env (response_dict : json)
        (output_dir : string) (st : state) (before after : list json) (img : json)
        (name data payload : string) (e : exn) :
  let image_dir := Path.of_string output_dir in
  let st1 := fold_left (Spec.written image_dir) (Spec.complete_images before) st in
  Spec.response_ok response_dict = true ->
  Spec.entries_of response_dict = (before ++ img :: after)%list ->
  Forall (Spec.extractable env image_dir) (Spec.complete_images before) ->
  Spec.complete img = Some (name, data) ->
  env_open env (Path.div image_dir name) = Ok tt ->
  Spec.payload data = Some payload ->
  Base64.b64decode payload = Raise e ->
  extract_images_to_dir env response_dict output_dir st
  = (Raise e,
     {| fs := (Path.div image_dir name, Bytes []) :: fs st1;
        trace := trace st1 ++ [OpenWrite (Path.div image_dir name)];
        uploaded_file := uploaded_file st1 |}).
Proof.
  intros image_dir st1 Hok Hentries Hbefore Himg Hopen Hpay Hdec.
  destruct (response_pages response_dict Hok) as [Hp Hpages].
  unfold extract_images_to_dir. rewrite reraise. unfold rbind in Hp.
  rewrite bind_lift.
  destruct (Py.get response_dict "pages" (JList [])) as [pages |]; [| discriminate].
  rewrite bind_lift, Hp.
  rewrite (extract_page_list_flat env _ _ ([], 0) st Hpages).
  fold (Spec.entries_of response_dict). rewrite Hentries.
  assert (Hen : forallb Spec.entry_ok before = true).
  { assert (Hall : forallb Spec.entry_ok (Spec.entries_of response_dict) = true).
    { unfold Spec.entries_of. clear - Hpages.
      induction (Spec.pages_of response_dict) as [| page rest IH]; [reflexivity |].
      cbn [forallb flat_map] in *. apply andb_prop in Hpages as [H1 H2].
      rewrite forallb_app, (proj2 (page_images page H1)). now apply IH. }
    rewrite Hentries, forallb_app in Hall. now apply andb_prop in Hall as [-> _]. }
  rewrite extract_image_list_app.
  rewrite (bind_ok _ _ _ _ _
             (extract_image_list_run env image_dir before ([], 0) st Hen Hbefore)).
  cbn [extract_image_list]. fold image_dir. fold st1.
  apply bind_raise.
  exact (extract_image_undecodable env image_dir _ img st1 name data payload e
           Himg Hopen Hpay Hdec).
Qed.

Lemma undecodable_image_stops_extraction_witness :
  extract_images_to_dir Sample.quiet_environment MoreSamples.second_image_broken
                        "out" initial
  = (Raise BinasciiError,
     {| fs := [(Path.div (Path.of_string "out") "img-2.jpeg", Bytes []);
               (Path.div (Path.of_string "out") "img-1.jpeg", Bytes [x41; x42; x43]);
               (Path.div (Path.of_string "out") "img-1.jpeg", Bytes [])];
        trace := [OpenWrite (Path.div (Path.of_string "out") "img-1.jpeg");
                  FileWrite (Path.div (Path.of_string "out") "img-1.jpeg")
                            (Bytes [x41; x42; x43]);
                  OpenWrite (Path.div (Path.of_string "out") "img-2.jpeg")];
        uploaded_file := None |}).
Proof.
  apply (undecodable_image_stops_extraction Sample.quiet_environment
           MoreSamples.second_image_broken "out" initial
           [JDict [("id", JStr "img-1.jpeg"); ("image_base64", JStr "QUJD")]]
           [JDict [("id", JStr "img-3.jpeg"); ("image_base64", JStr "QUJD")]]
           (JDict [("id", JStr "img-2.jpeg"); ("image_base64", JStr "A")])
           "img-2.jpeg" "A" "A" BinasciiError); try reflexivity.
  repeat constructor. exists [x41; x42; x43]. reflexivity.
Defined.

(** * The web front end *)

(** ** The key *)

Lemma lstrip_blank s : Props.blank (Web.lstrip s) = Props.blank s.
Proof.
  unfold Props.blank. induction s as [| c s IH]; [reflexivity |].
  cbn [Web.lstrip list_ascii_of_string forallb].
  destruct (Web.isspace c) eqn:Hc; cbn [andb].
  - exact IH.
  - cbn [list_ascii_of_string forallb]. now rewrite Hc.
Qed.

Lemma rstrip_blank s :
  String.eqb (Web.rstrip s) EmptyString = Props.blank s.
Proof.
  unfold Props.blank. induction s as [| c s IH]; [reflexivity |].
  cbn [Web.rstrip list_ascii_of_string forallb].
  destruct (Web.rstrip s) as [| d rest].
  - rewrite <- IH. cbn. destruct (Web.isspace c); reflexivity.
  - rewrite <- IH. cbn. now rewrite andb_false_r.
Qed.

Lemma strip_blank s : String.eqb (Web.strip s) EmptyString = Props.blank s.
Proof. unfold Web.strip. now rewrite rstrip_blank, lstrip_blank. Qed.

(** The test [not api_key or api_key.strip() == ""] *)
Lemma key_test api_key :
  negb (truthy api_key) || String.eqb (Web.strip (string_of api_key)) EmptyString
  = Props.no_key api_key.
Proof.
  destruct api_key as [s |]; [| reflexivity].
  cbn [truthy string_of Props.no_key]. rewrite strip_blank.
  destruct s; reflexivity.
Qed.

Section WebRuns.

Variable env : environment.
Variable md_convert : string -> string.
Variable path_exists : path -> bool.
Variable path_stat : path -> result unit.

Lemma monotone_process_image image_path model include_images :
  Spec.monotone (process_image env image_path model include_images).
Proof. unfold process_image, read_bytes, ocr_process. mono. Qed.

Lemma monotone_process_pdf pdf_path model include_images :
  Spec.monotone (process_pdf env pdf_path model include_images).
Proof.
  unfold process_pdf, read_bytes, files_upload, files_get_signed_url,
    ocr_process, files_delete.
  mono.
Qed.

Lemma monotone_respond response_dict output_format u :
  Spec.monotone (Web.respond env md_convert response_dict output_format u).
Proof. unfold Web.respond, files_delete. mono. Qed.

Lemma respond_deletions response_dict output_format u st :
  Props.deleted (snd (Web.respond env md_convert response_dict output_format u st))
  = (Props.deleted st ++ Props.deletion_of u)%list.
Proof.
  cbv [Web.respond try_finally bind lift ret files_delete emit Props.deleted
         Props.deletion_of].
  destruct (generate_output_content md_convert response_dict output_format []);
    destruct u as [u |]; cbn [snd trace];
    try (destruct (env_delete env (id u)); cbn [snd trace]; now rewrite filter_app);
    now rewrite app_nil_r.
Qed.

End WebRuns.

(** X9.  [process_file] answers a missing or blank key with a fixed
    message and does nothing else; any other key is stripped of the white
    space around it, and the client is constructed with the stripped key
    before anything else is done. *)
Theorem web_key_is_checked_and_stripped env md_convert path_exists path_stat
        (file_obj : Web.file_arg) (api_key : option string)
        (output_format : string)
        (include_images : bool) (st : state) :
  if Props.no_key api_key
  then Web.process_file env md_convert path_exists path_stat file_obj api_key
                        output_format include_images st
       = (Ok (Web.Shown "Error: Please provide a valid Mistral API key"), st)
  else exists more,
      trace (snd (Web.process_file env md_convert path_exists path_stat file_obj
                                   api_key output_format include_images st))
      = (trace st ++ NewClient (Web.strip (string_of api_key)) :: more)%list.
Proof.
  unfold Web.process_file. rewrite key_test.
  destruct (Props.no_key api_key); [reflexivity |].
  match goal with
  | |- context [try_except (bind (new_client ?k) ?rest) ?h] =>
      assert (Hrest : Spec.monotone (try_except (rest tt) h))
  end.
  { apply monotone_try_except; [| mono].
    apply monotone_bind; [mono | intros name].
    destruct (negb (path_exists (Path.of_string name))); [mono |].
    apply monotone_bind; [mono | intros _].
    destruct (existsb _ image_suffixes).
    - apply monotone_bind; [apply monotone_process_image | intros r].
      apply monotone_respond.
    - destruct (String.eqb _ ".pdf"); [| mono].
      apply monotone_bind; [apply monotone_process_pdf | intros pair].
      apply monotone_respond. }
  destruct (Hrest (Props.with_client (Web.strip (string_of api_key)) st))
    as [more Hmore].
  exists more. cbn [Props.with_client trace] in Hmore.
  rewrite <- app_assoc in Hmore. exact Hmore.
Qed.

(** X10.  With a key, a file that is not there, or whose extension, in
    lower case, is none of [.png], [.jpg], [.jpeg] and [.pdf], is answered
    with a message after the client has been constructed: the content of
    no file is read, nothing is uploaded or submitted. *)
Theorem web_refuses_other_files env md_convert path_exists path_stat
        (name : string) (api_key : option string) (output_format : string)
        (include_images : bool) (st : state) :
  let temp_path := Path.of_string name in
  let file_ext := Str.lower (Path.suffix temp_path) in
  Props.no_key api_key = false ->
  path_exists temp_path = false
  \/ (path_stat temp_path = Ok tt
      /\ existsb (String.eqb file_ext) [".png"; ".jpg"; ".jpeg"; ".pdf"] = false) ->
  Web.process_file env md_convert path_exists path_stat (Web.NamedFile name) api_key
                   output_format include_images st
  = (Ok (Web.Shown (if path_exists temp_path then Web.unsupported file_ext
                    else "Error: File not found or not accessible")),
     Props.with_client (Web.strip (string_of api_key)) st).
Proof.
  intros temp_path file_ext Hkey Hfile.
  unfold Web.process_file. rewrite key_test, Hkey.
  unfold try_except, new_client. erewrite bind_ok by reflexivity.
  rewrite bind_lift. fold temp_path.
  destruct (path_exists temp_path); cbn [negb]; [| reflexivity].
  destruct Hfile as [Hfile | [Hstat Hext]]; [discriminate |].
  rewrite bind_lift, Hstat. fold file_ext.
  cbn [existsb] in Hext. unfold image_suffixes. cbn [existsb].
  destruct (String.eqb file_ext ".png"); [discriminate |].
  destruct (String.eqb file_ext ".jpg"); [discriminate |].
  destruct (String.eqb file_ext ".jpeg"); [discriminate |].
  destruct (String.eqb file_ext ".pdf"); [discriminate |].
  reflexivity.
Qed.

Lemma web_refuses_other_files_witness :
  Web.process_file Sample.quiet_environment (fun s => s) (fun _ => true)
                   (fun _ => Ok tt) (Web.NamedFile "notes.TXT") (Some " key ")
                   "markdown" false initial
  = (Ok (Web.Shown "Error: Unsupported file format: .txt. Please upload a PDF or image file (PNG, JPG, JPEG)."),
     Props.with_client "key" initial).
Proof.
  apply (web_refuses_other_files Sample.quiet_environment (fun s => s)
           (fun _ => true) (fun _ => Ok tt) "notes.TXT" (Some " key ")
           "markdown" false initial).
  - reflexivity.
  - right. split; reflexivity.
Defined.

(** X11.  [process_file] never raises: it returns a text, or the text of
    the error it caught.  And the calls that delete a remote file are,
    beyond those made before, exactly one for the file the call uploaded,
    none when it uploaded none. *)
Theorem web_returns_and_deletes_its_upload env md_convert path_exists path_stat
        (file_obj : Web.file_arg) (api_key : option string)
        (output_format : string)
        (include_images : bool) (st : state) :
  (exists shown,
      fst (Web.process_file env md_convert path_exists path_stat file_obj api_key
                            output_format include_images st) = Ok shown)
  /\ Props.deleted (snd (Web.process_file env md_convert path_exists path_stat
                                          file_obj api_key output_format
                                          include_images st))
     = (Props.deleted st
          ++ Props.deletion_of
               (Props.web_upload env path_exists path_stat file_obj api_key))%list.
Proof.
  split.
  - unfold Web.process_file, try_except.
    match goal with
    | |- context [match ?run with _ => _ end] =>
        destruct run as [[shown | e] st1]
    end; eexists; reflexivity.
  - assert (Hcaught : forall (m : M Web.shown) s,
               Props.deleted (snd (try_except m (fun e => ret (Web.ShownError e)) s))
               = Props.deleted (snd (m s))).
    { intros m s. unfold try_except, ret. now destruct (m s) as [[a | e] s1]. }
    unfold Web.process_file. rewrite Hcaught, key_test. unfold Props.web_upload.
    destruct (Props.no_key api_key); cbn [negb andb].
    { destruct file_obj; cbn [snd Props.deletion_of]; now rewrite app_nil_r. }
    unfold new_client.
    rewrite (bind_ok _ _ st tt
               (Props.with_client (Web.strip (string_of api_key)) st) eq_refl).
    rewrite bind_lift.
    assert (Hclient : Props.deleted (Props.with_client (Web.strip (string_of api_key)) st)
                      = Props.deleted st).
    { exact (eq_trans (deleted_emit (NewClient (Web.strip (string_of api_key))) st)
                      (app_nil_r _)). }
    set (st1 := Props.with_client (Web.strip (string_of api_key)) st) in *.
    rewrite <- Hclient. clearbody st1. clear Hclient.
    destruct file_obj as [| name | s]; [cbn; now rewrite app_nil_r | |
                                        cbn; now rewrite app_nil_r].
    destruct (path_exists (Path.of_string name)); cbn [negb andb];
      [| cbn; now rewrite app_nil_r].
    rewrite bind_lift.
    destruct (path_stat (Path.of_string name)) as [[] | e]; cbn [andb];
      [| cbn; now rewrite app_nil_r].
    destruct (existsb (String.eqb (Str.lower (Path.suffix (Path.of_string name))))
                      image_suffixes) eqn:Himage.
    + assert (Hpdf : String.eqb (Str.lower (Path.suffix (Path.of_string name))) ".pdf"
                     = false).
      { unfold image_suffixes in Himage. cbn [existsb] in Himage.
        destruct (String.eqb _ ".pdf") eqn:H; [| reflexivity].
        apply String.eqb_eq in H. rewrite H in Himage. discriminate. }
      rewrite Hpdf. cbn [Props.deletion_of]. rewrite app_nil_r.
      pose proof (calm_process_image env (Path.of_string name) "mistral-ocr-latest"
                    include_images st1) as [Hd _].
      unfold bind.
      destruct (process_image env (Path.of_string name) "mistral-ocr-latest"
                  include_images st1) as [[r | e] st2]; cbn [snd] in *.
      * rewrite respond_deletions, Hd. cbn. apply app_nil_r.
      * exact Hd.
    + destruct (String.eqb (Str.lower (Path.suffix (Path.of_string name))) ".pdf");
        [| cbn; now rewrite app_nil_r].
      pose proof (process_pdf_deletions env (Path.of_string name)
                    "mistral-ocr-latest" include_images st1) as [_ Hd].
      unfold bind.
      destruct (process_pdf env (Path.of_string name) "mistral-ocr-latest"
                  include_images st1) as [[[r u] | e] st2]; cbn [fst snd] in *.
      * destruct Hd as [-> Hd]. now rewrite respond_deletions, Hd.
      * exact Hd.
Qed.

(** X12.  In the web front end the deletion of the uploaded PDF is not
    guarded: when the service answers every call but refuses the
    deletion, [process_file] returns the error of the deletion in place
    of the text it had generated. *)
Theorem web_failed_deletion_replaces_the_text env md_convert path_exists path_stat
        (name : string) (api_key : option string) (output_format : string)
        (include_images : bool) (st : state)
        (data : list byte) (u : uploaded) (url : string) (response : json) (e : exn) :
  let temp_path := Path.of_string name in
  Props.no_key api_key = false ->
  path_exists temp_path = true ->
  path_stat temp_path = Ok tt ->
  Str.lower (Path.suffix temp_path) = ".pdf" ->
  env_read_bytes env temp_path = Ok data ->
  env_upload env (Path.stem temp_path) data = Ok u ->
  env_signed_url env (id u) = Ok url ->
  env_ocr env (DocumentURLChunk url) "mistral-ocr-latest" include_images = Ok response ->
  env_delete env (id u) = Raise e ->
  fst (Web.process_file env md_convert path_exists path_stat (Web.NamedFile name) api_key
                        output_format include_images st)
  = Ok (Web.ShownError e).
Proof.
  intros temp_path Hkey Hexists Hstat Hext Hread Hupload Hurl Hocr Hdelete.
  unfold Web.process_file. rewrite key_test, Hkey.
  unfold try_except, new_client. erewrite bind_ok by reflexivity.
  rewrite bind_lift. fold temp_path. rewrite Hexists. cbn [negb].
  rewrite bind_lift, Hstat, Hext. cbn [existsb image_suffixes String.eqb Ascii.eqb
                                          Bool.eqb orb].
  cbv [process_pdf Web.respond try_except try_finally bind read_bytes files_upload
         files_get_signed_url ocr_process files_delete emit lift ret raise].
  cbn [fs trace uploaded_file]. rewrite Hread, Hupload, Hurl, Hocr. cbn [fst snd].
  rewrite Hdelete.
  now destruct (generate_output_content md_convert response output_format []).
Qed.

Lemma web_failed_deletion_replaces_the_text_witness :
  fst (Web.process_file MoreSamples.failing_delete (fun s => s) (fun _ => true)
                        (fun _ => Ok tt) (Web.NamedFile "scan.pdf") (Some "key")
                        "markdown" false initial)
  = Ok (Web.ShownError (SDKError "delete failed")).
Proof.
  apply (web_failed_deletion_replaces_the_text MoreSamples.failing_delete
           (fun s => s) (fun _ => true) (fun _ => Ok tt) "scan.pdf" (Some "key")
           "markdown" false initial [x25; x50; x44; x46] {| id := "file-1" |}
           "https://signed" Sample.titled_page (SDKError "delete failed"));
    reflexivity.
Defined.

(** X13.  [process_file] reads the attribute [name] of its file argument
    after it has constructed the client: given no file, or the path of
    the file as a plain string, it answers with the text of an
    [AttributeError], whatever the file is; nothing is read or sent. *)
Theorem web_needs_a_named_file env md_convert path_exists path_stat
        (file_obj : Web.file_arg) (api_key : option string) (output_format : string)
        (include_images : bool) (st : state) :
  Props.no_key api_key = false ->
  file_obj = Web.NoFile \/ (exists s, file_obj = Web.PathString s) ->
  Web.process_file env md_convert path_exists path_stat file_obj api_key
                   output_format include_images st
  = (Ok (Web.ShownError AttributeError),
     Props.with_client (Web.strip (string_of api_key)) st).
Proof.
  intros Hkey Hfile.
  unfold Web.process_file. rewrite key_test, Hkey.
  unfold try_except, new_client. erewrite bind_ok by reflexivity.
  rewrite bind_lift.
  destruct Hfile as [-> | [s ->]]; reflexivity.
Qed.

Lemma web_needs_a_named_file_witness :
  Web.process_file Sample.quiet_environment (fun s => s) (fun _ => true)
                   (fun _ => Ok tt) (Web.PathString "scan.pdf") (Some "key")
                   "markdown" false initial
  = (Ok (Web.ShownError AttributeError), Props.with_client "key" initial).
Proof.
  apply (web_needs_a_named_file Sample.quiet_environment (fun s => s)
           (fun _ => true) (fun _ => Ok tt) (Web.PathString "scan.pdf") (Some "key")
           "markdown" false initial).
  - reflexivity.
  - right. now exists "scan.pdf".
Defined.

(** * Whole runs *)

Lemma process_pdf_run env pdf_path model include_images st data u url response :
  env_read_bytes env pdf_path = Ok data ->
  env_upload env (Path.stem pdf_path) data = Ok u ->
  env_signed_url env (id u) = Ok url ->
  env_ocr env (DocumentURLChunk url) model include_images = Ok response ->
  process_pdf env pdf_path model include_images st
  = (Ok (response, u),
     {| fs := fs st;
        trace := trace st
                 ++ [ReadBytes pdf_path;
                     FilesUpload (Path.stem pdf_path) data "ocr";
                     FilesGetSignedUrl (id u) 1;
                     OcrProcess (DocumentURLChunk url) model include_images];
        uploaded_file := uploaded_file st |}).
Proof.
  intros Hread Hup Hurl Hocr. unfold process_pdf. rewrite reraise.
  unfold read_bytes, files_upload, files_get_signed_url, ocr_process,
    try_except, bind, emit, lift, ret; cbn [trace fs uploaded_file].
  rewrite Hread, Hup, Hurl, Hocr. cbn [trace fs uploaded_file].
  now rewrite <- !app_assoc.
Qed.

(** X14.  A PDF sent to standard output without image options: when the
    service answers and the content can be generated, [ocr_pdf] returns,
    having made seven calls in this order: client, read, upload, signed
    URL with expiry 1, OCR on that URL without images, output of the
    content, deletion of the upload.  The outcome of the deletion does not
    matter: its failure is swallowed. *)
Theorem pdf_to_stdout_run env md_convert (o : options) (st : state)
        (data : list byte) (u : uploaded) (url : string) (response : json)
        (text : string) :
  let pdf_path := Path.of_string (file_path o) in
  let output_format :=
    if json_ o then "json" else if html o then "html" else "markdown" in
  Spec.violates_rule o = false ->
  Spec.image_variant (file_path o) = false ->
  truthy (output_dir o) = false ->
  truthy (output o) = false ->
  inline_images o = false ->
  env_read_bytes env pdf_path = Ok data ->
  env_upload env (Path.stem pdf_path) data = Ok u ->
  env_signed_url env (id u) = Ok url ->
  env_ocr env (DocumentURLChunk url) (model o) false = Ok response ->
  generate_output_content md_convert response output_format [] = Ok text ->
  ocr_pdf env md_convert o st
  = (Ok tt,
     {| fs := fs st;
        trace := trace st
                 ++ [NewClient (string_of (api_key o));
                     ReadBytes pdf_path;
                     FilesUpload (Path.stem pdf_path) data "ocr";
                     FilesGetSignedUrl (id u) 1;
                     OcrProcess (DocumentURLChunk url) (model o) false;
                     Echo text;
                     FilesDelete (id u)];
        uploaded_file := Some u |}).
Proof.
  intros pdf_path output_format Hvalid Himage Hdir Hfile Hinline Hread Hup Hurl
         Hocr Hgen.
  assert (Hextract : extract_images o = false).
  { unfold Spec.violates_rule in Hvalid. rewrite Hdir in Hvalid.
    destruct (extract_images o); [| reflexivity].
    cbn in Hvalid. now rewrite !orb_true_r in Hvalid. }
  unfold ocr_pdf. rewrite reraise, bind_lift, (validate_options_accepts o Hvalid).
  unfold new_client.
  erewrite bind_ok by reflexivity. erewrite bind_ok by reflexivity.
  unfold ocr_body. unfold Spec.image_variant in Himage. unfold image_suffixes.
  rewrite Himage, Hdir, Hinline, Hextract. cbn [andb orb].
  fold pdf_path. fold output_format.
  cbv [try_finally try_except bind set_uploaded_file ret raise lift save_output
         echo emit cleanup get_uploaded_file files_delete].
  rewrite (process_pdf_run env pdf_path (model o) false _ data u url response
             Hread Hup Hurl Hocr).
  cbn [fst snd fs trace uploaded_file]. rewrite Hdir, Hfile, Hgen.
  cbn [fst snd fs trace uploaded_file].
  destruct (env_delete env (id u)) as [[] | e]; cbn [fs trace uploaded_file];
    now rewrite <- !app_assoc.
Qed.

Lemma pdf_to_stdout_run_witness :
  ocr_pdf MoreSamples.failing_delete (fun s => s) Sample.markdown_to_stdout initial
  = (Ok tt,
     {| fs := [];
        trace := [NewClient "key";
                  ReadBytes (Path.of_string "scan.pdf");
                  FilesUpload "scan" [x25; x50; x44; x46] "ocr";
                  FilesGetSignedUrl "file-1" 1;
                  OcrProcess (DocumentURLChunk "https://signed")
                             "mistral-ocr-latest" false;
                  Echo ("# Title" ++ blank_line ++ "![a](img-1.jpeg)");
                  FilesDelete "file-1"];
        uploaded_file := Some {| id := "file-1" |} |}).
Proof.
  apply (pdf_to_stdout_run MoreSamples.failing_delete (fun s => s)
           Sample.markdown_to_stdout initial [x25; x50; x44; x46]
           {| id := "file-1" |} "https://signed" Sample.titled_page
           ("# Title" ++ blank_line ++ "![a](img-1.jpeg)"));
    reflexivity.
Defined.

(** X15.  An image sent through the web front end: the file is read and
    submitted once, as a JPEG data URI, to the model [mistral-ocr-latest];
    nothing is uploaded or deleted.  The text returned is the text of the
    pages joined by blank lines, its image links as the service wrote
    them, also when the images were asked for: the front end passes an
    empty image map. *)
Theorem web_image_run env md_convert path_exists path_stat
        (name : string) (api_key : option string) (include_images : bool)
        (st : state) (data : list byte) (response : json) :
  let temp_path := Path.of_string name in
  let image_url := "data:image/jpeg;base64," ++ Base64.b64encode data in
  Props.no_key api_key = false ->
  path_exists temp_path = true ->
  path_stat temp_path = Ok tt ->
  Spec.image_variant name = true ->
  env_read_bytes env temp_path = Ok data ->
  env_ocr env (ImageURLChunk image_url) "mistral-ocr-latest" include_images
  = Ok response ->
  Spec.pages_have_text response = true ->
  Web.process_file env md_convert path_exists path_stat (Web.NamedFile name) api_key
                   "markdown" include_images st
  = (Ok (Web.Shown (Spec.joined_fragments response)),
     {| fs := fs st;
        trace := trace st
                 ++ [NewClient (Web.strip (string_of api_key));
                     ReadBytes temp_path;
                     OcrProcess (ImageURLChunk image_url) "mistral-ocr-latest"
                                include_images];
        uploaded_file := uploaded_file st |}).
Proof.
  intros temp_path image_url Hkey Hexists Hstat Himage Hread Hocr Htext.
  unfold Web.process_file. rewrite key_test, Hkey.
  unfold try_except, new_client. erewrite bind_ok by reflexivity.
  rewrite bind_lift. fold temp_path. rewrite Hexists. cbn [negb].
  rewrite bind_lift, Hstat.
  unfold Spec.image_variant in Himage. fold temp_path in Himage.
  unfold image_suffixes. rewrite Himage.
  erewrite bind_ok
    by (rewrite (process_image_run env temp_path _ include_images _ data Hread);
        fold image_url; rewrite Hocr; reflexivity).
  unfold Web.respond, try_finally, bind, lift, ret, generate_output_content.
  cbn [String.eqb Ascii.eqb Bool.eqb].
  pose proof (joined_text response Htext) as Hjoin. unfold rbind in Hjoin.
  unfold rbind.
  destruct (markdown_contents response) as [fragments |]; [| discriminate].
  rewrite Hjoin. cbn [substitute_all fs trace uploaded_file].
  now rewrite <- !app_assoc.
Qed.

Lemma web_image_run_witness :
  Web.process_file Sample.one_png (fun s => s) (fun _ => true) (fun _ => Ok tt)
                   (Web.NamedFile "photos/page.PNG") (Some "key") "markdown" true initial
  = (Ok (Web.Shown ("# Title" ++ blank_line ++ "![a](img-1.jpeg)")),
     {| fs := [];
        trace := [NewClient "key";
                  ReadBytes (Path.of_string "photos/page.PNG");
                  OcrProcess (ImageURLChunk "data:image/jpeg;base64,iVBORw==")
                             "mistral-ocr-latest" true];
        uploaded_file := None |}).
Proof.
  apply (web_image_run Sample.one_png (fun s => s) (fun _ => true) (fun _ => Ok tt)
           "photos/page.PNG" (Some "key") true initial [x89; x50; x4e; x47]
           Sample.titled_page);
    reflexivity.
Defined.

(** ** Inline mode, from the response to the text *)

Lemma items_of_app a b :
  Spec.items_of (a ++ b) = (Spec.items_of a ++ Spec.items_of b)%list.
Proof. unfold Spec.items_of. apply map_app. Qed.

Lemma set_item_fresh acc k v :
  existsb (fun kv => String.eqb (fst kv) k) acc = false ->
  Py.set_item (Spec.items_of acc) (JStr k) (JStr v)
  = Spec.items_of (acc ++ [(k, v)]).
Proof.
  induction acc as [| [k' v'] rest IH]; cbn [existsb fst]; [reflexivity |].
  intros H. apply orb_false_elim in H as [Hk Hrest].
  cbn [Spec.items_of map app fst snd Py.set_item Py.key_eqb]. rewrite Hk.
  f_equal. exact (IH Hrest).
Qed.

(** Distinct keys are bound in the order of the assignments. *)
Lemma dict_of_distinct b : forall acc,
  forallb (fun kv => negb (existsb (fun kv' => String.eqb (fst kv') (fst kv)) acc)) b
  = true ->
  Props.distinct (map fst b) = true ->
  fold_left Spec.assign b (Spec.items_of acc) = Spec.items_of (acc ++ b).
Proof.
  induction b as [| [k v] rest IH]; intros acc Hacc Hb.
  - now rewrite app_nil_r.
  - cbn [forallb fst] in Hacc. apply andb_prop in Hacc as [Hk Hrest].
    cbn [map fst Props.distinct] in Hb. apply andb_prop in Hb as [Hfresh Hdistinct].
    apply negb_true_iff in Hk. apply negb_true_iff in Hfresh.
    cbn [fold_left]. unfold Spec.assign at 2. cbn [fst snd].
    rewrite (set_item_fresh acc k v Hk), IH.
    + now rewrite <- app_assoc.
    + apply forallb_forall. intros [k' v'] Hin.
      pose proof (proj1 (forallb_forall _ _) Hrest _ Hin) as Hk'.
      cbn [fst] in Hk' |- *. apply negb_true_iff in Hk'.
      rewrite existsb_app, Hk'. cbn [existsb fst orb]. rewrite orb_false_r.
      apply negb_true_iff.
      destruct (String.eqb k k') eqn:Heq; [| reflexivity].
      apply String.eqb_eq in Heq as <-.
      assert (Hex : existsb (String.eqb k) (map fst rest) = true).
      { apply existsb_exists. exists k. split; [| apply String.eqb_refl].
        apply in_map_iff. now exists (k, v'). }
      now rewrite Hex in Hfresh.
    + exact Hdistinct.
Qed.



(** ** Extract mode, from the command line to the files *)

Lemma extract_images_to_dir_run env response_dict output_dir st :
  Spec.response_ok response_dict = true ->
  Forall (Spec.extractable env (Path.of_string output_dir))
         (Spec.complete_images (Spec.entries_of response_dict)) ->
  extract_images_to_dir env response_dict output_dir st
  = (Ok (Spec.dict_of (Spec.own_names
                         (Spec.complete_images (Spec.entries_of response_dict))),
         length (Spec.complete_images (Spec.entries_of response_dict))),
     fold_left (Spec.written (Path.of_string output_dir))
               (Spec.complete_images (Spec.entries_of response_dict)) st).
Proof.
  intros Hok Hex.
  destruct (response_pages response_dict Hok) as [Hp Hpages].
  unfold extract_images_to_dir. rewrite reraise. unfold rbind in Hp.
  rewrite bind_lift.
  destruct (Py.get response_dict "pages" (JList [])) as [pages |]; [| discriminate].
  rewrite bind_lift, Hp.
  now rewrite (extract_page_list_run env _ _ ([], 0) st Hpages Hex).
Qed.

Lemma set_item_own_plain d s :
  Spec.no_backslash s = true ->
  forallb (fun kv => Props.own_name kv && Props.plain_entry kv) d = true ->
  forallb (fun kv => Props.own_name kv && Props.plain_entry kv)
          (Py.set_item d (JStr s) (JStr s)) = true.
Proof.
  intros Hs. induction d as [| [k v] rest IH]; cbn [Py.set_item forallb].
  - intros _. cbn [Props.own_name Props.plain_entry]. now rewrite String.eqb_refl, Hs.
  - intros H. apply andb_prop in H as [H1 H2]. apply andb_prop in H1 as [Ho Hp].
    destruct k as [| | | k | |]; try discriminate.
    destruct v as [| | | v | |]; try discriminate.
    cbn [Py.key_eqb]. destruct (String.eqb k s) eqn:Hk;
      cbn [forallb Props.own_name Props.plain_entry].
    + now rewrite Hk, Hs, H2.
    + cbn [Props.own_name Props.plain_entry] in Ho, Hp. now rewrite Ho, Hp, IH.
Qed.

Lemma own_names_dict images : forall d,
  forallb (fun kv => Spec.no_backslash (fst kv)) images = true ->
  forallb (fun kv => Props.own_name kv && Props.plain_entry kv) d = true ->
  forallb (fun kv => Props.own_name kv && Props.plain_entry kv)
          (fold_left Spec.assign (Spec.own_names images) d) = true.
Proof.
  induction images as [| [k v] rest IH]; intros d Hi Hd; [exact Hd |].
  cbn [forallb fst] in Hi. apply andb_prop in Hi as [Hk Hrest].
  cbn [Spec.own_names map fold_left fst]. apply IH; [exact Hrest |].
  unfold Spec.assign. cbn [fst snd]. now apply set_item_own_plain.
Qed.

Lemma forallb_both {A} (f g : A -> bool) l :
  forallb (fun x => f x && g x) l = true ->
  forallb f l = true /\ forallb g l = true.
Proof.
  induction l as [| x l IH]; cbn [forallb]; [now split |].
  intros H. apply andb_prop in H as [Hx Hl]. apply andb_prop in Hx as [Hf Hg].
  destruct (IH Hl) as [H1 H2]. now rewrite Hf, Hg, H1, H2.
Qed.

Lemma written_uploaded_file image_dir images : forall st,
  uploaded_file (fold_left (Spec.written image_dir) images st) = uploaded_file st.
Proof.
  induction images as [| kv rest IH]; intros st; [reflexivity |].
  cbn [fold_left]. now rewrite IH.
Qed.

Lemma write_text_run env p text st :
  env_open env p = Ok tt ->
  write_text env p text st
  = (Ok tt,
     {| fs := (p, Text text) :: fs st;
        trace := trace st ++ [OpenWrite p; FileWrite p (Text text)];
        uploaded_file := uploaded_file st |}).
Proof.
  intros Hopen. cbv [write_text bind emit lift set_file]. rewrite Hopen.
  cbn [fs trace uploaded_file]. now rewrite <- app_assoc.
Qed.


